(** * Exam session controller: a shallow embedding of the React components

    The development follows the source files:
    - [src/pages/Index.tsx]                 (phases of the application),
    - the access-code form component        ([AccessCodeEntry.handleSubmit]),
    - the registration form component       ([StudentRegistration.handleSubmit]),
    - the exam screen component             ([ExamInterface]: timer, proctoring,
      answer store, finalisation).

    Times are milliseconds since the epoch ([Date.now()], [getTime()]) and are
    modelled as [Z]; invalid dates (NaN) are outside the model.  A string is
    the UTF-8 encoding of the JavaScript string, one [ascii] per byte;
    [toLowerCase] and [toUpperCase] are the ASCII part of the JavaScript
    methods, which is all that option labels and access codes use.  The
    in-memory answer store is a JavaScript [Map], kept here as an
    insertion-ordered association list; the durable tables of the
    persistence service are finite maps.

    The component is a function that React calls again on every state
    change.  Its hooks ([useState], [useRef]) are the fields of [State]; the
    values one call of the function sees are a [Render].  A session is a list
    of [Event]s (answers of the persistence service, browser events, timer
    ticks, clicks); [step] runs the handler of one event in the closure React
    gives it, followed by the re-render and its effects.  Every answer of the
    persistence service (stored or refused) is part of the event.

    An asynchronous handler ([saveAnswer], [submitExam]) is one function
    here: a call runs to its end.  What is proved of a call holds of every
    call, in whatever state it starts.  A session ([run]) delivers each event
    after the handler of the one before has finished; two runs of a handler
    that overlap between their awaits are not a session, and the statements
    about sessions say so where it matters. *)

From Stdlib Require Import ZArith String Ascii List Bool Lia.
From Stdlib Require Import DecimalString DecimalZ.
From stdpp Require Import base gmap strings list.
Import ListNotations.

Open Scope string_scope.
Open Scope list_scope.
Open Scope Z_scope.

(** ** JavaScript helpers *)

Module Js.

Definition lower_ascii (c : ascii) : ascii :=
  let n := nat_of_ascii c in
  if ((65 <=? n)%nat && (n <=? 90)%nat)%bool then ascii_of_nat (n + 32) else c.

Fixpoint toLowerCase (s : string) : string :=
  match s with
  | EmptyString => EmptyString
  | String c s' => String (lower_ascii c) (toLowerCase s')
  end.

(** Truthiness of a string value: only the empty string is falsy. *)
Definition truthy (s : string) : bool :=
  match s with
  | EmptyString => false
  | String _ _ => true
  end.

(** [a || b] on strings. *)
Definition or_else (a b : string) : string := if truthy a then a else b.

(** The characters [String.prototype.trim] strips are the WhiteSpace and
    LineTerminator characters of ECMAScript.  Those below U+0080 take one
    byte: tab, line feed, vertical tab, form feed, carriage return, space. *)
Definition is_space (c : ascii) : bool :=
  let n := nat_of_ascii c in
  ((n =? 32) || (n =? 9) || (n =? 10) || (n =? 11) || (n =? 12) || (n =? 13))%nat.

(** U+00A0 (no-break space) is the bytes C2 A0. *)
Definition is_space2 (c d : ascii) : bool :=
  ((nat_of_ascii c =? 194) && (nat_of_ascii d =? 160))%nat.

(** The three-byte ones: U+1680 (E1 9A 80), U+2000 .. U+200A (E2 80 80 ..
    E2 80 8A), U+2028 and U+2029 (E2 80 A8, E2 80 A9), U+202F (E2 80 AF),
    U+205F (E2 81 9F), U+3000 (E3 80 80) and U+FEFF (EF BB BF). *)
Definition is_space3 (c d e : ascii) : bool :=
  let n := nat_of_ascii c in
  let m := nat_of_ascii d in
  let k := nat_of_ascii e in
  (((n =? 225) && (m =? 154) && (k =? 128))
   || ((n =? 226) && (m =? 128)
       && (((128 <=? k) && (k <=? 138)) || (k =? 168) || (k =? 169) || (k =? 175)))
   || ((n =? 226) && (m =? 129) && (k =? 159))
   || ((n =? 227) && (m =? 128) && (k =? 128))
   || ((n =? 239) && (m =? 187) && (k =? 191)))%nat.

(** [s.trim()] is the empty string exactly when every character of [s] is
    white space. *)
Fixpoint blank (s : string) : bool :=
  match s with
  | EmptyString => true
  | String c s1 =>
      if is_space c then blank s1
      else
        match s1 with
        | EmptyString => false
        | String d s2 =>
            if is_space2 c d then blank s2
            else
              match s2 with
              | EmptyString => false
              | String e s3 => is_space3 c d e && blank s3
              end
        end
  end.

(** [s.includes(c)] for a one-character needle. *)
Fixpoint includes_char (c : ascii) (s : string) : bool :=
  match s with
  | EmptyString => false
  | String d s' => Ascii.eqb c d || includes_char c s'
  end.

(** [Math.floor(a / b)] on integers, for a positive divisor. *)
Definition floor_div (a b : Z) : Z := a / b.

End Js.

(** ** Data of the exam screen *)

Record Question := mkQuestion {
  qid : string;
  examId : string;
  questionText : string;
  optionA : string;
  optionB : string;
  optionC : string;
  optionD : string;
  correctAnswer : string;
  topicTag : string;
  questionOrder : Z
}.

Inductive Status := answered | not_answered | marked_for_review.

Definition status_eqb (a b : Status) : bool :=
  match a, b with
  | answered, answered => true
  | not_answered, not_answered => true
  | marked_for_review, marked_for_review => true
  | _, _ => false
  end.

Record Answer := mkAnswer {
  questionId : string;
  selectedAnswer : string;
  status : Status;
  timeSpent : Z
}.

(** The props handed to the exam screen by [Index]: the exam (identity, start
    and end time) and the registered student's identity. *)
Record Props := mkProps {
  exam_id : string;
  startTime : Z;
  endTime : Z;
  student_id : option string
}.

(** ** The answer store: a JavaScript [Map<string, Answer>] *)

Module AnswerMap.

Definition t := list (string * Answer).

Definition empty : t := [].

Fixpoint get (k : string) (m : t) : option Answer :=
  match m with
  | [] => None
  | (k', v) :: m' => if String.eqb k' k then Some v else get k m'
  end.

Definition has (k : string) (m : t) : bool :=
  match get k m with Some _ => true | None => false end.

(** [new Map(prev).set(k, v)]: an existing key keeps its position. *)
Fixpoint set (k : string) (v : Answer) (m : t) : t :=
  match m with
  | [] => [(k, v)]
  | (k', v') :: m' =>
      if String.eqb k' k then (k, v) :: m' else (k', v') :: set k v m'
  end.

Definition values (m : t) : list Answer := map snd m.

Definition keys (m : t) : list string := map fst m.

End AnswerMap.

(** ** The durable tables and the observable effects *)

(** A row of the [responses] table; its key is
    [(submission_id, question_id)], the [onConflict] target of the upserts. *)
Record Response := mkResponse {
  selected_answer : string;
  correct_answer : string;
  is_correct : bool;
  time_taken_seconds : Z
}.

(** A row of the [submissions] table. *)
Record Submission := mkSubmission {
  sub_student_id : string;
  sub_exam_id : string;
  total_questions : Z;
  total_score : Z;
  time_taken_minutes : Z;
  submitted_at : option Z
}.

(** What a session does that can be observed from outside the component, in
    the order it happens.  [ETimerSubmit] marks a call of [submitExam(true)]
    by the interval callback, [ESetTimeout] the scheduling of a delayed
    [submitExam(true)] after a violation. *)
Inductive Effect :=
| EToast (title description : string)
| EConsoleError (message : string)
| EUpsertResponse (submission_id question_id : string) (row : Response) (ok : bool)
| EUpdateSubmission (submission_id : string) (score minutes at_ms : Z) (ok : bool)
| ETimerSubmit
| ESetTimeout
| EExitFullscreen
| EOnComplete.

Record World := mkWorld {
  responses : gmap (string * string) Response;
  submissions : gmap string Submission;
  documentFullscreen : bool;
  trace : list Effect
}.

Definition emit (e : Effect) (w : World) : World :=
  mkWorld (responses w) (submissions w) (documentFullscreen w) (trace w ++ [e]).

(** [supabase.from('responses').upsert(row, {onConflict: 'submission_id,question_id'})];
    [ok] is the service's answer: the row is stored only when the call succeeds. *)
Definition upsertResponse (sid qn : string) (row : Response) (ok : bool) (w : World) : World :=
  emit (EUpsertResponse sid qn row ok)
    (if ok
     then mkWorld (<[(sid, qn) := row]> (responses w)) (submissions w)
                  (documentFullscreen w) (trace w)
     else w).

(** [supabase.from('submissions').update({...}).eq('id', sid)]. *)
Definition updateSubmission (sid : string) (score minutes at_ms : Z) (ok : bool) (w : World) : World :=
  emit (EUpdateSubmission sid score minutes at_ms ok)
    (if ok
     then mkWorld (responses w)
            (alter (fun s => mkSubmission (sub_student_id s) (sub_exam_id s)
                               (total_questions s) score minutes (Some at_ms))
                   sid (submissions w))
            (documentFullscreen w) (trace w)
     else w).

(** ** The exam screen: state, closures and handlers *)

(** [ExamPhase] of [Index.tsx]. *)
Inductive ExamPhase := access | registration | exam | completed.

(** What a function created during one render closes over.  Handlers bound in
    the JSX are recreated on every render and see the current values; an
    effect or a [useCallback] keeps the closure of the render in which its
    dependency list last changed. *)
Record Render := mkRender {
  r_questions : list Question;
  r_answers : AnswerMap.t;
  r_submissionId : option string;
  r_currentQuestionIndex : Z;
  r_questionStartTime : Z
}.

Record State := mkState {
  currentPhase : ExamPhase;            (* Index: 'exam' while the screen is mounted *)
  questions : list Question;           (* useState *)
  currentQuestionIndex : Z;            (* useState *)
  answers : AnswerMap.t;               (* useState *)
  timeRemaining : Z;                   (* useState *)
  isFullscreen : bool;                 (* useState *)
  isFullscreenRef : bool;              (* useRef, copied from isFullscreen after a render *)
  pendingAutoSubmit : bool;            (* useRef *)
  questionStartTime : Z;               (* useState *)
  submissionId : option string;        (* useState, null until the insert returns *)
  fetching : bool;                     (* the questions query is in flight *)
  creating : bool;                     (* the submissions insert is in flight *)
  listener : option Render;            (* handleFullscreenChange registered on document *)
  timeouts : list Render;              (* pending setTimeout(() => submitExam(true), 2000) *)
  world : World
}.

Definition render_of (st : State) : Render :=
  mkRender (questions st) (answers st) (submissionId st)
           (currentQuestionIndex st) (questionStartTime st).

(** The render at mount: every [useState] still has its initial value.  (Its
    [questionStartTime] is the mount time; no closure of the first render
    reads it, and it is kept as 0.) *)
Definition firstRender : Render :=
  mkRender [] AnswerMap.empty None 0 0.

Definition with_world (f : World -> World) (st : State) : State :=
  mkState (currentPhase st) (questions st) (currentQuestionIndex st) (answers st)
    (timeRemaining st) (isFullscreen st) (isFullscreenRef st) (pendingAutoSubmit st)
    (questionStartTime st) (submissionId st) (fetching st) (creating st)
    (listener st) (timeouts st) (f (world st)).

Definition set_phase (ph : ExamPhase) (st : State) : State :=
  mkState ph (questions st) (currentQuestionIndex st) (answers st)
    (timeRemaining st) (isFullscreen st) (isFullscreenRef st) (pendingAutoSubmit st)
    (questionStartTime st) (submissionId st) (fetching st) (creating st)
    (listener st) (timeouts st) (world st).

Definition set_answers (a : AnswerMap.t) (st : State) : State :=
  mkState (currentPhase st) (questions st) (currentQuestionIndex st) a
    (timeRemaining st) (isFullscreen st) (isFullscreenRef st) (pendingAutoSubmit st)
    (questionStartTime st) (submissionId st) (fetching st) (creating st)
    (listener st) (timeouts st) (world st).

Definition set_timeRemaining (t : Z) (st : State) : State :=
  mkState (currentPhase st) (questions st) (currentQuestionIndex st) (answers st)
    t (isFullscreen st) (isFullscreenRef st) (pendingAutoSubmit st)
    (questionStartTime st) (submissionId st) (fetching st) (creating st)
    (listener st) (timeouts st) (world st).

Definition set_isFullscreen (b : bool) (st : State) : State :=
  mkState (currentPhase st) (questions st) (currentQuestionIndex st) (answers st)
    (timeRemaining st) b (isFullscreenRef st) (pendingAutoSubmit st)
    (questionStartTime st) (submissionId st) (fetching st) (creating st)
    (listener st) (timeouts st) (world st).

Definition set_pendingAutoSubmit (b : bool) (st : State) : State :=
  mkState (currentPhase st) (questions st) (currentQuestionIndex st) (answers st)
    (timeRemaining st) (isFullscreen st) (isFullscreenRef st) b
    (questionStartTime st) (submissionId st) (fetching st) (creating st)
    (listener st) (timeouts st) (world st).

Definition set_timeouts (l : list Render) (st : State) : State :=
  mkState (currentPhase st) (questions st) (currentQuestionIndex st) (answers st)
    (timeRemaining st) (isFullscreen st) (isFullscreenRef st) (pendingAutoSubmit st)
    (questionStartTime st) (submissionId st) (fetching st) (creating st)
    (listener st) l (world st).

(** The effect [isFullscreenRef.current = isFullscreen], run after a render. *)
Definition syncFullscreenRef (st : State) : State :=
  mkState (currentPhase st) (questions st) (currentQuestionIndex st) (answers st)
    (timeRemaining st) (isFullscreen st) (isFullscreen st) (pendingAutoSubmit st)
    (questionStartTime st) (submissionId st) (fetching st) (creating st)
    (listener st) (timeouts st) (world st).

Definition toast (title description : string) (st : State) : State :=
  with_world (emit (EToast title description)) st.

Definition console_error (message : string) (st : State) : State :=
  with_world (emit (EConsoleError message)) st.

(** [handleExamComplete] of [Index]: the exam screen is unmounted. *)
Definition onComplete (st : State) : State :=
  set_phase completed (with_world (emit EOnComplete) st).

(** [questions[i]] for a JavaScript number [i]. *)
Definition js_index {A} (l : list A) (i : Z) : option A :=
  if i <? 0 then None else nth_error l (Z.to_nat i).

Definition findQuestion (qs : list Question) (k : string) : option Question :=
  find (fun q => String.eqb (qid q) k) qs.

(** *** saveAnswer *)

Definition correctAnswerLower (question : option Question) : string :=
  Js.or_else (match question with
              | Some q => Js.toLowerCase (correctAnswer q)
              | None => ""
              end) "".

Definition selectedAnswerLower (selected : string) : string :=
  if Js.truthy selected then Js.toLowerCase selected else "n".

Definition isCorrect (question : option Question) (selected : string) : bool :=
  match question with
  | Some _ =>
      if Js.truthy (selectedAnswerLower selected)
         && negb (String.eqb (selectedAnswerLower selected) "n")
      then String.eqb (selectedAnswerLower selected) (correctAnswerLower question)
      else false
  | None => false
  end.

(** [saveAnswer(questionId, selectedAnswer, status)] in the closure [r]; [ok]
    is whether the service stores the upsert.  The answer store is updated
    first, through the functional [setAnswers].  The test
    [selectedAnswer !== undefined && selectedAnswer !== null] holds for every
    string and is not repeated here. *)
Definition saveAnswer (r : Render) (k selected : string) (s : Status)
    (now : Z) (ok : bool) (st : State) : State :=
  let spent := now - r_questionStartTime r in
  let answerData := mkAnswer k selected s spent in
  let st1 := set_answers (AnswerMap.set k answerData (answers st)) st in
  match r_submissionId r with
  | None =>
      console_error "Attempted to save answer without a submission ID"
        (toast "Submission Error"
           "No submission ID available. Please refresh or contact support." st1)
  | Some sid =>
      let question := findQuestion (r_questions r) k in
      let row := mkResponse (selectedAnswerLower selected) (correctAnswerLower question)
                   (isCorrect question selected) (Js.floor_div spent 1000) in
      let st2 := with_world (upsertResponse sid k row ok) st1 in
      if ok then st2 else console_error "Error saving response:" st2
  end.

Definition handleAnswerSelect (r : Render) (option : string)
    (now : Z) (ok : bool) (st : State) : State :=
  match r_submissionId r with
  | None =>
      console_error "Attempted to select answer without a submission ID"
        (toast "Submission Error"
           "No submission ID available. Please refresh or contact support." st)
  | Some _ =>
      match js_index (r_questions r) (r_currentQuestionIndex r) with
      | Some currentQuestion => saveAnswer r (qid currentQuestion) option answered now ok st
      | None => st   (* TypeError: currentQuestion is undefined *)
      end
  end.

Definition markForReview (r : Render) (now : Z) (ok : bool) (st : State) : State :=
  match r_submissionId r with
  | None =>
      console_error "Attempted to mark for review without a submission ID"
        (toast "Submission Error"
           "No submission ID available. Please refresh or contact support." st)
  | Some _ =>
      match js_index (r_questions r) (r_currentQuestionIndex r) with
      | Some currentQuestion =>
          let previous := match AnswerMap.get (qid currentQuestion) (r_answers r) with
                          | Some a => selectedAnswer a
                          | None => ""
                          end in
          saveAnswer r (qid currentQuestion) (Js.or_else previous "")
            marked_for_review now ok st
      | None => st   (* TypeError: currentQuestion is undefined *)
      end
  end.

(** *** navigateToQuestion *)

Definition navigateToQuestion (index : Z) (now : Z) (st : State) : State :=
  mkState (currentPhase st) (questions st) index (answers st)
    (timeRemaining st) (isFullscreen st) (isFullscreenRef st) (pendingAutoSubmit st)
    now (submissionId st) (fetching st) (creating st)
    (listener st) (timeouts st) (world st).

(** *** submitExam *)

(** What the persistence service answers to the calls made by one run of
    [submitExam]: per swept question whether the upsert is stored, and
    whether the final update of the submission succeeds. *)
Record Outcome := mkOutcome {
  upsert_ok : string -> bool;
  update_ok : bool
}.

Definition all_ok : Outcome := mkOutcome (fun _ => true) true.

(** The body of the [responses.forEach] callback, as a step of the
    [totalScore] accumulator. *)
Definition scoreStep (qs : list Question) (acc : Z) (a : Answer) : Z :=
  if Js.truthy (selectedAnswer a) && status_eqb (status a) answered
  then match findQuestion qs (questionId a) with
       | Some question =>
           if String.eqb (selectedAnswer a) (correctAnswer question)
           then acc + 1 else acc
       | None => acc
       end
  else acc.

Definition totalScore (qs : list Question) (m : AnswerMap.t) : Z :=
  fold_left (scoreStep qs) (AnswerMap.values m) 0.

Definition unansweredQuestions (qs : list Question) (m : AnswerMap.t) : list Question :=
  List.filter (fun q => negb (AnswerMap.has (qid q) m)) qs.

Definition notAnsweredRow (q : Question) : Response :=
  mkResponse "n" (Js.or_else (Js.toLowerCase (correctAnswer q)) "") false 0.

Definition sweep (sid : string) (oc : Outcome) (qs : list Question) (w : World) : World :=
  fold_left (fun w q => upsertResponse sid (qid q) (notAnsweredRow q) (upsert_ok oc (qid q)) w)
            qs w.

Definition timeTakenMinutes (p : Props) (now : Z) : Z :=
  Js.floor_div (now - startTime p) (1000 * 60).

(** [submitExam(autoSubmit)] in the closure [r], started at time [now].  The
    awaits inside the body are collapsed: one call runs to its end in one
    step, which is the interleaving most favourable to exactly-once
    properties. *)
Definition submitExam (p : Props) (r : Render) (autoSubmit : bool)
    (now : Z) (oc : Outcome) (st : State) : State :=
  match r_submissionId r with
  | None => console_error "No submission ID available" st
  | Some sid =>
      let score := totalScore (r_questions r) (r_answers r) in
      let st1 := with_world
                   (sweep sid oc (unansweredQuestions (r_questions r) (r_answers r))) st in
      let minutes := timeTakenMinutes p now in
      let st2 := with_world (updateSubmission sid score minutes now (update_ok oc)) st1 in
      if update_ok oc then
        let st3 := toast (if autoSubmit then "Exam Auto-Submitted" else "Exam Submitted")
                     "Your responses have been saved successfully." st2 in
        let st4 := if documentFullscreen (world st3)
                   then with_world (fun w => emit EExitFullscreen
                                      (mkWorld (responses w) (submissions w) false (trace w))) st3
                   else st3 in
        onComplete st4
      else
        toast "Submission Error" "Failed to submit exam. Please try again."
          (console_error "Error submitting exam:" st2)
  end.

(** *** The countdown *)

(** One run of the [setInterval] callback.  The effect that installs the
    interval has an empty dependency list, so the [submitExam] it calls is
    the one of the first render, where [submissionId] is still [null]. *)
Definition tick (p : Props) (now : Z) (oc : Outcome) (st : State) : State :=
  if timeRemaining st <=? 1
  then set_timeRemaining 0
         (submitExam p firstRender true now oc
            (with_world (emit ETimerSubmit) st))
  else set_timeRemaining (timeRemaining st - 1) st.

(** *** Proctoring *)

Definition scheduleAutoSubmit (r : Render) (st : State) : State :=
  with_world (emit ESetTimeout) (set_timeouts (timeouts st ++ [r]) st).

(** [handleFullscreenChange] in the closure [r]; [isNowFullscreen] is what the
    document reports when the event is delivered. *)
Definition handleFullscreenChange (r : Render) (isNowFullscreen : bool) (st : State) : State :=
  if negb isNowFullscreen && isFullscreenRef st then
    let st1 := toast "Fullscreen Exit Detected"
                 "Your exam will be auto-submitted due to policy violation."
                 (set_isFullscreen false st) in
    match r_submissionId r with
    | Some _ => scheduleAutoSubmit r st1
    | None => set_pendingAutoSubmit true st1
    end
  else st.

Definition handleVisibilityChange (hidden : bool) (st : State) : State :=
  if hidden
  then toast "Tab Switch Detected" "Please return to the exam immediately." st
  else st.

(** The effect with dependency [submissionId] that replays a queued violation. *)
Definition replayPendingAutoSubmit (r : Render) (st : State) : State :=
  match r_submissionId r with
  | Some _ =>
      if pendingAutoSubmit st
      then set_pendingAutoSubmit false (scheduleAutoSubmit r st)
      else st
  | None => st
  end.

(** The effect that registers the document listeners: it returns before
    registering anything while [submissionId] is [null]. *)
Definition registerListeners (r : Render) (st : State) : State :=
  mkState (currentPhase st) (questions st) (currentQuestionIndex st) (answers st)
    (timeRemaining st) (isFullscreen st) (isFullscreenRef st) (pendingAutoSubmit st)
    (questionStartTime st) (submissionId st) (fetching st) (creating st)
    (match r_submissionId r with Some _ => Some r | None => None end)
    (timeouts st) (world st).

(** *** Mounting, and the events of a session *)

Definition emptyWorld : World := mkWorld ∅ ∅ false [].

(** The first render and its effects: [fetchQuestions] runs up to its first
    [await], full screen is requested, the interval is installed.  No
    listener is registered and no submission is created yet. *)
Definition mount (p : Props) (now : Z) : State :=
  let remainingSeconds := Z.max 0 (Js.floor_div (endTime p - now) 1000) in
  let st0 := mkState exam [] 0 AnswerMap.empty 0 false false false now None
               false false None [] emptyWorld in
  if remainingSeconds <=? 0
  then onComplete (toast "Exam Ended" "This exam has already ended." st0)
  else mkState exam [] 0 AnswerMap.empty remainingSeconds false false false now None
         true false None [] emptyWorld.

(** The events of a session.  Those that make the component call the
    persistence service carry the service's answer; those that read the
    clock carry the time. *)
Inductive Event :=
| QuestionsLoaded (result : option (list Question))  (* None: the query failed *)
| SubmissionInserted (result : option string)        (* None: the insert failed *)
| FullscreenGranted                                  (* requestFullscreen() resolved *)
| FullscreenChange (isNowFullscreen : bool)          (* the document's fullscreenchange *)
| VisibilityChange (hidden : bool)
| Tick (now : Z) (oc : Outcome)
| TimeoutFire (k : nat) (now : Z) (oc : Outcome)     (* the k-th pending timeout runs *)
| ClickOption (option : string) (now : Z) (ok : bool)
| ClickMarkForReview (now : Z) (ok : bool)
| ClickPrevious (now : Z)
| ClickNext (now : Z)
| ClickGrid (index : nat) (now : Z)
| ClickSubmit (now : Z) (oc : Outcome).

Definition mounted (st : State) : bool :=
  match currentPhase st with exam => true | _ => false end.

(** The exam view (with its buttons) is rendered only once questions are
    loaded; before that the component returns the loading placeholder. *)
Definition rendered (st : State) : bool :=
  mounted st && match questions st with [] => false | _ => true end.

Definition questionsLoaded (p : Props) (result : option (list Question)) (st : State) : State :=
  let st1 := mkState (currentPhase st) (questions st) (currentQuestionIndex st) (answers st)
               (timeRemaining st) (isFullscreen st) (isFullscreenRef st) (pendingAutoSubmit st)
               (questionStartTime st) (submissionId st) false (creating st)
               (listener st) (timeouts st) (world st) in
  match result with
  | None =>
      toast "Error" "Failed to load exam questions."
        (console_error "Error fetching questions:" st1)
  | Some [] =>
      toast "No Questions Found" "This exam has no questions available." st1
  | Some qs =>
      (* setQuestions; then the createSubmission effect sees questions.length > 0 *)
      mkState (currentPhase st1) qs (currentQuestionIndex st1) (answers st1)
        (timeRemaining st1) (isFullscreen st1) (isFullscreenRef st1) (pendingAutoSubmit st1)
        (questionStartTime st1) (submissionId st1) false
        (match student_id p with Some _ => true | None => false end)
        (listener st1) (timeouts st1) (world st1)
  end.

Definition submissionInserted (p : Props) (result : option string) (st : State) : State :=
  let st1 := mkState (currentPhase st) (questions st) (currentQuestionIndex st) (answers st)
               (timeRemaining st) (isFullscreen st) (isFullscreenRef st) (pendingAutoSubmit st)
               (questionStartTime st) (submissionId st) (fetching st) false
               (listener st) (timeouts st) (world st) in
  match result with
  | None =>
      toast "Error" "Failed to initialize exam submission."
        (console_error "Error creating submission:" st1)
  | Some sid =>
      let row := mkSubmission (default "" (student_id p)) (exam_id p)
                   (Z.of_nat (length (questions st))) 0 0 None in
      let st2 := mkState (currentPhase st1) (questions st1) (currentQuestionIndex st1)
                   (answers st1) (timeRemaining st1) (isFullscreen st1) (isFullscreenRef st1)
                   (pendingAutoSubmit st1) (questionStartTime st1) (Some sid)
                   (fetching st1) false (listener st1) (timeouts st1)
                   (mkWorld (responses (world st1)) (<[sid := row]> (submissions (world st1)))
                            (documentFullscreen (world st1)) (trace (world st1))) in
      (* the effects whose dependency lists contain submissionId *)
      replayPendingAutoSubmit (render_of st2) (registerListeners (render_of st2) st2)
  end.

Definition fullscreenGranted (st : State) : State :=
  let st1 := with_world (fun w => mkWorld (responses w) (submissions w) true (trace w)) st in
  let st2 := if mounted st then set_isFullscreen true st1 else st1 in
  toast "Exam Started" "You are now in proctored mode. Do not exit fullscreen." st2.

Definition fullscreenChange (isNow : bool) (st : State) : State :=
  let st1 := with_world (fun w => mkWorld (responses w) (submissions w) isNow (trace w)) st in
  match listener st1 with
  | Some r => if mounted st1 then handleFullscreenChange r isNow st1 else st1
  | None => st1
  end.

Fixpoint remove_nth {A} (k : nat) (l : list A) : list A :=
  match l, k with
  | [], _ => []
  | _ :: l', O => l'
  | x :: l', S k' => x :: remove_nth k' l'
  end.

(** One event, followed by the re-render and its effects. *)
Definition step (p : Props) (e : Event) (st : State) : State :=
  syncFullscreenRef
    match e with
    | QuestionsLoaded result =>
        if mounted st && fetching st then questionsLoaded p result st else st
    | SubmissionInserted result =>
        if mounted st && creating st then submissionInserted p result st else st
    | FullscreenGranted => fullscreenGranted st
    | FullscreenChange isNow => fullscreenChange isNow st
    | VisibilityChange hidden =>
        match listener st with
        | Some _ => if mounted st then handleVisibilityChange hidden st else st
        | None => st
        end
    | Tick now oc => if mounted st then tick p now oc st else st
    | TimeoutFire k now oc =>
        match nth_error (timeouts st) k with
        | Some r => submitExam p r true now oc (set_timeouts (remove_nth k (timeouts st)) st)
        | None => st
        end
    | ClickOption option now ok =>
        if rendered st then handleAnswerSelect (render_of st) option now ok st else st
    | ClickMarkForReview now ok =>
        if rendered st then markForReview (render_of st) now ok st else st
    | ClickPrevious now =>
        if rendered st && negb (currentQuestionIndex st =? 0)
        then navigateToQuestion (currentQuestionIndex st - 1) now st else st
    | ClickNext now =>
        if rendered st
           && negb (currentQuestionIndex st =? Z.of_nat (length (questions st)) - 1)
        then navigateToQuestion (currentQuestionIndex st + 1) now st else st
    | ClickGrid index now =>
        if rendered st && (index <? length (questions st))%nat
        then navigateToQuestion (Z.of_nat index) now st else st
    | ClickSubmit now oc =>
        if rendered st then submitExam p (render_of st) false now oc st else st
    end.

Definition run (p : Props) (evs : list Event) (st : State) : State :=
  fold_left (fun s e => step p e s) evs st.

(** ** The registration form: [StudentRegistration.handleSubmit] *)

Module Registration.

Record FormData := mkFormData {
  name : string;
  email : string;
  rollNumber : string
}.

(** [Student] of [Index.tsx]. *)
Record Student := mkStudent {
  id : option string;
  st_name : string;
  st_email : string;
  st_rollNumber : string
}.

(** A row of the [students] table. *)
Record StudentRow := mkStudentRow {
  row_id : string;
  row_name : string;
  row_email : string;
  roll_number : string
}.

(** The two tables the form reads; a submission row is identified here by
    its [(student_id, exam_id)] columns. *)
Record Db := mkDb {
  students : list StudentRow;
  submitted : list (string * string)
}.

(** What the service answers beyond the table contents: whether each
    select goes through, and the identity given to an inserted student
    ([None]: the insert is refused). *)
Record Env := mkEnv {
  select_student_ok : bool;
  insert_student : option string;
  select_submission_ok : bool
}.

Inductive Effect :=
| Toast (title description : string)
| ConsoleError (message : string)
| SelectStudent (roll : string)
| InsertStudent (n e roll : string)
| SelectSubmission (student exam_ : string)
| OnSuccess (s : Student).

(** [.maybeSingle()]: no row gives [null], one row gives the row, several
    rows are an error. *)
Definition maybeSingle {A} (ok : bool) (rows : list A) : option (option A) :=
  if ok then
    match rows with
    | [] => Some None
    | [r] => Some (Some r)
    | _ => None
    end
  else None.

Definition registrationFailed (db : Db) (tr : list Effect) : Db * list Effect :=
  (db, tr ++ [ConsoleError "Error during registration:";
              Toast "Registration Failed" "Failed to register. Please try again."]).

(** The duplicate-submission check and the hand-over, for the identity
    [studentId] the first half of the handler settled on. *)
Definition checkAndProceed (formData : FormData) (examId studentId : string)
    (env : Env) (db : Db) (tr : list Effect) : Db * list Effect :=
  let tr1 := tr ++ [SelectSubmission studentId examId] in
  match maybeSingle (select_submission_ok env)
          (List.filter (fun r => String.eqb (fst r) studentId && String.eqb (snd r) examId)
                  (submitted db)) with
  | None => registrationFailed db tr1
  | Some (Some _) =>
      (db, tr1 ++ [Toast "Already Submitted" "You have already submitted this exam"])
  | Some None =>
      (db, tr1 ++ [Toast "Registration Successful" "You're now ready to start the exam";
                   OnSuccess (mkStudent (Some studentId) (name formData)
                                (email formData) (rollNumber formData))])
  end.

Definition handleSubmit (formData : FormData) (examId : string)
    (env : Env) (db : Db) : Db * list Effect :=
  if Js.blank (name formData) || Js.blank (email formData) || Js.blank (rollNumber formData)
  then (db, [Toast "Incomplete Information" "Please fill in all required fields"])
  else if negb (Js.includes_char "@"%char (email formData))
  then (db, [Toast "Invalid Email" "Please enter a valid email address"])
  else
    let tr := [SelectStudent (rollNumber formData)] in
    match maybeSingle (select_student_ok env)
            (List.filter (fun r => String.eqb (roll_number r) (rollNumber formData))
                    (students db)) with
    | None => registrationFailed db tr
    | Some (Some existingStudent) =>
        checkAndProceed formData examId (row_id existingStudent) env db tr
    | Some None =>
        let tr1 := tr ++ [InsertStudent (name formData) (email formData)
                            (rollNumber formData)] in
        match insert_student env with
        | None => registrationFailed db tr1
        | Some newId =>
            let db1 := mkDb (students db ++ [mkStudentRow newId (name formData)
                                               (email formData) (rollNumber formData)])
                            (submitted db) in
            checkAndProceed formData examId newId env db1 tr1
        end
    end.

End Registration.

(** ** Quantities read off a session *)

Definition isFinalize (e : Effect) : bool :=
  match e with EUpdateSubmission _ _ _ _ _ => true | _ => false end.

Definition isTimerSubmit (e : Effect) : bool :=
  match e with ETimerSubmit => true | _ => false end.

Definition isToast (e : Effect) : bool :=
  match e with EToast _ _ => true | _ => false end.

(** The number of finalize sequences run so far: each one issues exactly one
    update of the submission. *)
Definition finalizeCount (st : State) : nat :=
  length (List.filter isFinalize (trace (world st))).

(** The number of times the countdown has called [submitExam(true)]. *)
Definition expiryCount (st : State) : nat :=
  length (List.filter isTimerSubmit (trace (world st))).

(** The number of durable answer records. *)
Definition durableAnswerCount (st : State) : nat :=
  size (responses (world st)).

(** The score as the specification words it: the answered records whose
    selection equals the correct option, compared without regard to case. *)
Definition specScore (qs : list Question) (m : AnswerMap.t) : Z :=
  Z.of_nat (length (List.filter
    (fun a => status_eqb (status a) answered &&
              match findQuestion qs (questionId a) with
              | Some q => String.eqb (Js.toLowerCase (selectedAnswer a))
                                     (Js.toLowerCase (correctAnswer q))
              | None => false
              end)
    (AnswerMap.values m))).

(** The durable part of one finalize sequence in the closure [r]: the sweep,
    then the update of the submission. *)
Definition finalizedWorld (p : Props) (r : Render) (sid : string) (now : Z)
    (oc : Outcome) (w : World) : World :=
  updateSubmission sid (totalScore (r_questions r) (r_answers r))
    (timeTakenMinutes p now) now (update_ok oc)
    (sweep sid oc (unansweredQuestions (r_questions r) (r_answers r)) w).

(** What a step leaves of a state when it only reports: the same state with
    some effects appended to the trace. *)
Definition reporting (effs : list Effect) (st : State) : State :=
  with_world (fun w => mkWorld (responses w) (submissions w) (documentFullscreen w)
                         (trace w ++ effs)) st.

(** Whether every answer upsert an event issues is stored. *)
Definition upsertsStored (e : Event) : Prop :=
  match e with
  | ClickOption _ _ ok | ClickMarkForReview _ ok => ok = true
  | TimeoutFire _ _ oc | ClickSubmit _ oc => forall k, upsert_ok oc k = true
  | _ => True
  end.

(** ** Concrete sessions used below *)

Module Sample.

Definition question (k correct : string) (order : Z) : Question :=
  mkQuestion k "e1" "text" "w" "x" "y" "z" correct "topic" order.

Definition props : Props := mkProps "e1" 0 600000 (Some "stu1").

(** An exam whose recorded start time lies two minutes after the clock. *)
Definition propsLateStart : Props := mkProps "e1" 120000 600000 (Some "stu1").

(** An exam ending two seconds after the mount. *)
Definition propsShort : Props := mkProps "e1" 0 2000 (Some "stu1").

Definition form : Registration.FormData :=
  Registration.mkFormData "New Name" "new@mail" "R1".

Definition db : Registration.Db :=
  Registration.mkDb [Registration.mkStudentRow "stu1" "Old Name" "old@mail" "R1"] [].

Definition env : Registration.Env := Registration.mkEnv true None true.

End Sample.

(** ** Invariants of the reachable states *)

(** The current question index is a valid position of the loaded list. *)
Definition indexInRange (st : State) : Prop :=
  (fetching st = true -> questions st = [])
  /\ (questions st = [] -> currentQuestionIndex st = 0)
  /\ (questions st <> [] ->
      0 <= currentQuestionIndex st < Z.of_nat (length (questions st))).

(** The state of a session whose question source answered with no
    questions: mounted, showing the loading placeholder, with nothing in
    flight and no identity. *)
Definition stuckLoading (st : State) : Prop :=
  currentPhase st = exam
  /\ questions st = []
  /\ fetching st = false
  /\ creating st = false
  /\ submissionId st = None
  /\ listener st = None
  /\ timeouts st = []
  /\ ~ In EOnComplete (trace (world st)).

(** The full-screen listener exists only in a closure that holds an
    identity, and no violation is ever queued. *)
Definition listenerHasIdentity (st : State) : Prop :=
  pendingAutoSubmit st = false
  /\ (submissionId st = None -> listener st = None)
  /\ (forall r, listener st = Some r -> r_submissionId r <> None).

Definition isTick (e : Event) : bool :=
  match e with Tick _ _ => true | _ => false end.

(** ** Submit triggers *)





(** A closure kept outside the render cycle (the registered listener, a
    pending timeout) was created in the render in which the identity
    arrived: it holds that identity, the loaded questions and the answer
    store of that moment, which is empty. *)
Definition closureOf (st : State) (sid : string) (r : Render) : Prop :=
  r_submissionId r = Some sid /\ r_questions r = questions st /\ r_answers r = [].

(** The relation between the answer store and the durable answer records in
    a session all of whose answer upserts were stored. *)
Definition durable (st : State) : Prop :=
  (fetching st = true ->
   creating st = false /\ submissionId st = None /\ questions st = [])
  /\ (creating st = true -> submissionId st = None)
  /\ match submissionId st with
     | None =>
         answers st = [] /\ responses (world st) = ∅ /\ timeouts st = []
         /\ listener st = None /\ finalizeCount st = 0%nat
     | Some sid =>
         fetching st = false /\ creating st = false
         /\ (forall k, AnswerMap.has k (answers st) = true ->
                       is_Some (responses (world st) !! (sid, k)))
         /\ (forall s k, is_Some (responses (world st) !! (s, k)) ->
                         s = sid /\ In k (map qid (questions st)))
         /\ (forall r, In r (timeouts st) -> closureOf st sid r)
         /\ (forall r, listener st = Some r -> closureOf st sid r)
         /\ (finalizeCount st <> 0%nat ->
             forall q, In q (questions st) ->
                       is_Some (responses (world st) !! (sid, qid q)))
     end.

(** Two states that agree on everything [durable] reads. *)
Definition sameSession (a b : State) : Prop :=
  questions b = questions a /\ answers b = answers a
  /\ submissionId b = submissionId a /\ fetching b = fetching a
  /\ creating b = creating a /\ listener b = listener a
  /\ timeouts b = timeouts a /\ responses (world b) = responses (world a)
  /\ finalizeCount b = finalizeCount a.

(** A not-answered row is stored under a key: the sentinel selection "n",
    no time spent, not correct. *)
Definition notAnsweredAt (w : World) (key : string * string) : Prop :=
  exists row, responses w !! key = Some row
              /\ selected_answer row = "n" /\ time_taken_seconds row = 0
              /\ is_correct row = false.

(** ** What the exam view shows: the clock and the progress summary *)

(** [n.toString()] for an integer [n]. *)
Definition numberToString (z : Z) : string :=
  NilEmpty.string_of_int (Z.to_int z).

Fixpoint prepend (n : nat) (c : ascii) (s : string) : string :=
  match n with
  | O => s
  | S n' => String c (prepend n' c s)
  end.

(** [s.padStart(target, c)] for a one-character pad string. *)
Definition padStart (target : nat) (c : ascii) (s : string) : string :=
  prepend (target - String.length s) c s.

(** [formatTime(seconds)]; [%] is the JavaScript remainder, whose sign is the
    sign of the dividend. *)
Definition formatTime (seconds : Z) : string :=
  let mins := Js.floor_div seconds 60 in
  let secs := Z.rem seconds 60 in
  String.append (padStart 2 "0"%char (numberToString mins))
    (String.append ":" (padStart 2 "0"%char (numberToString secs))).

(** Reading a displayed time back: the text before the first colon and the
    text after it, as decimal numbers of minutes and seconds. *)
Fixpoint splitAtColon (s : string) : option (string * string) :=
  match s with
  | EmptyString => None
  | String c s' =>
      if Ascii.eqb c ":"%char then Some (EmptyString, s')
      else match splitAtColon s' with
           | Some (a, b) => Some (String c a, b)
           | None => None
           end
  end.

Definition readNumber (s : string) : option Z :=
  option_map Z.of_int (NilEmpty.int_of_string s).

Definition readTime (s : string) : option Z :=
  match splitAtColon s with
  | Some (a, b) =>
      match readNumber a, readNumber b with
      | Some m, Some x => Some (m * 60 + x)
      | _, _ => None
      end
  | None => None
  end.

(** [getQuestionStatus(questionId)]. *)
Definition getQuestionStatus (m : AnswerMap.t) (k : string) : Status :=
  match AnswerMap.get k m with
  | Some a => status a
  | None => not_answered
  end.

Record StatusCounts := mkStatusCounts {
  count_answered : Z;
  count_markedForReview : Z;
  count_notAnswered : Z
}.

(** [getStatusCounts()]. *)
Definition getStatusCounts (qs : list Question) (m : AnswerMap.t) : StatusCounts :=
  let nAnswered :=
    Z.of_nat (length (List.filter (fun a => status_eqb (status a) answered)
                                  (AnswerMap.values m))) in
  let nMarked :=
    Z.of_nat (length (List.filter (fun a => status_eqb (status a) marked_for_review)
                                  (AnswerMap.values m))) in
  mkStatusCounts nAnswered nMarked (Z.of_nat (length qs) - nAnswered - nMarked).

(** A text without colon and without minus sign. *)
Fixpoint digitsOnly (s : string) : Prop :=
  match s with
  | EmptyString => True
  | String c s' => Ascii.eqb c ":"%char = false /\ Ascii.eqb c "-"%char = false
                   /\ digitsOnly s'
  end.

(** ** Further invariants of the reachable states *)

(** Two states with the same hooks and closures (they may differ in the
    phase and in the world). *)
Definition sameHooks (a b : State) : Prop :=
  questions b = questions a /\ answers b = answers a
  /\ submissionId b = submissionId a /\ fetching b = fetching a
  /\ creating b = creating a /\ listener b = listener a
  /\ timeouts b = timeouts a.

(** The shape of the answer store and of the closures in a reachable state:
    one record per key, filed under its own question identity, for a loaded
    question, never with the status not-answered; no record before the
    identity exists; every closure kept outside the render cycle is the one
    of the render in which the identity arrived. *)
Definition sessionWf (st : State) : Prop :=
  (fetching st = true ->
   creating st = false /\ submissionId st = None /\ questions st = [])
  /\ (creating st = true -> submissionId st = None)
  /\ NoDup (AnswerMap.keys (answers st))
  /\ (forall k a, In (k, a) (answers st) ->
        questionId a = k /\ status a <> not_answered
        /\ In k (map qid (questions st)))
  /\ match submissionId st with
     | None => answers st = [] /\ timeouts st = [] /\ listener st = None
     | Some sid =>
         fetching st = false /\ creating st = false
         /\ (forall r, In r (timeouts st) -> closureOf st sid r)
         /\ (forall r, listener st = Some r -> closureOf st sid r)
     end.

(** The remaining time lies between 0 and the time left at mount. *)
Definition clockBounded (p : Props) (mountedAt : Z) (st : State) : Prop :=
  0 <= timeRemaining st <= Z.max 0 (Js.floor_div (endTime p - mountedAt) 1000).

(** Every durable answer row is in lower case, and a row marked correct
    holds the correct answer and not the sentinel. *)
Definition rowSound (row : Response) : Prop :=
  Js.toLowerCase (selected_answer row) = selected_answer row
  /\ Js.toLowerCase (correct_answer row) = correct_answer row
  /\ (is_correct row = true ->
      selected_answer row = correct_answer row /\ selected_answer row <> "n").

Definition rowsSound (st : State) : Prop :=
  forall key row, responses (world st) !! key = Some row -> rowSound row.

(** The submissions table of a session: empty until the identity arrives,
    then exactly the row of that identity, created for the loaded questions
    of this exam. *)
Definition oneSubmission (p : Props) (st : State) : Prop :=
  (creating st = true -> questions st <> [])
  /\ match submissionId st with
     | None => submissions (world st) = ∅
     | Some sid =>
         questions st <> []
         /\ exists row, submissions (world st) = {[sid := row]}
                        /\ total_questions row = Z.of_nat (length (questions st))
                        /\ sub_exam_id row = exam_id p
     end.

(** What one answer record adds to the score. *)
Definition scoreOf (qs : list Question) (a : option Answer) : Z :=
  match a with
  | Some a => scoreStep qs 0 a
  | None => 0
  end.

Definition isTimeoutFire (e : Event) : bool :=
  match e with TimeoutFire _ _ _ => true | _ => false end.

(** ** A concrete session for the examples below *)

Module Demo.

Definition qs : list Question :=
  [Sample.question "q1" "B" 1; Sample.question "q2" "C" 2].

(** Questions loaded, identity created, full screen granted. *)
Definition opened : list Event :=
  [QuestionsLoaded (Some qs); SubmissionInserted (Some "s1"); FullscreenGranted].

Definition st : State := run Sample.props opened (mount Sample.props 0).

(** The student answers the first question, then leaves full screen. *)
Definition violated : list Event :=
  opened ++ [ClickOption "B" 5000 true; FullscreenChange false].

End Demo.

(** ** The access-code form: [AccessCodeEntry.handleSubmit] *)

Definition upper_ascii (c : ascii) : ascii :=
  let n := nat_of_ascii c in
  if ((97 <=? n)%nat && (n <=? 122)%nat)%bool then ascii_of_nat (n - 32) else c.

(** The ASCII part of [toUpperCase]. *)
Fixpoint toUpperCase (s : string) : string :=
  match s with
  | EmptyString => EmptyString
  | String c s' => String (upper_ascii c) (toUpperCase s')
  end.

Module AccessCode.

(** A row of the [exams] table; the two times are [null] or a timestamp. *)
Record ExamRow := mkExamRow {
  row_id : string;
  row_name : string;
  row_topic : string;
  access_code : string;
  start_time : option Z;
  end_time : option Z;
  row_status : string
}.

(** [Exam] as the form hands it over. *)
Record Exam := mkExam {
  id : string;
  name : string;
  topic : string;
  accessCode : string;
  startTime : Z;
  endTime : Z;
  status : string
}.

(** What the service answers beyond the table contents: the error message
    of the query for the active exam, if the query itself fails; the message
    [maybeSingle] gives when several rows match; and whether the second
    query (any status) goes through. *)
Record Env := mkEnv {
  select_active_error : option string;
  multiple_rows_message : string;
  select_any_ok : bool
}.

Inductive Effect :=
| Toast (title description : string)
| ConsoleError (message : string)
| SelectAll
| SelectActive (code : string)
| SelectAny (code : string)
| OnSuccess (e : Exam).

(** The result of the query for the active exam: an error with its message,
    or the row, or [null].  Several matching rows are an error of
    [maybeSingle]. *)
Definition selectActive (env : Env) (code : string) (exams : list ExamRow)
    : string + option ExamRow :=
  match select_active_error env with
  | Some message => inl message
  | None =>
      match List.filter (fun r => String.eqb (access_code r) code
                                  && String.eqb (row_status r) "active") exams with
      | [] => inr None
      | [r] => inr (Some r)
      | _ => inl (multiple_rows_message env)
      end
  end.

Definition examData (now : Z) (r : ExamRow) : Exam :=
  mkExam (row_id r) (row_name r) (row_topic r) (access_code r)
    (match start_time r with Some t => t | None => now end)
    (match end_time r with Some t => t | None => now + 3600000 end)
    (row_status r).

Definition handleSubmit (accessCode : string) (now : Z) (env : Env)
    (exams : list ExamRow) : list Effect :=
  if Js.blank accessCode
  then [Toast "Error" "Please enter an access code"]
  else
    let code := toUpperCase accessCode in
    [SelectAll; SelectActive code] ++
    match selectActive env code exams with
    | inl message =>
        [ConsoleError "Database error:";
         Toast "Database Error"
           (String.append "Error: " (String.append message ". Please try again."))]
    | inr None =>
        [SelectAny code] ++
        match Registration.maybeSingle (select_any_ok env)
                (List.filter (fun r => String.eqb (access_code r) code) exams) with
        | Some (Some examAnyStatus) =>
            [Toast "Exam Not Available"
               (String.append "Exam found but status is: " (row_status examAnyStatus))]
        | _ =>
            [Toast "Invalid Access Code"
               "No exam found with this access code. Please check and try again."]
        end
    | inr (Some r) =>
        [Toast "Access Granted" (String.append "Welcome to " (row_name r));
         OnSuccess (examData now r)]
    end.

(** The props of the exam screen for an exam handed over by this form. *)
Definition propsOf (e : Exam) (studentId : option string) : Props :=
  mkProps (id e) (startTime e) (endTime e) studentId.

End AccessCode.

(** ** The application shell: [Index] *)

Module Index.

Record State := mkState {
  phase : ExamPhase;
  theExam : option AccessCode.Exam;
  theStudent : option Registration.Student
}.

Definition initial : State := mkState access None None.

Definition handleAccessCodeSuccess (e : AccessCode.Exam) (s : State) : State :=
  mkState registration (Some e) (theStudent s).

Definition handleStudentRegistration (stu : Registration.Student) (s : State) : State :=
  mkState exam (theExam s) (Some stu).

Definition handleExamComplete (s : State) : State :=
  mkState completed (theExam s) (theStudent s).

Inductive Screen :=
| AccessCodeEntryScreen
| StudentRegistrationScreen (e : AccessCode.Exam)
| ExamInterfaceScreen (e : AccessCode.Exam) (stu : Registration.Student)
| ThankYouScreen (stu : option Registration.Student).

(** The children the JSX renders: each line is a condition followed by
    [&&] and a component. *)
Definition render (s : State) : list Screen :=
  (match phase s with access => [AccessCodeEntryScreen] | _ => [] end)
  ++ (match phase s, theExam s with
      | registration, Some e => [StudentRegistrationScreen e]
      | _, _ => []
      end)
  ++ (match phase s, theExam s, theStudent s with
      | exam, Some e, Some stu => [ExamInterfaceScreen e stu]
      | _, _, _ => []
      end)
  ++ (match phase s with completed => [ThankYouScreen (theStudent s)] | _ => [] end).

(** The callbacks the children call.  A child calls its callback while it is
    rendered; the exam screen may also call [onComplete] once more after it
    was unmounted, from a timeout that was still pending. *)
Inductive Event :=
| AccessGranted (e : AccessCode.Exam)
| Registered (stu : Registration.Student)
| ExamCompleted.

Definition step (ev : Event) (s : State) : State :=
  match ev, render s with
  | AccessGranted e, [AccessCodeEntryScreen] => handleAccessCodeSuccess e s
  | Registered stu, [StudentRegistrationScreen _] => handleStudentRegistration stu s
  | ExamCompleted, [ExamInterfaceScreen _ _] => handleExamComplete s
  | ExamCompleted, [ThankYouScreen _] => handleExamComplete s
  | _, _ => s
  end.

Definition run (evs : list Event) (s : State) : State :=
  fold_left (fun s e => step e s) evs s.

Definition rank (ph : ExamPhase) : nat :=
  match ph with access => 0 | registration => 1 | exam => 2 | completed => 3 end.

End Index.

(** The state of a session whose exam had already ended at mount. *)
Definition endedAtMount (st : State) : Prop :=
  currentPhase st = completed
  /\ submissionId st = None
  /\ questions st = []
  /\ listener st = None
  /\ timeouts st = []
  /\ responses (world st) = ∅
  /\ submissions (world st) = ∅.

(** What [Index] holds in each phase. *)
Definition indexWf (s : Index.State) : Prop :=
  match Index.phase s with
  | access => True
  | registration => Index.theExam s <> None
  | exam => Index.theExam s <> None /\ Index.theStudent s <> None
  | completed => True
  end.

(** ** What a form submission shows and hands over *)

Definition registrationToasts (tr : list Registration.Effect) : list string :=
  flat_map (fun e => match e with Registration.Toast title _ => [title] | _ => [] end) tr.

Definition registrationHandOvers (tr : list Registration.Effect)
    : list Registration.Student :=
  flat_map (fun e => match e with Registration.OnSuccess s => [s] | _ => [] end) tr.

Definition accessToasts (tr : list AccessCode.Effect) : list string :=
  flat_map (fun e => match e with AccessCode.Toast title _ => [title] | _ => [] end) tr.

Definition accessHandOvers (tr : list AccessCode.Effect) : list AccessCode.Exam :=
  flat_map (fun e => match e with AccessCode.OnSuccess x => [x] | _ => [] end) tr.

(** * Properties *)

(** ** Finalisation: the sweep and the final update *)

Section Finalize.

Variable p : Props.

Lemma sweep_trace sid oc qs w :
  trace (sweep sid oc qs w) =
  trace w ++ map (fun q => EUpsertResponse sid (qid q) (notAnsweredRow q)
                             (upsert_ok oc (qid q))) qs.
Proof.
  revert w. induction qs as [|q qs IH]; intros w; simpl.
  - now rewrite app_nil_r.
  - unfold sweep in *. simpl. rewrite IH.
    unfold upsertResponse, emit. simpl.
    destruct (upsert_ok oc (qid q)); simpl; now rewrite <- app_assoc.
Qed.

Lemma sweep_submissions sid oc qs w :
  submissions (sweep sid oc qs w) = submissions w.
Proof.
  revert w. induction qs as [|q qs IH]; intros w; simpl; [reflexivity|].
  unfold sweep in *. simpl. rewrite IH.
  unfold upsertResponse, emit. now destruct (upsert_ok oc (qid q)).
Qed.

Lemma sweep_documentFullscreen sid oc qs w :
  documentFullscreen (sweep sid oc qs w) = documentFullscreen w.
Proof.
  revert w. induction qs as [|q qs IH]; intros w; simpl; [reflexivity|].
  unfold sweep in *. simpl. rewrite IH.
  unfold upsertResponse, emit. now destruct (upsert_ok oc (qid q)).
Qed.

Lemma submitExam_responses r autoSubmit now oc st sid :
  r_submissionId r = Some sid ->
  responses (world (submitExam p r autoSubmit now oc st)) =
  responses (sweep sid oc (unansweredQuestions (r_questions r) (r_answers r)) (world st)).
Proof.
  intros Hid. unfold submitExam. rewrite Hid.
  destruct (update_ok oc); simpl.
  - match goal with |- context [if ?b then _ else _] => destruct b end; reflexivity.
  - reflexivity.
Qed.

Lemma submitExam_submissions r autoSubmit now oc st sid :
  r_submissionId r = Some sid ->
  submissions (world (submitExam p r autoSubmit now oc st)) =
  submissions (finalizedWorld p r sid now oc (world st)).
Proof.
  intros Hid. unfold submitExam, finalizedWorld. rewrite Hid.
  destruct (update_ok oc); simpl.
  - match goal with |- context [if ?b then _ else _] => destruct b end; reflexivity.
  - reflexivity.
Qed.

Lemma submitExam_trace r autoSubmit now oc st sid :
  r_submissionId r = Some sid ->
  exists report,
    trace (world (submitExam p r autoSubmit now oc st)) =
    trace (finalizedWorld p r sid now oc (world st)) ++ report
    /\ List.filter isFinalize report = []
    /\ List.filter isTimerSubmit report = [].
Proof.
  intros Hid. unfold submitExam, finalizedWorld. rewrite Hid.
  destruct (update_ok oc) eqn:Hok; simpl.
  - match goal with |- context [if ?b then _ else _] => destruct b end; simpl.
    + eexists [_; _; _]. rewrite <- !app_assoc. simpl. split; [reflexivity|].
      split; reflexivity.
    + eexists [_; _]. rewrite <- !app_assoc. simpl. split; [reflexivity|].
      split; reflexivity.
  - eexists [_; _]. rewrite <- !app_assoc. simpl. split; [reflexivity|].
    split; reflexivity.
Qed.

Lemma finalizedWorld_trace r sid now oc w :
  trace (finalizedWorld p r sid now oc w) =
  trace w
  ++ map (fun q => EUpsertResponse sid (qid q) (notAnsweredRow q) (upsert_ok oc (qid q)))
         (unansweredQuestions (r_questions r) (r_answers r))
  ++ [EUpdateSubmission sid (totalScore (r_questions r) (r_answers r))
        (timeTakenMinutes p now) now (update_ok oc)].
Proof.
  unfold finalizedWorld, updateSubmission, emit.
  destruct (update_ok oc); simpl; rewrite sweep_trace; now rewrite <- app_assoc.
Qed.

Lemma submitExam_none r autoSubmit now oc st :
  r_submissionId r = None ->
  submitExam p r autoSubmit now oc st =
  reporting [EConsoleError "No submission ID available"] st.
Proof. intros Hid. unfold submitExam. now rewrite Hid. Qed.

End Finalize.

(** ** Time taken *)

Lemma timeTakenMinutes_bounds p now :
  60000 * timeTakenMinutes p now <= now - startTime p < 60000 * timeTakenMinutes p now + 60000.
Proof.
  unfold timeTakenMinutes, Js.floor_div. change (1000 * 60) with 60000.
  pose proof (Z.div_mod (now - startTime p) 60000 ltac:(lia)) as Hdm.
  pose proof (Z.mod_pos_bound (now - startTime p) 60000 ltac:(lia)) as Hb.
  lia.
Qed.

Lemma timeTakenMinutes_sign p now :
  0 <= timeTakenMinutes p now <-> startTime p <= now.
Proof. pose proof (timeTakenMinutes_bounds p now). lia. Qed.

(** C7 (as amended).  A finalize sequence commits
    floor((now - exam start time) / 60 s) minutes; the value is non-negative
    exactly when the recorded start time is not later than the finalisation
    time, and negative otherwise. *)
Theorem time_taken_is_floor p r autoSubmit now oc st sid :
  r_submissionId r = Some sid ->
  let m := (now - startTime p) / 60000 in
  let st' := submitExam p r autoSubmit now oc st in
  In (EUpdateSubmission sid (totalScore (r_questions r) (r_answers r)) m now (update_ok oc))
     (trace (world st'))
  /\ (forall row, update_ok oc = true -> submissions (world st) !! sid = Some row ->
        time_taken_minutes <$> (submissions (world st') !! sid) = Some m)
  /\ 60000 * m <= now - startTime p < 60000 * m + 60000
  /\ (0 <= m <-> startTime p <= now).
Proof.
  intros Hid m st'. subst st'.
  assert (Hm : m = timeTakenMinutes p now) by reflexivity.
  split; [|split; [|split]].
  - destruct (submitExam_trace p r autoSubmit now oc st sid Hid) as (report & -> & _).
    rewrite finalizedWorld_trace, <- Hm. rewrite !in_app_iff. left. right. right.
    simpl. now left.
  - intros row Hok Hrow.
    rewrite (submitExam_submissions p r autoSubmit now oc st sid Hid).
    unfold finalizedWorld, updateSubmission. rewrite Hok. simpl.
    rewrite sweep_submissions, lookup_alter_eq, Hrow. simpl. now rewrite Hm.
  - rewrite Hm. apply timeTakenMinutes_bounds.
  - rewrite Hm. apply timeTakenMinutes_sign.
Qed.

Lemma time_taken_is_floor_witness :
  let r := mkRender [] [] (Some "s1") 0 0 in
  let st' := submitExam Sample.props r false 90000 all_ok (mount Sample.props 0) in
  r_submissionId r = Some "s1"
  /\ In (EUpdateSubmission "s1" 0 1 90000 true) (trace (world st'))
  /\ 60000 * 1 <= 90000 - 0 < 60000 * 1 + 60000.
Proof.
  intros r st'. split; [reflexivity|].
  pose proof (time_taken_is_floor Sample.props r false 90000 all_ok
                (mount Sample.props 0) "s1" eq_refl) as (Hin & _ & Hb & _).
  split; [exact Hin | exact Hb].
Defined.

(** C7 (counterexample).  With a recorded start time two minutes after the
    clock, a manual submit commits -2 minutes. *)
Lemma time_taken_negative_when_start_is_late :
  let st := run Sample.propsLateStart
              [QuestionsLoaded (Some [Sample.question "q1" "B" 1]);
               SubmissionInserted (Some "s1");
               ClickSubmit 0 all_ok]
              (mount Sample.propsLateStart 0) in
  exists m, time_taken_minutes <$> (submissions (world st) !! "s1") = Some m /\ m < 0.
Proof. exists (-2). split; [vm_compute; reflexivity | lia]. Qed.

(** ** Score *)

Lemma fold_scoreStep_shift qs l acc :
  fold_left (scoreStep qs) l acc = acc + fold_left (scoreStep qs) l 0.
Proof.
  revert acc. induction l as [|a l IH]; intros acc; simpl; [lia|].
  rewrite (IH (scoreStep qs acc a)), (IH (scoreStep qs 0 a)).
  unfold scoreStep.
  destruct (Js.truthy (selectedAnswer a) && status_eqb (status a) answered); [|lia].
  destruct (findQuestion qs (questionId a)) as [q|]; [|lia].
  destruct (String.eqb (selectedAnswer a) (correctAnswer q)); lia.
Qed.

(** The accumulator loop counts the answered records whose selection is the
    very string stored as the correct answer. *)
Lemma totalScore_counts qs m :
  totalScore qs m =
  Z.of_nat (length (List.filter
    (fun a => Js.truthy (selectedAnswer a) && status_eqb (status a) answered &&
              match findQuestion qs (questionId a) with
              | Some q => String.eqb (selectedAnswer a) (correctAnswer q)
              | None => false
              end)
    (AnswerMap.values m))).
Proof.
  unfold totalScore. induction (AnswerMap.values m) as [|a l IH]; [reflexivity|].
  simpl fold_left. rewrite fold_scoreStep_shift, IH. simpl List.filter.
  unfold scoreStep.
  destruct (Js.truthy (selectedAnswer a) && status_eqb (status a) answered); simpl; [|lia].
  destruct (findQuestion qs (questionId a)) as [q|]; simpl; [|lia].
  destruct (String.eqb (selectedAnswer a) (correctAnswer q)); simpl length; lia.
Qed.

(** C2 (the code at the failing input).  The stored correct answer is "b"
    and the student clicks option "B": the response row written by
    [saveAnswer] is marked correct (it compares lower-cased strings), but
    the finalize sequence commits a total score of 0, where the score of the
    specification is 1. *)
Theorem score_is_case_sensitive :
  let qs := [Sample.question "q1" "b" 1] in
  let st := run Sample.props
              [QuestionsLoaded (Some qs);
               SubmissionInserted (Some "s1");
               ClickOption "B" 5000 true]
              (mount Sample.props 0) in
  let st' := step Sample.props (ClickSubmit 6000 all_ok) st in
  is_correct <$> (responses (world st') !! ("s1", "q1")) = Some true
  /\ total_score <$> (submissions (world st') !! "s1") = Some 0
  /\ totalScore qs (answers st) = 0
  /\ specScore qs (answers st) = 1.
Proof. vm_compute. repeat split; reflexivity. Qed.

(** ** Registration *)

(** C10.  When the roll number entered in the form matches a stored student
    record, the handler writes nothing to the tables (the stored name and
    email stay as they were, the typed ones are not persisted) and performs
    the duplicate-submission check for the stored record's identity.  What
    follows is decided by that check: with no stored submission of that
    identity for this exam it hands over that identity; with a stored one it
    reports Already Submitted and does not hand over; when the check itself
    fails the registration fails. *)
Theorem existing_roll_number_reuses_stored_identity
    (formData : Registration.FormData) (examId : string)
    (env : Registration.Env) (db : Registration.Db) (s : Registration.StudentRow) :
  Js.blank (Registration.name formData) = false ->
  Js.blank (Registration.email formData) = false ->
  Js.blank (Registration.rollNumber formData) = false ->
  Js.includes_char "@"%char (Registration.email formData) = true ->
  Registration.select_student_ok env = true ->
  List.filter (fun r => String.eqb (Registration.roll_number r)
                                   (Registration.rollNumber formData))
              (Registration.students db) = [s] ->
  let result := Registration.handleSubmit formData examId env db in
  let stored := List.filter (fun r => String.eqb (fst r) (Registration.row_id s)
                                      && String.eqb (snd r) examId)
                            (Registration.submitted db) in
  let lookups := [Registration.SelectStudent (Registration.rollNumber formData);
                  Registration.SelectSubmission (Registration.row_id s) examId] in
  fst result = db
  /\ (forall n e roll, ~ In (Registration.InsertStudent n e roll) (snd result))
  /\ nth_error (snd result) 1 =
     Some (Registration.SelectSubmission (Registration.row_id s) examId)
  /\ (forall stu, In (Registration.OnSuccess stu) (snd result) ->
        Registration.id stu = Some (Registration.row_id s)
        /\ Registration.select_submission_ok env = true
        /\ stored = [])
  /\ (Registration.select_submission_ok env = true -> stored = [] ->
      snd result =
        lookups ++
        [Registration.Toast "Registration Successful" "You're now ready to start the exam";
         Registration.OnSuccess
           (Registration.mkStudent (Some (Registration.row_id s))
              (Registration.name formData) (Registration.email formData)
              (Registration.rollNumber formData))])
  /\ (forall x, Registration.select_submission_ok env = true -> stored = [x] ->
      snd result =
        lookups ++
        [Registration.Toast "Already Submitted" "You have already submitted this exam"])
  /\ (Registration.select_submission_ok env = false \/ (2 <= length stored)%nat ->
      snd result =
        lookups ++
        [Registration.ConsoleError "Error during registration:";
         Registration.Toast "Registration Failed" "Failed to register. Please try again."]).
Proof.
  intros Hn He Hr Hat Hsel Hrow result stored lookups. subst result lookups.
  unfold Registration.handleSubmit.
  rewrite Hn, He, Hr, Hat, Hrow. simpl.
  unfold Registration.maybeSingle at 1. rewrite Hsel.
  unfold Registration.checkAndProceed, Registration.registrationFailed. simpl.
  fold stored. unfold Registration.maybeSingle.
  destruct (Registration.select_submission_ok env) eqn:Hok;
    [destruct stored as [|x [|y rest]] eqn:Hst|]; simpl.
  - split; [reflexivity|]. split; [intros n e roll H; simpl in H; intuition discriminate|].
    split; [reflexivity|].
    split.
    { intros stu H. simpl in H.
      destruct H as [H|[H|[H|[H|[]]]]]; try discriminate.
      inversion H. subst stu. simpl. repeat split. }
    split; [intros _ _; reflexivity|].
    split; [intros x _ Hx; discriminate Hx|].
    intros [H|H]; [discriminate H | simpl in H; lia].
  - split; [reflexivity|]. split; [intros n e roll H; simpl in H; intuition discriminate|].
    split; [reflexivity|].
    split; [intros stu H; simpl in H; intuition discriminate|].
    split; [intros _ Hx; discriminate Hx|].
    split; [intros x' _ _; reflexivity|].
    intros [H|H]; [discriminate H | simpl in H; lia].
  - split; [reflexivity|]. split; [intros n e roll H; simpl in H; intuition discriminate|].
    split; [reflexivity|].
    split; [intros stu H; simpl in H; intuition discriminate|].
    split; [intros _ Hx; discriminate Hx|].
    split; [intros x' _ Hx; discriminate Hx|].
    intros _. reflexivity.
  - split; [reflexivity|]. split; [intros n e roll H; simpl in H; intuition discriminate|].
    split; [reflexivity|].
    split; [intros stu H; simpl in H; intuition discriminate|].
    split; [intros Hx; discriminate Hx|].
    split; [intros x' Hx; discriminate Hx|].
    intros _. reflexivity.
Qed.

Lemma existing_roll_number_reuses_stored_identity_witness :
  let result := Registration.handleSubmit Sample.form "e1" Sample.env Sample.db in
  let dbSubmitted := Registration.mkDb (Registration.students Sample.db) [("stu1", "e1")] in
  let blocked := Registration.handleSubmit Sample.form "e1" Sample.env dbSubmitted in
  fst result = Sample.db
  /\ Registration.students (fst result)
     = [Registration.mkStudentRow "stu1" "Old Name" "old@mail" "R1"]
  /\ nth_error (snd result) 1 = Some (Registration.SelectSubmission "stu1" "e1")
  /\ In (Registration.OnSuccess
           (Registration.mkStudent (Some "stu1") "New Name" "new@mail" "R1"))
        (snd result)
  /\ fst blocked = dbSubmitted
  /\ snd blocked =
     [Registration.SelectStudent "R1"; Registration.SelectSubmission "stu1" "e1";
      Registration.Toast "Already Submitted" "You have already submitted this exam"].
Proof.
  intros result dbSubmitted blocked.
  pose proof (existing_roll_number_reuses_stored_identity Sample.form "e1" Sample.env
                Sample.db (Registration.mkStudentRow "stu1" "Old Name" "old@mail" "R1")
                eq_refl eq_refl eq_refl eq_refl eq_refl eq_refl)
    as (Hdb & _ & Hcheck & _ & Hon & _).
  pose proof (existing_roll_number_reuses_stored_identity Sample.form "e1" Sample.env
                dbSubmitted (Registration.mkStudentRow "stu1" "Old Name" "old@mail" "R1")
                eq_refl eq_refl eq_refl eq_refl eq_refl eq_refl)
    as (Hdb' & _ & _ & _ & _ & Hblocked & _).
  split; [exact Hdb|]. split; [reflexivity|].
  split; [exact Hcheck|].
  split; [unfold result; rewrite (Hon eq_refl eq_refl); simpl; auto|].
  split; [exact Hdb'|].
  exact (Hblocked ("stu1", "e1") eq_refl eq_refl).
Defined.

(** A name that is a single no-break space (U+00A0) is blank for [trim]:
    the form stops at the first check, whatever the tables hold. *)
Lemma no_break_space_is_blank env db :
  let nbsp := String (ascii_of_nat 194) (String (ascii_of_nat 160) EmptyString) in
  Js.blank nbsp = true
  /\ Registration.handleSubmit (Registration.mkFormData nbsp "a@b" "R1") "e1" env db
     = (db, [Registration.Toast "Incomplete Information"
               "Please fill in all required fields"]).
Proof. split; reflexivity. Qed.

(** ** Tactics for the case analysis of a step *)

Ltac break_match :=
  repeat match goal with
         | |- context [match ?x with _ => _ end] => destruct x eqn:?
         end.

Ltac unfold_handlers :=
  unfold questionsLoaded, submissionInserted, fullscreenGranted, fullscreenChange,
    handleFullscreenChange, handleVisibilityChange, replayPendingAutoSubmit,
    registerListeners, scheduleAutoSubmit, tick, handleAnswerSelect, markForReview,
    saveAnswer, navigateToQuestion, submitExam, rendered, mounted, toast,
    console_error, onComplete in *.

(** ** Navigation *)

Ltac bools :=
  repeat match goal with
         | H : _ && _ = true |- _ => apply andb_true_iff in H; destruct H
         | H : _ && _ = false |- _ => apply andb_false_iff in H
         | H : negb _ = true |- _ => apply negb_true_iff in H
         | H : negb _ = false |- _ => apply negb_false_iff in H
         | H : (_ =? _) = true |- _ => apply Z.eqb_eq in H
         | H : (_ =? _) = false |- _ => apply Z.eqb_neq in H
         | H : (_ <=? _) = true |- _ => apply Z.leb_le in H
         | H : (_ <=? _) = false |- _ => apply Z.leb_gt in H
         | H : (_ <? _)%nat = true |- _ => apply Nat.ltb_lt in H
         end.

Lemma step_indexInRange p e st : indexInRange st -> indexInRange (step p e st).
Proof.
  intros (Hf & H0 & Hr).
  assert (Hcase : (questions st = [] /\ currentQuestionIndex st = 0)
                  \/ (fetching st = false /\ questions st <> []
                      /\ 0 <= currentQuestionIndex st < Z.of_nat (length (questions st)))).
  { destruct (questions st) as [|q l] eqn:Hq.
    - left. split; [reflexivity | now apply H0].
    - right. split; [|split; [discriminate | now apply Hr]].
      destruct (fetching st); [|reflexivity]. now specialize (Hf eq_refl). }
  clear Hf H0 Hr. unfold indexInRange.
  destruct Hcase as [[Hq Hi]|(Hfe & Hq & Hi)].
  - destruct e; unfold step; unfold_handlers; rewrite ?Hq, ?Hi; break_match;
      simpl in *; rewrite ?Hq, ?Hi;
      repeat split; intros; bools; subst; simpl in *; try congruence; try lia.
  - destruct e; unfold step; unfold_handlers; rewrite ?Hfe; break_match;
      simpl in *; rewrite ?Hfe;
      repeat split; intros; bools; subst; simpl in *; try congruence; try lia.
Qed.

Lemma mount_indexInRange p now : indexInRange (mount p now).
Proof.
  unfold mount, indexInRange. break_match; simpl; repeat split; intros; congruence.
Qed.

Lemma run_invariant (I : State -> Prop) p :
  (forall e st, I st -> I (step p e st)) ->
  forall evs st, I st -> I (run p evs st).
Proof.
  intros Hstep evs. unfold run.
  induction evs as [|e evs IH]; intros st Hst; simpl; [assumption|].
  apply IH, Hstep, Hst.
Qed.

(** C8.  In every session the current index stays within [0, n) once
    n > 0 questions are loaded.  A request that would leave the range is
    rejected where it is made: [navigateToQuestion] is called by the
    Previous button (disabled at 0), the Next button (disabled at n - 1)
    and the grid buttons, which carry the positions 0 .. n - 1. *)
Theorem navigation_by_the_buttons_stays_in_range p now evs :
  let st := run p evs (mount p now) in
  questions st <> [] ->
  0 <= currentQuestionIndex st < Z.of_nat (length (questions st)).
Proof.
  intros st Hq.
  assert (Hinv : indexInRange st).
  { apply run_invariant; [apply step_indexInRange | apply mount_indexInRange]. }
  now apply Hinv.
Qed.

Lemma navigation_by_the_buttons_stays_in_range_witness :
  let st := run Sample.props
              [QuestionsLoaded (Some [Sample.question "q1" "B" 1; Sample.question "q2" "C" 2]);
               ClickPrevious 10; ClickNext 20; ClickNext 30; ClickGrid 7 40]
              (mount Sample.props 0) in
  questions st <> []
  /\ 0 <= currentQuestionIndex st < Z.of_nat (length (questions st)).
Proof.
  intros st.
  assert (Hq : questions st <> []) by (vm_compute; discriminate).
  split; [exact Hq|].
  exact (navigation_by_the_buttons_stays_in_range Sample.props 0 _ Hq).
Defined.

(** ** An exam without questions *)

Ltac not_in_trace :=
  rewrite ?in_app_iff; simpl; intuition discriminate.

Lemma step_stuckLoading p e st : stuckLoading st -> stuckLoading (step p e st).
Proof.
  intros (Hp & Hq & Hf & Hc & Hs & Hl & Ht & Hn). unfold stuckLoading.
  destruct e; unfold step; unfold_handlers;
    rewrite ?Hp, ?Hq, ?Hf, ?Hc, ?Hs, ?Hl, ?Ht; simpl;
    break_match; simpl; rewrite ?Hp, ?Hq, ?Hf, ?Hc, ?Hs, ?Hl, ?Ht;
    try match goal with
        | H : nth_error [] ?k = Some _ |- _ => destruct k; discriminate H
        end;
    repeat split; try assumption; try reflexivity; try discriminate;
    try not_in_trace.
Qed.

Lemma mount_in_time p now :
  1000 <= endTime p - now ->
  mount p now =
  mkState exam [] 0 AnswerMap.empty (Z.max 0 (Js.floor_div (endTime p - now) 1000))
    false false false now None true false None [] emptyWorld.
Proof.
  intros Hlt. unfold mount.
  assert (1 <= Js.floor_div (endTime p - now) 1000).
  { unfold Js.floor_div. apply Z.div_le_lower_bound; lia. }
  destruct (Z.max 0 (Js.floor_div (endTime p - now) 1000) <=? 0) eqn:Hle; [|reflexivity].
  apply Z.leb_le in Hle. lia.
Qed.

(** C6 (the code at the failing input).  The exam has not ended at mount and
    the question source answers with an empty list: the condition is
    reported in a toast, and from then on, whatever events arrive, the
    screen stays mounted on its loading placeholder; [onComplete] is never
    called and no submission identity is ever created. *)
Theorem no_questions_stays_loading p now evs :
  1000 <= endTime p - now ->
  let st1 := step p (QuestionsLoaded (Some [])) (mount p now) in
  let st := run p evs st1 in
  In (EToast "No Questions Found" "This exam has no questions available.")
     (trace (world st1))
  /\ currentPhase st = exam
  /\ questions st = []
  /\ rendered st = false
  /\ submissionId st = None
  /\ ~ In EOnComplete (trace (world st)).
Proof.
  intros Hlt st1 st.
  assert (Hst1 : stuckLoading st1
                 /\ In (EToast "No Questions Found" "This exam has no questions available.")
                       (trace (world st1))).
  { subst st1. rewrite (mount_in_time p now Hlt). unfold stuckLoading. simpl.
    repeat split; try reflexivity; [not_in_trace | now left]. }
  destruct Hst1 as [Hstuck Htoast].
  assert (Hinv : stuckLoading st).
  { apply run_invariant; [apply step_stuckLoading | exact Hstuck]. }
  destruct Hinv as (Hp & Hq & _ & _ & Hs & _ & _ & Hn).
  repeat split; try assumption.
  unfold rendered, mounted. now rewrite Hp, Hq.
Qed.

Lemma no_questions_stays_loading_witness :
  let st := run Sample.props [Tick 1000 all_ok; ClickSubmit 2000 all_ok; FullscreenChange false]
              (step Sample.props (QuestionsLoaded (Some [])) (mount Sample.props 0)) in
  1000 <= endTime Sample.props - 0
  /\ currentPhase st = exam
  /\ questions st = []
  /\ ~ In EOnComplete (trace (world st)).
Proof.
  intros st.
  assert (Hlt : 1000 <= endTime Sample.props - 0) by (vm_compute; discriminate).
  split; [exact Hlt|].
  pose proof (no_questions_stays_loading Sample.props 0
                [Tick 1000 all_ok; ClickSubmit 2000 all_ok; FullscreenChange false] Hlt)
    as (_ & Hp & Hq & _ & _ & Hn).
  split; [exact Hp|]. split; [exact Hq | exact Hn].
Defined.

(** ** A violation before the identity exists *)

Lemma step_listenerHasIdentity p e st :
  listenerHasIdentity st -> listenerHasIdentity (step p e st).
Proof.
  intros (Hpend & Hnone & Hsome). unfold listenerHasIdentity.
  destruct (listener st) as [r|] eqn:Hl.
  - destruct (r_submissionId r) as [sid|] eqn:Hr; [|now specialize (Hsome r eq_refl)].
    destruct (submissionId st) as [sid'|] eqn:Hs; [|now specialize (Hnone eq_refl)].
    clear Hnone Hsome.
    destruct e; unfold step; unfold_handlers; rewrite ?Hl, ?Hr, ?Hs, ?Hpend; simpl;
      break_match; simpl; rewrite ?Hl, ?Hr, ?Hs, ?Hpend;
      repeat split; try assumption; try reflexivity; try discriminate;
      intros; simplify_eq; simpl; congruence.
  - clear Hnone Hsome.
    destruct e; unfold step; unfold_handlers; rewrite ?Hl, ?Hpend; simpl;
      break_match; simpl; rewrite ?Hl, ?Hpend;
      repeat split; try assumption; try reflexivity; try discriminate;
      intros; simplify_eq; simpl; congruence.
Qed.

Lemma mount_listenerHasIdentity p now : listenerHasIdentity (mount p now).
Proof.
  unfold mount, listenerHasIdentity. break_match; simpl; repeat split; intros; congruence.
Qed.

(** C5 (the code at the failing inputs).  In every session the queue flag
    [pendingAutoSubmit] is never set; and while no submission identity
    exists, a full-screen change (an exit included) is not observed at all:
    nothing is queued, no auto-submit is scheduled, nothing is reported, and
    the compliance flag keeps its value.  The listeners are registered only
    once the identity exists, so the violation is lost. *)
Theorem violation_before_identity_is_dropped p now evs isNow :
  let st := run p evs (mount p now) in
  pendingAutoSubmit st = false
  /\ match submissionId st with
     | None =>
         let st' := step p (FullscreenChange isNow) st in
         pendingAutoSubmit st' = false
         /\ timeouts st' = timeouts st
         /\ trace (world st') = trace (world st)
         /\ isFullscreen st' = isFullscreen st
     | Some _ => True
     end.
Proof.
  intros st.
  assert (Hinv : listenerHasIdentity st).
  { apply run_invariant; [apply step_listenerHasIdentity | apply mount_listenerHasIdentity]. }
  destruct Hinv as (Hpend & Hnone & _).
  split; [exact Hpend|].
  destruct (submissionId st) eqn:Hs; [exact I|].
  specialize (Hnone eq_refl).
  unfold step, fullscreenChange. simpl. rewrite Hnone. simpl. now rewrite Hpend.
Qed.

(** The same on one session: the student leaves full screen while the
    insert of the submission is still in flight; when the identity arrives
    nothing is replayed, and the timer reaching zero finalizes nothing
    either. *)
Example violation_before_identity_session :
  let st := run Sample.props
              [QuestionsLoaded (Some [Sample.question "q1" "B" 1]);
               FullscreenGranted;
               FullscreenChange false;
               SubmissionInserted (Some "s1")]
              (mount Sample.props 0) in
  submissionId st = Some "s1"
  /\ pendingAutoSubmit st = false
  /\ timeouts st = []
  /\ isFullscreen st = true
  /\ documentFullscreen (world st) = false
  /\ finalizeCount st = 0%nat.
Proof. vm_compute. repeat split; reflexivity. Qed.

(** ** Operations requested before the identity exists *)

(** C9 (the code at the failing input).  In a closure without a submission
    identity, answer selection and mark-for-review report the failure in a
    toast and leave the state as it was; [submitExam] also leaves the state
    as it was, but its only report is a line on the console: no toast is
    raised, so the user is told nothing. *)
Theorem operations_without_identity p qs ans idx t0 option autoSubmit now ok oc st :
  let r := mkRender qs ans None idx t0 in
  handleAnswerSelect r option now ok st =
    reporting [EToast "Submission Error"
                 "No submission ID available. Please refresh or contact support.";
               EConsoleError "Attempted to select answer without a submission ID"] st
  /\ markForReview r now ok st =
    reporting [EToast "Submission Error"
                 "No submission ID available. Please refresh or contact support.";
               EConsoleError "Attempted to mark for review without a submission ID"] st
  /\ submitExam p r autoSubmit now oc st =
    reporting [EConsoleError "No submission ID available"] st
  /\ List.filter isToast (trace (world (submitExam p r autoSubmit now oc st))) =
     List.filter isToast (trace (world st)).
Proof.
  intros r. subst r.
  unfold handleAnswerSelect, markForReview, submitExam, reporting, toast, console_error,
    with_world, emit. simpl.
  rewrite <- !app_assoc. simpl.
  repeat split; try reflexivity.
  rewrite List.filter_app. simpl. apply app_nil_r.
Qed.

(** The same in a session: the student presses Submit while the insert of
    the submission is still in flight. *)
Example submit_before_identity_session :
  let st := run Sample.props [QuestionsLoaded (Some [Sample.question "q1" "B" 1])]
              (mount Sample.props 0) in
  let st' := step Sample.props (ClickSubmit 1000 all_ok) st in
  rendered st = true
  /\ submissionId st = None
  /\ trace (world st') = trace (world st) ++ [EConsoleError "No submission ID available"]
  /\ currentPhase st' = exam.
Proof. vm_compute. repeat split; reflexivity. Qed.

(** ** The countdown *)

Lemma step_tick p now oc st :
  currentPhase st = exam ->
  let st' := step p (Tick now oc) st in
  currentPhase st' = exam
  /\ timeRemaining st' = (if timeRemaining st <=? 1 then 0 else timeRemaining st - 1)
  /\ expiryCount st' =
     (expiryCount st + if (timeRemaining st <=? 1)%Z then 1 else 0)%nat
  /\ finalizeCount st' = finalizeCount st.
Proof.
  intros Hp. unfold step, tick, mounted, expiryCount, finalizeCount. rewrite Hp.
  rewrite (submitExam_none p firstRender true now oc _ eq_refl).
  destruct (timeRemaining st <=? 1); simpl.
  - rewrite <- !app_assoc, !List.filter_app, !length_app. simpl.
    repeat split; try assumption; lia.
  - repeat split; try assumption; lia.
Qed.

Lemma step_tick_unmounted p now oc st :
  mounted st = false -> mounted (step p (Tick now oc) st) = false.
Proof. intros H. unfold step. now rewrite H. Qed.

Lemma run_ticks_unmounted p evs : forall st,
  forallb isTick evs = true -> mounted st = false -> mounted (run p evs st) = false.
Proof.
  unfold run. induction evs as [|e evs IH]; intros st Hall Hm; simpl; [exact Hm|].
  simpl in Hall. apply andb_true_iff in Hall. destruct Hall as [He Hall].
  destruct e; try discriminate He.
  apply IH; [exact Hall | now apply step_tick_unmounted].
Qed.

(** C3 (as amended).  The remaining time is decremented once per tick and
    stops at 0, never below.  The expiry signal has no one-shot flag: the
    countdown calls [submitExam(true)] on every tick that finds the
    remaining time at most 1.  So for as long as the exam screen stays
    mounted the signal fires on the tick that brings the remaining time to
    0 and again on each tick after it: k ticks from a remaining time t,
    with the screen still mounted after them, make
    max(0, k - max(t, 1) + 1) signals. *)
Theorem expiry_fires_on_every_tick_from_zero p evs st :
  0 <= timeRemaining st ->
  forallb isTick evs = true ->
  let st' := run p evs st in
  let k := Z.of_nat (length evs) in
  mounted st' = true ->
  timeRemaining st' = Z.max 0 (timeRemaining st - k)
  /\ expiryCount st' =
     (expiryCount st + Z.to_nat (k - Z.max (timeRemaining st) 1 + 1))%nat.
Proof.
  revert st. induction evs as [|e evs IH]; intros st Ht Hall; simpl.
  - intros _. split; lia.
  - simpl in Hall. apply andb_true_iff in Hall. destruct Hall as [He Hall].
    destruct e; try discriminate He. intros Hm.
    assert (Hp : currentPhase st = exam).
    { destruct (mounted st) eqn:Hst.
      - unfold mounted in Hst. now destruct (currentPhase st).
      - pose proof (run_ticks_unmounted p (Tick now oc :: evs) st) as Hun.
        simpl in Hun. unfold run in Hun, Hm. simpl in Hun.
        rewrite (Hun Hall Hst) in Hm. discriminate. }
    destruct (step_tick p now oc st Hp) as (_ & Ht1 & Hc1 & _).
    assert (Ht1' : 0 <= timeRemaining (step p (Tick now oc) st)).
    { rewrite Ht1. destruct (timeRemaining st <=? 1) eqn:Hle; [lia|].
      apply Z.leb_gt in Hle. lia. }
    destruct (IH _ Ht1' Hall Hm) as (Ht2 & Hc2).
    unfold run in *. rewrite Ht2, Hc2, Ht1, Hc1.
    split; destruct (timeRemaining st <=? 1) eqn:Hle;
      [apply Z.leb_le in Hle | apply Z.leb_gt in Hle
      |apply Z.leb_le in Hle | apply Z.leb_gt in Hle]; lia.
Qed.

Lemma expiry_fires_on_every_tick_from_zero_witness :
  let st := mount Sample.propsShort 0 in
  let evs := [Tick 1000 all_ok; Tick 2000 all_ok; Tick 3000 all_ok; Tick 4000 all_ok] in
  let st' := run Sample.propsShort evs st in
  0 <= timeRemaining st
  /\ forallb isTick evs = true
  /\ mounted st' = true
  /\ timeRemaining st' = 0
  /\ expiryCount st' = 3%nat.
Proof.
  intros st evs st'.
  assert (Ht : 0 <= timeRemaining st) by (vm_compute; discriminate).
  assert (Hall : forallb isTick evs = true) by reflexivity.
  assert (Hm : mounted st' = true) by reflexivity.
  split; [exact Ht|]. split; [exact Hall|]. split; [exact Hm|].
  exact (expiry_fires_on_every_tick_from_zero Sample.propsShort evs st Ht Hall Hm).
Defined.

(** C3 (counterexample).  The exam ends two seconds after the mount.  The
    second tick brings the remaining time to 0 and calls [submitExam(true)];
    the third tick finds it at 0 and calls it again. *)
Lemma expiry_fires_twice :
  let st := run Sample.propsShort
              [Tick 1000 all_ok; Tick 2000 all_ok; Tick 3000 all_ok]
              (mount Sample.propsShort 0) in
  timeRemaining st = 0 /\ expiryCount st = 2%nat /\ expiryCount st <> 1%nat.
Proof. vm_compute. repeat split; try reflexivity. discriminate. Qed.

(** ** How many finalize sequences run *)



Lemma finalizeCount_with_trace f st :
  List.filter isFinalize (trace (f (world st))) = List.filter isFinalize (trace (world st)) ->
  finalizeCount (with_world f st) = finalizeCount st.
Proof. unfold finalizeCount. simpl. now intros ->. Qed.

Ltac count_trace :=
  unfold finalizeCount, reporting, upsertResponse, emit; simpl;
  repeat (rewrite List.filter_app || rewrite length_app); simpl; try lia.





(** ** The durable answer records *)

Lemma has_set k k' v m :
  AnswerMap.has k' (AnswerMap.set k v m) = String.eqb k k' || AnswerMap.has k' m.
Proof.
  unfold AnswerMap.has.
  induction m as [|[k0 v0] m IH]; simpl.
  - now destruct (String.eqb k k').
  - destruct (String.eqb k0 k) eqn:Hk0; simpl.
    + apply String.eqb_eq in Hk0. subst k0.
      now destruct (String.eqb k k').
    + destruct (String.eqb k0 k') eqn:Hk0'; simpl.
      * now rewrite orb_true_r.
      * exact IH.
Qed.

Lemma js_index_In {A} (l : list A) i x : js_index l i = Some x -> In x l.
Proof.
  unfold js_index. destruct (i <? 0); [discriminate|]. apply nth_error_In.
Qed.

Lemma In_remove_nth {A} (x : A) k l : In x (remove_nth k l) -> In x l.
Proof.
  revert k. induction l as [|y l IH]; intros k; simpl; [now destruct k|].
  destruct k; simpl; [now right|].
  intros [->|H]; [now left | right; eauto].
Qed.

Lemma In_unansweredQuestions q qs m :
  In q (unansweredQuestions qs m) <-> In q qs /\ AnswerMap.has (qid q) m = false.
Proof.
  unfold unansweredQuestions. rewrite List.filter_In.
  now rewrite negb_true_iff.
Qed.

Lemma sweep_responses_lookup sid oc qs w key :
  (forall k, upsert_ok oc k = true) ->
  is_Some (responses (sweep sid oc qs w) !! key) <->
  is_Some (responses w !! key) \/ exists q, In q qs /\ key = (sid, qid q).
Proof.
  intros Hok. revert w. induction qs as [|q qs IH]; intros w.
  - simpl. split; [now left | intros [H|(q & [] & _)]; exact H].
  - unfold sweep in *. simpl. rewrite IH.
    unfold upsertResponse, emit. rewrite Hok. simpl.
    rewrite lookup_insert_is_Some.
    split.
    + intros [[Heq|[_ H]]|(q' & Hin & Heq)].
      * right. exists q. split; [now left | now symmetry].
      * now left.
      * right. exists q'. split; [now right | exact Heq].
    + intros [H|(q' & [->|Hin] & Heq)].
      * left. destruct (decide ((sid, qid q) = key)) as [Hd|Hd]; [now left | right; now split].
      * left. left. now symmetry.
      * right. exists q'. now split.
Qed.

Lemma durable_sameSession a b : sameSession a b -> durable a -> durable b.
Proof.
  intros (Hq & Ha & Hs & Hf & Hc & Hl & Ht & Hr & Hn).
  unfold durable, closureOf. rewrite Hq, Ha, Hs, Hf, Hc, Hl, Ht, Hr, Hn. exact id.
Qed.

Lemma sameSession_sync st : sameSession st (syncFullscreenRef st).
Proof. unfold sameSession. repeat split; reflexivity. Qed.

Lemma durable_sync st : durable st -> durable (syncFullscreenRef st).
Proof. apply durable_sameSession, sameSession_sync. Qed.

Ltac same_session :=
  unfold sameSession; repeat split; try reflexivity; count_trace.

Lemma durable_fullscreenGranted st : durable st -> durable (fullscreenGranted st).
Proof.
  apply durable_sameSession. unfold fullscreenGranted, toast.
  destruct (mounted st); same_session.
Qed.

Lemma durable_visibility hidden st :
  durable st -> durable (handleVisibilityChange hidden st).
Proof.
  apply durable_sameSession. unfold handleVisibilityChange, toast.
  destruct hidden; same_session.
Qed.

Lemma durable_tick p now oc st : durable st -> durable (tick p now oc st).
Proof.
  apply durable_sameSession. unfold tick.
  rewrite (submitExam_none p firstRender true now oc _ eq_refl).
  destruct (timeRemaining st <=? 1); same_session.
Qed.

Lemma durable_navigate index now st : durable st -> durable (navigateToQuestion index now st).
Proof. apply durable_sameSession. unfold navigateToQuestion. same_session. Qed.

Lemma durable_questionsLoaded p result st :
  fetching st = true -> durable st -> durable (questionsLoaded p result st).
Proof.
  intros Hf (Ha & Hb & Hc). destruct (Ha Hf) as (Hcr & Hs & Hq).
  rewrite Hs in Hc. destruct Hc as (Hans & Hresp & Hto & Hl & Hn).
  unfold durable, questionsLoaded, toast, console_error.
  destruct result as [[|q qs]|]; simpl; rewrite ?Hs;
    (split; [discriminate|]); (split; [try (intros; assumption); try (rewrite Hcr; discriminate)|]);
    try (repeat split; try assumption; revert Hn; count_trace).
Qed.

Lemma durable_submissionInserted p result st :
  creating st = true -> durable st -> durable (submissionInserted p result st).
Proof.
  intros Hcr (Ha & Hb & Hc). pose proof (Hb Hcr) as Hs.
  assert (Hf : fetching st = false).
  { destruct (fetching st); [|reflexivity]. destruct (Ha eq_refl) as (H & _). congruence. }
  rewrite Hs in Hc. destruct Hc as (Hans & Hresp & Hto & Hl & Hn).
  unfold durable, submissionInserted, replayPendingAutoSubmit, registerListeners,
    scheduleAutoSubmit, toast, console_error, closureOf.
  destruct result as [sid|]; simpl.
  - destruct (pendingAutoSubmit st); simpl; rewrite ?Hf, ?Hans, ?Hresp, ?Hto;
      (split; [discriminate|]); (split; [discriminate|]);
      (split; [reflexivity|]); (split; [reflexivity|]);
      (split; [discriminate|]);
      (split; [intros s k H; rewrite lookup_empty in H; now destruct H|]);
      (split; [simpl; intros r Hin; intuition (subst; simpl; auto)|]);
      (split; [intros r Hr; inversion Hr; subst; simpl; auto|]);
      intros Hcount; exfalso; apply Hcount; revert Hn; count_trace.
  - rewrite Hs, Hf. split; [discriminate|]. split; [discriminate|].
    repeat split; try assumption. revert Hn. count_trace.
Qed.

Lemma durable_fullscreenChange isNow st : durable st -> durable (fullscreenChange isNow st).
Proof.
  intros Hd. unfold fullscreenChange. simpl.
  destruct (listener st) as [r|] eqn:Hl.
  - destruct (mounted _).
    + unfold handleFullscreenChange. simpl.
      destruct (negb isNow && isFullscreenRef st).
      * destruct Hd as (Ha & Hb & Hc).
        destruct (submissionId st) as [sid|] eqn:Hs;
          [|destruct Hc as (_ & _ & _ & Hnone & _); congruence].
        destruct Hc as (Hf & Hcr & Hhas & Hdom & Hto & Hli & Hfin).
        destruct (Hli r Hl) as (Hrs & Hrq & Hra). rewrite Hrs.
        unfold durable, scheduleAutoSubmit, toast, closureOf. simpl.
        rewrite Hs, Hf, Hcr, Hl.
        split; [discriminate|]. split; [discriminate|].
        split; [reflexivity|]. split; [reflexivity|].
        split; [exact Hhas|]. split; [exact Hdom|].
        split; [intros r0 Hin; apply in_app_iff in Hin;
                destruct Hin as [Hin|[<-|[]]]; [now apply Hto | auto]|].
        split; [intros r0 Hr0; inversion Hr0; subst r0; repeat split; assumption|].
        intros Hcount. apply Hfin. revert Hcount. count_trace.
      * revert Hd. apply durable_sameSession. same_session.
    + revert Hd. apply durable_sameSession. same_session.
  - revert Hd. apply durable_sameSession. same_session.
Qed.

Lemma submitExam_hooks p r autoSubmit now oc st :
  let st' := submitExam p r autoSubmit now oc st in
  questions st' = questions st /\ answers st' = answers st
  /\ submissionId st' = submissionId st /\ fetching st' = fetching st
  /\ creating st' = creating st /\ listener st' = listener st
  /\ timeouts st' = timeouts st.
Proof.
  unfold submitExam, toast, console_error, onComplete.
  break_match; simpl; repeat split; reflexivity.
Qed.

Lemma durable_set_timeouts l st :
  (forall r, In r l -> In r (timeouts st)) -> durable st -> durable (set_timeouts l st).
Proof.
  intros Hsub (Ha & Hb & Hc). unfold durable, closureOf in *. simpl.
  split; [exact Ha|]. split; [exact Hb|].
  destruct (submissionId st) as [sid|].
  - destruct Hc as (Hf & Hcr & Hhas & Hdom & Hto & Hli & Hfin).
    split; [exact Hf|]. split; [exact Hcr|]. split; [exact Hhas|]. split; [exact Hdom|].
    split; [intros r Hin; apply Hto, Hsub, Hin|]. split; [exact Hli | exact Hfin].
  - destruct Hc as (Hans & Hresp & Hto & Hl & Hn).
    split; [exact Hans|]. split; [exact Hresp|].
    split; [|split; [exact Hl | exact Hn]].
    destruct l as [|r l]; [reflexivity|].
    specialize (Hsub r (or_introl eq_refl)). rewrite Hto in Hsub. destruct Hsub.
Qed.

Lemma durable_submitExam p r autoSubmit now oc st sid :
  (forall k, upsert_ok oc k = true) ->
  submissionId st = Some sid ->
  r_submissionId r = Some sid ->
  r_questions r = questions st ->
  (forall k, AnswerMap.has k (r_answers r) = true ->
             is_Some (responses (world st) !! (sid, k))) ->
  durable st -> durable (submitExam p r autoSubmit now oc st).
Proof.
  intros Hok Hs Hrs Hrq Hrhas (Ha & Hb & Hc).
  rewrite Hs in Hc. destruct Hc as (Hf & Hcr & Hhas & Hdom & Hto & Hli & Hfin).
  destruct (submitExam_hooks p r autoSubmit now oc st)
    as (Eq & Ea & Es & Ef & Ec & El & Et).
  unfold durable, closureOf.
  rewrite Eq, Ea, Es, Ef, Ec, El, Et, Hs, Hf, Hcr,
    (submitExam_responses p r autoSubmit now oc st sid Hrs).
  split; [discriminate|]. split; [discriminate|].
  split; [reflexivity|]. split; [reflexivity|].
  split; [|split; [|split; [exact Hto|split; [exact Hli|]]]].
  - intros k Hk. apply sweep_responses_lookup; [exact Hok|]. left. now apply Hhas.
  - intros s k Hk. apply sweep_responses_lookup in Hk; [|exact Hok].
    destruct Hk as [Hk|(q & Hin & Heq)]; [now apply Hdom|].
    inversion Heq; subst. split; [reflexivity|].
    apply In_unansweredQuestions in Hin. destruct Hin as [Hin _].
    rewrite Hrq in Hin. now apply in_map.
  - intros _ q Hin. apply sweep_responses_lookup; [exact Hok|].
    destruct (AnswerMap.has (qid q) (r_answers r)) eqn:Hh.
    + left. now apply Hrhas.
    + right. exists q. split; [|reflexivity].
      apply In_unansweredQuestions. rewrite Hrq. now split.
Qed.

Lemma durable_saveAnswer r k selected s now st sid :
  submissionId st = Some sid ->
  r_submissionId r = Some sid ->
  In k (map qid (questions st)) ->
  durable st -> durable (saveAnswer r k selected s now true st).
Proof.
  intros Hs Hrs Hk (Ha & Hb & Hc).
  rewrite Hs in Hc. destruct Hc as (Hf & Hcr & Hhas & Hdom & Hto & Hli & Hfin).
  unfold saveAnswer. rewrite Hrs.
  unfold durable, closureOf. simpl. rewrite Hs, Hf, Hcr.
  split; [discriminate|]. split; [discriminate|].
  split; [reflexivity|]. split; [reflexivity|].
  split; [|split; [|split; [exact Hto|split; [exact Hli|]]]].
  - intros k' Hk'. rewrite has_set in Hk'. apply lookup_insert_is_Some.
    destruct (String.eqb k k') eqn:Heq.
    + apply String.eqb_eq in Heq. subst k'. now left.
    + simpl in Hk'. apply String.eqb_neq in Heq. right. split; [congruence | now apply Hhas].
  - intros s' k' Hk'. apply lookup_insert_is_Some in Hk'.
    destruct Hk' as [Heq|[_ Hk']]; [|now apply Hdom].
    inversion Heq; subst. now split.
  - intros Hcount q Hin. apply lookup_insert_is_Some'. right.
    apply Hfin; [|exact Hin]. revert Hcount. count_trace.
Qed.

Lemma step_durable p e st : upsertsStored e -> durable st -> durable (step p e st).
Proof.
  intros Hok Hd. unfold step. apply durable_sync.
  destruct e; simpl in Hok.
  - destruct (mounted st && fetching st) eqn:Hg; [|exact Hd].
    apply andb_true_iff in Hg. now apply durable_questionsLoaded.
  - destruct (mounted st && creating st) eqn:Hg; [|exact Hd].
    apply andb_true_iff in Hg. now apply durable_submissionInserted.
  - now apply durable_fullscreenGranted.
  - now apply durable_fullscreenChange.
  - destruct (listener st); [|exact Hd].
    destruct (mounted st); [|exact Hd]. now apply durable_visibility.
  - destruct (mounted st); [|exact Hd]. now apply durable_tick.
  - destruct (nth_error (timeouts st) k) as [r|] eqn:Hnth; [|exact Hd].
    apply nth_error_In in Hnth.
    pose proof Hd as (_ & _ & Hc).
    destruct (submissionId st) as [sid|] eqn:Hs.
    + destruct Hc as (_ & _ & _ & _ & Hto & _).
      destruct (Hto r Hnth) as (Hrs & Hrq & Hra).
      apply (durable_submitExam p r true now oc _ sid); auto.
      * intros k0. rewrite Hra. discriminate.
      * apply durable_set_timeouts; [|exact Hd]. intros r0. apply In_remove_nth.
    + destruct Hc as (_ & _ & Hto & _). rewrite Hto in Hnth. destruct Hnth.
  - destruct (rendered st); [|exact Hd]. subst ok.
    unfold handleAnswerSelect. simpl.
    destruct (submissionId st) as [sid|] eqn:Hs.
    + destruct (js_index (questions st) (currentQuestionIndex st)) as [cq|] eqn:Hcq;
        [|exact Hd].
      apply (durable_saveAnswer _ _ _ _ _ _ sid); auto.
      apply in_map, (js_index_In _ _ _ Hcq).
    + revert Hd. apply durable_sameSession. unfold toast, console_error. same_session.
  - destruct (rendered st); [|exact Hd]. subst ok.
    unfold markForReview. simpl.
    destruct (submissionId st) as [sid|] eqn:Hs.
    + destruct (js_index (questions st) (currentQuestionIndex st)) as [cq|] eqn:Hcq;
        [|exact Hd].
      apply (durable_saveAnswer _ _ _ _ _ _ sid); auto.
      apply in_map, (js_index_In _ _ _ Hcq).
    + revert Hd. apply durable_sameSession. unfold toast, console_error. same_session.
  - destruct (_ && _); [|exact Hd]. now apply durable_navigate.
  - destruct (_ && _); [|exact Hd]. now apply durable_navigate.
  - destruct (_ && _); [|exact Hd]. now apply durable_navigate.
  - destruct (rendered st); [|exact Hd].
    destruct (submissionId st) as [sid|] eqn:Hs.
    + pose proof Hd as (_ & _ & Hc). rewrite Hs in Hc.
      destruct Hc as (_ & _ & Hhas & _).
      apply (durable_submitExam p (render_of st) false now oc st sid); auto.
    + rewrite (submitExam_none p (render_of st) false now oc st Hs).
      revert Hd. apply durable_sameSession. same_session.
Qed.

Lemma mount_durable p now : durable (mount p now).
Proof.
  unfold mount, durable.
  destruct (_ <=? 0); simpl; repeat split; intros; try reflexivity; congruence.
Qed.

Lemma run_durable p evs st :
  Forall upsertsStored evs -> durable st -> durable (run p evs st).
Proof.
  unfold run. revert st.
  induction evs as [|e evs IH]; intros st Hall Hd; simpl; [exact Hd|].
  inversion Hall; subst. apply IH; [assumption|]. now apply step_durable.
Qed.

Lemma sweep_rows_notAnswered sid oc qs w key :
  (forall k, upsert_ok oc k = true) ->
  notAnsweredAt w key \/ (exists q, In q qs /\ key = (sid, qid q)) ->
  notAnsweredAt (sweep sid oc qs w) key.
Proof.
  intros Hok. revert w. induction qs as [|q0 qs IH]; intros w Hpre.
  - destruct Hpre as [H|(q & [] & _)]. exact H.
  - unfold sweep in *. simpl. apply IH.
    unfold upsertResponse, emit, notAnsweredAt. rewrite Hok. simpl.
    destruct (decide ((sid, qid q0) = key)) as [Heq|Hne].
    + left. subst key. exists (notAnsweredRow q0). rewrite lookup_insert_eq.
      repeat split; reflexivity.
    + destruct Hpre as [(row & Hrow & Hrest)|(q & [->|Hin] & Hkey)].
      * left. exists row. rewrite lookup_insert_ne; [|exact Hne]. now split.
      * congruence.
      * right. exists q. now split.
Qed.

Lemma NoDup_question_keys (sid : string) (qs : list Question) :
  NoDup (map qid qs) -> NoDup (map (fun q => (sid, qid q)) qs).
Proof.
  induction qs as [|q qs IH]; simpl; intros Hnd; [constructor|].
  inversion Hnd as [|x l Hnotin Hnd']; subst. constructor; [|now apply IH].
  rewrite list_elem_of_In, in_map_iff. intros (q' & Heq & Hin).
  apply Hnotin. rewrite list_elem_of_In, in_map_iff. exists q'. split; [congruence | exact Hin].
Qed.

(** C4 (as amended).  In a session in which every answer upsert was stored
    and whose loaded questions have distinct identities, once a finalize
    sequence has run the number of durable answer records equals the number
    of loaded questions.  And whatever the trigger, a finalize sequence
    whose sweep upserts are stored leaves, for every question of its closure
    without an answer record there, a not-answered row: sentinel selection
    "n", zero time spent, not correct. *)
Theorem durable_answers_cover_the_questions p now evs r sid autoSubmit now' oc st0 q :
  (Forall upsertsStored evs ->
   let st := run p evs (mount p now) in
   NoDup (map qid (questions st)) ->
   finalizeCount st <> 0%nat ->
   durableAnswerCount st = length (questions st))
  /\ ((forall k, upsert_ok oc k = true) ->
      r_submissionId r = Some sid ->
      In q (r_questions r) ->
      AnswerMap.has (qid q) (r_answers r) = false ->
      notAnsweredAt (world (submitExam p r autoSubmit now' oc st0)) (sid, qid q)).
Proof.
  split.
  - intros Hall st Hnd Hfin.
    assert (Hd : durable st) by (apply run_durable; [exact Hall | apply mount_durable]).
    destruct Hd as (_ & _ & Hc).
    destruct (submissionId st) as [sid'|];
      [|destruct Hc as (_ & _ & _ & _ & Hzero); congruence].
    destruct Hc as (_ & _ & _ & Hdom & _ & _ & Hcover).
    specialize (Hcover Hfin).
    assert (Hkeys : dom (responses (world st))
                    = (list_to_set (map (fun q => (sid', qid q)) (questions st))
                       : gset (string * string))).
    { apply set_eq. intros [s k].
      rewrite elem_of_dom, elem_of_list_to_set, list_elem_of_In, in_map_iff. split.
      - intros Hsome. destruct (Hdom s k Hsome) as [-> Hin].
        apply in_map_iff in Hin. destruct Hin as (q' & <- & Hin). now exists q'.
      - intros (q' & Heq & Hin). inversion Heq; subst. now apply Hcover. }
    unfold durableAnswerCount.
    rewrite <- (size_dom (D := gset (string * string))), Hkeys, size_list_to_set.
    + apply length_map.
    + now apply NoDup_question_keys.
  - intros Hok Hid Hin Hhas. unfold notAnsweredAt.
    rewrite (submitExam_responses p r autoSubmit now' oc st0 sid Hid).
    apply sweep_rows_notAnswered; [exact Hok|].
    right. exists q. split; [|reflexivity]. now apply In_unansweredQuestions.
Qed.

Lemma durable_answers_cover_the_questions_witness :
  let qs := [Sample.question "q1" "B" 1; Sample.question "q2" "C" 2] in
  let evs := [QuestionsLoaded (Some qs);
              SubmissionInserted (Some "s1");
              ClickOption "B" 5000 true;
              ClickSubmit 6000 all_ok] in
  let st := run Sample.props evs (mount Sample.props 0) in
  let r := mkRender qs [("q1", mkAnswer "q1" "B" answered 5000)] (Some "s1") 0 0 in
  Forall upsertsStored evs
  /\ NoDup (map qid (questions st))
  /\ finalizeCount st <> 0%nat
  /\ durableAnswerCount st = length (questions st)
  /\ notAnsweredAt
       (world (submitExam Sample.props r true 6000 all_ok (mount Sample.props 0)))
       ("s1", qid (Sample.question "q2" "C" 2)).
Proof.
  intros qs evs st r.
  assert (Hall : Forall upsertsStored evs).
  { subst evs.
    constructor; [exact I|]. constructor; [exact I|].
    constructor; [reflexivity|]. constructor; [intros k; reflexivity|].
    constructor. }
  assert (Hnd : NoDup (map qid (questions st))).
  { vm_compute. repeat constructor; rewrite list_elem_of_In; simpl; intuition discriminate. }
  assert (Hfin : finalizeCount st <> 0%nat) by (vm_compute; discriminate).
  assert (Hin : In (Sample.question "q2" "C" 2) (r_questions r)) by (right; left; reflexivity).
  assert (Hhas : AnswerMap.has (qid (Sample.question "q2" "C" 2)) (r_answers r) = false)
    by reflexivity.
  pose proof (durable_answers_cover_the_questions Sample.props 0 evs r "s1" true 6000
                all_ok (mount Sample.props 0) (Sample.question "q2" "C" 2))
    as [Hcount Hrow].
  split; [exact Hall|]. split; [exact Hnd|]. split; [exact Hfin|].
  split; [exact (Hcount Hall Hnd Hfin)|].
  exact (Hrow (fun _ => eq_refl) eq_refl Hin Hhas).
Defined.

(** C4 (counterexample).  One question is loaded and answered, but the
    upsert of the answer is refused by the service (the handler logs the
    error and keeps the in-memory record).  The sweep of the following
    finalize skips the question, because it has an answer record: the
    finalized session has no durable answer record for one loaded
    question. *)
Lemma refused_upsert_leaves_a_question_without_record :
  let st := run Sample.props
              [QuestionsLoaded (Some [Sample.question "q1" "B" 1]);
               SubmissionInserted (Some "s1");
               ClickOption "B" 5000 false;
               ClickSubmit 6000 all_ok]
              (mount Sample.props 0) in
  finalizeCount st = 1%nat
  /\ length (questions st) = 1%nat
  /\ durableAnswerCount st = 0%nat
  /\ durableAnswerCount st <> length (questions st).
Proof. vm_compute. repeat split; try reflexivity. discriminate. Qed.

(** * Further properties of the code *)

(** ** The displayed clock *)

Lemma to_int_nonneg z : 0 <= z -> exists u, Z.to_int z = Decimal.Pos u.
Proof.
  destruct z as [|q|q]; intros H; simpl; eauto. lia.
Qed.

Lemma string_of_uint_digitsOnly u : digitsOnly (NilEmpty.string_of_uint u).
Proof. induction u; simpl; auto. Qed.

Lemma prepend_zero_digitsOnly n s : digitsOnly s -> digitsOnly (prepend n "0"%char s).
Proof. induction n; simpl; auto. Qed.

Lemma splitAtColon_app a b :
  digitsOnly a -> splitAtColon (String.append a (String.append ":" b)) = Some (a, b).
Proof.
  induction a as [|c a IH]; simpl; [reflexivity|].
  intros (Hc & _ & Ha). rewrite Hc, (IH Ha). reflexivity.
Qed.

Lemma int_of_digits s :
  digitsOnly s ->
  NilEmpty.int_of_string s = option_map Decimal.Pos (NilEmpty.uint_of_string s).
Proof.
  destruct s as [|c s]; simpl; [reflexivity|].
  intros (_ & Hm & _). now rewrite Hm.
Qed.

Lemma uint_of_prepend_zero n s u :
  NilEmpty.uint_of_string s = Some u ->
  exists u', NilEmpty.uint_of_string (prepend n "0"%char s) = Some u'
             /\ Z.of_uint u' = Z.of_uint u.
Proof.
  intros Hs. induction n as [|n (u' & Hu' & Heq)]; simpl.
  - now exists u.
  - exists (Decimal.D0 u'). rewrite Hu'. simpl. split; [reflexivity|exact Heq].
Qed.

Lemma readNumber_padStart z :
  0 <= z -> readNumber (padStart 2 "0"%char (numberToString z)) = Some z.
Proof.
  intros Hz. destruct (to_int_nonneg z Hz) as (u & Hu).
  unfold readNumber, padStart, numberToString. rewrite Hu. simpl NilEmpty.string_of_int.
  rewrite int_of_digits
    by apply prepend_zero_digitsOnly, string_of_uint_digitsOnly.
  destruct (uint_of_prepend_zero (2 - String.length (NilEmpty.string_of_uint u))
              (NilEmpty.string_of_uint u) u (NilEmpty.usu u)) as (u' & -> & Heq).
  simpl. f_equal.
  change (Z.of_uint u' = z). rewrite Heq.
  pose proof (DecimalZ.of_to z) as Hof. rewrite Hu in Hof. exact Hof.
Qed.

Lemma length_string_append a b :
  String.length (String.append a b) = (String.length a + String.length b)%nat.
Proof. induction a as [|c a IH]; simpl; [reflexivity | now rewrite IH]. Qed.

Lemma padStart_two_digits z :
  0 <= z < 100 -> String.length (padStart 2 "0"%char (numberToString z)) = 2%nat.
Proof.
  intros Hz. replace z with (Z.of_nat (Z.to_nat z)) by lia.
  assert (Hn : (Z.to_nat z < 100)%nat) by lia.
  remember (Z.to_nat z) as n eqn:Heqn. clear Heqn Hz z.
  do 100 (destruct n as [|n]; [vm_compute; reflexivity|]). lia.
Qed.

(** X1.  For a non-negative number of seconds, the displayed clock is the
    minutes and the seconds in decimal, each padded to two digits, around a
    colon: reading the text back gives the number of seconds, so two
    different remaining times are never displayed alike; below 100 minutes
    the text has exactly five characters. *)
Theorem formatTime_reads_back seconds seconds' :
  0 <= seconds ->
  readTime (formatTime seconds) = Some seconds
  /\ (0 <= seconds' -> formatTime seconds = formatTime seconds' -> seconds = seconds')
  /\ (seconds < 6000 -> String.length (formatTime seconds) = 5%nat).
Proof.
  assert (Hread : forall s, 0 <= s -> readTime (formatTime s) = Some s).
  { intros s Hs. unfold readTime, formatTime, Js.floor_div.
    rewrite splitAtColon_app.
    - rewrite !readNumber_padStart.
      + f_equal. rewrite Z.rem_mod_nonneg by lia.
        pose proof (Z.div_mod s 60 ltac:(lia)). lia.
      + apply Z.rem_nonneg; lia.
      + apply Z.div_pos; lia.
    - unfold padStart, numberToString.
      destruct (to_int_nonneg (s / 60) ltac:(apply Z.div_pos; lia)) as (u & ->).
      apply prepend_zero_digitsOnly, string_of_uint_digitsOnly. }
  intros Hs. split; [now apply Hread|]. split.
  - intros Hs' Heq.
    pose proof (Hread seconds Hs) as H1. pose proof (Hread seconds' Hs') as H2.
    rewrite Heq in H1. congruence.
  - intros Hlt. unfold formatTime, Js.floor_div.
    rewrite !length_string_append, !padStart_two_digits; [reflexivity| |].
    + rewrite Z.rem_mod_nonneg by lia.
      pose proof (Z.mod_pos_bound seconds 60 ltac:(lia)). lia.
    + split; [apply Z.div_pos; lia | apply Z.div_lt_upper_bound; lia].
Qed.

Lemma formatTime_reads_back_witness :
  0 <= 599
  /\ formatTime 599 = "09:59"
  /\ readTime (formatTime 599) = Some 599
  /\ String.length (formatTime 599) = 5%nat.
Proof.
  assert (H : 0 <= 599) by lia.
  pose proof (formatTime_reads_back 599 0 H) as (Hr & _ & Hl).
  split; [exact H|]. split; [reflexivity|]. split; [exact Hr|].
  apply Hl. lia.
Defined.

(** ** The countdown in a session *)

Lemma step_clock p e st :
  0 <= timeRemaining st ->
  0 <= timeRemaining (step p e st) <= timeRemaining st.
Proof.
  intros Ht. destruct e; unfold step; unfold_handlers; break_match; simpl; bools; lia.
Qed.

Lemma run_app p evs1 evs2 st : run p (evs1 ++ evs2) st = run p evs2 (run p evs1 st).
Proof. unfold run. apply fold_left_app. Qed.

Lemma run_clock p evs st :
  0 <= timeRemaining st -> 0 <= timeRemaining (run p evs st) <= timeRemaining st.
Proof.
  revert st. induction evs as [|e evs IH]; intros st Ht; simpl; [lia|].
  pose proof (step_clock p e st Ht) as Hs.
  pose proof (IH (step p e st) ltac:(lia)) as Hr. unfold run in *. lia.
Qed.

Lemma mount_clock p now :
  0 <= timeRemaining (mount p now) <= Z.max 0 (Js.floor_div (endTime p - now) 1000).
Proof.
  unfold mount. destruct (_ <=? 0) eqn:Hle; simpl; bools; lia.
Qed.

(** X2.  Over a whole session the remaining time never goes below 0, never
    exceeds the time that was left at mount, and never increases from one
    event to a later one. *)
Theorem remaining_time_is_bounded_and_monotone p now evs1 evs2 :
  let st1 := run p evs1 (mount p now) in
  let st2 := run p (evs1 ++ evs2) (mount p now) in
  0 <= timeRemaining st2
  /\ timeRemaining st2 <= timeRemaining st1
  /\ timeRemaining st1 <= Z.max 0 (Js.floor_div (endTime p - now) 1000).
Proof.
  intros st1 st2. subst st1 st2. rewrite run_app.
  pose proof (mount_clock p now) as Hm.
  pose proof (run_clock p evs1 (mount p now) ltac:(lia)) as H1.
  pose proof (run_clock p evs2 (run p evs1 (mount p now)) ltac:(lia)) as H2.
  lia.
Qed.

(** ** The shape of the answer store *)

Lemma In_set k v m k' a' :
  In (k', a') (AnswerMap.set k v m) -> (k', a') = (k, v) \/ In (k', a') m.
Proof.
  induction m as [|[k0 v0] m IH]; simpl.
  - intros [H|[]]. left. now symmetry.
  - destruct (String.eqb k0 k); simpl.
    + intros [H|H]; [left; now symmetry | right; now right].
    + intros [H|H]; [right; now left|].
      destruct (IH H) as [Heq|Hin]; [now left | right; now right].
Qed.

Lemma keys_set_elem k v m x :
  x ∈ AnswerMap.keys (AnswerMap.set k v m) -> x = k \/ x ∈ AnswerMap.keys m.
Proof.
  unfold AnswerMap.keys. rewrite !list_elem_of_In, !in_map_iff.
  intros ([k' a'] & <- & Hin). destruct (In_set _ _ _ _ _ Hin) as [Heq|Hin'].
  - inversion Heq. now left.
  - right. now exists (k', a').
Qed.

Lemma keys_set_NoDup k v m :
  NoDup (AnswerMap.keys m) -> NoDup (AnswerMap.keys (AnswerMap.set k v m)).
Proof.
  induction m as [|[k0 v0] m IH]; simpl; intros Hnd.
  - constructor; [apply not_elem_of_nil | constructor].
  - inversion Hnd as [|x l Hnotin Hnd']; subst.
    destruct (String.eqb k0 k) eqn:Heq; simpl.
    + apply String.eqb_eq in Heq. subst k0. now constructor.
    + apply String.eqb_neq in Heq. constructor; [|now apply IH].
      intros Hin. apply keys_set_elem in Hin. destruct Hin as [->|Hin]; [congruence|].
      now apply Hnotin.
Qed.

Lemma get_set_eq k v m : AnswerMap.get k (AnswerMap.set k v m) = Some v.
Proof.
  induction m as [|[k0 v0] m IH]; simpl.
  - now rewrite String.eqb_refl.
  - destruct (String.eqb k0 k) eqn:Heq; simpl.
    + now rewrite String.eqb_refl.
    + now rewrite Heq.
Qed.

Lemma get_set_ne k k' v m :
  k <> k' -> AnswerMap.get k' (AnswerMap.set k v m) = AnswerMap.get k' m.
Proof.
  intros Hne. induction m as [|[k0 v0] m IH]; simpl.
  - apply String.eqb_neq in Hne. now rewrite Hne.
  - destruct (String.eqb k0 k) eqn:Heq; simpl.
    + apply String.eqb_eq in Heq. subst k0.
      apply String.eqb_neq in Hne. now rewrite Hne.
    + now rewrite IH.
Qed.

Lemma length_set k v m :
  length (AnswerMap.set k v m) =
  (if AnswerMap.has k m then length m else S (length m)).
Proof.
  unfold AnswerMap.has. induction m as [|[k0 v0] m IH]; simpl; [reflexivity|].
  destruct (String.eqb k0 k); simpl; [reflexivity|].
  rewrite IH. now destruct (AnswerMap.get k m).
Qed.

Lemma sameSession_sameHooks a b : sameSession a b -> sameHooks a b.
Proof. unfold sameSession, sameHooks. intuition. Qed.

Lemma wf_sameHooks a b : sameHooks a b -> sessionWf a -> sessionWf b.
Proof.
  intros (Hq & Ha & Hs & Hf & Hc & Hl & Ht).
  unfold sessionWf, closureOf. rewrite Hq, Ha, Hs, Hf, Hc, Hl, Ht. exact id.
Qed.

Lemma wf_sameSession a b : sameSession a b -> sessionWf a -> sessionWf b.
Proof. intros H. apply wf_sameHooks, sameSession_sameHooks, H. Qed.

Lemma wf_questionsLoaded p result st :
  fetching st = true -> sessionWf st -> sessionWf (questionsLoaded p result st).
Proof.
  intros Hf (Ha & Hb & Hnd & Hrec & Hc). destruct (Ha Hf) as (Hcr & Hs & Hq).
  rewrite Hs in Hc. destruct Hc as (Hans & Hto & Hl).
  unfold sessionWf, questionsLoaded, toast, console_error.
  destruct result as [[|q qs]|]; simpl; rewrite ?Hs, ?Hans;
    (split; [discriminate|]);
    (split; [intros; reflexivity|]);
    (split; [apply NoDup_nil_2|]);
    (split; [intros k a Hin; destruct Hin|]);
    repeat split; assumption.
Qed.

Lemma wf_submissionInserted p result st :
  creating st = true -> sessionWf st -> sessionWf (submissionInserted p result st).
Proof.
  intros Hcr (Ha & Hb & Hnd & Hrec & Hc). pose proof (Hb Hcr) as Hs.
  assert (Hf : fetching st = false).
  { destruct (fetching st); [|reflexivity]. destruct (Ha eq_refl) as (H & _). congruence. }
  rewrite Hs in Hc. destruct Hc as (Hans & Hto & Hl).
  unfold sessionWf, submissionInserted, replayPendingAutoSubmit, registerListeners,
    scheduleAutoSubmit, toast, console_error, closureOf.
  destruct result as [sid|]; simpl.
  - destruct (pendingAutoSubmit st); simpl; rewrite ?Hf, ?Hans, ?Hto;
      (split; [discriminate|]); (split; [discriminate|]);
      (split; [apply NoDup_nil_2|]); (split; [intros k a Hin; destruct Hin|]);
      (split; [reflexivity|]); (split; [reflexivity|]);
      (split; [simpl; intros r Hin; intuition (subst; simpl; auto)|]);
      intros r Hr; inversion Hr; subst; simpl; auto.
  - rewrite Hs, Hf, Hans. split; [discriminate|]. split; [discriminate|].
    split; [apply NoDup_nil_2|]. split; [intros k a Hin; destruct Hin|]. repeat split; assumption.
Qed.

Lemma wf_fullscreenChange isNow st : sessionWf st -> sessionWf (fullscreenChange isNow st).
Proof.
  intros Hd. unfold fullscreenChange. simpl.
  destruct (listener st) as [r|] eqn:Hl.
  - destruct (mounted _).
    + unfold handleFullscreenChange. simpl.
      destruct (negb isNow && isFullscreenRef st).
      * destruct Hd as (Ha & Hb & Hnd & Hrec & Hc).
        destruct (submissionId st) as [sid|] eqn:Hs;
          [|destruct Hc as (_ & _ & Hnone); congruence].
        destruct Hc as (Hf & Hcr & Hto & Hli).
        destruct (Hli r Hl) as (Hrs & Hrq & Hra). rewrite Hrs.
        unfold sessionWf, scheduleAutoSubmit, toast, closureOf. simpl.
        rewrite Hs, Hf, Hcr, Hl.
        split; [discriminate|]. split; [discriminate|].
        split; [exact Hnd|]. split; [exact Hrec|].
        split; [reflexivity|]. split; [reflexivity|].
        split; [intros r0 Hin; apply in_app_iff in Hin;
                destruct Hin as [Hin|[<-|[]]]; [now apply Hto | auto]|].
        intros r0 Hr0; inversion Hr0; subst r0; repeat split; assumption.
      * revert Hd. apply wf_sameSession. same_session.
    + revert Hd. apply wf_sameSession. same_session.
  - revert Hd. apply wf_sameSession. same_session.
Qed.

Lemma wf_set_timeouts l st :
  (forall r, In r l -> In r (timeouts st)) -> sessionWf st -> sessionWf (set_timeouts l st).
Proof.
  intros Hsub (Ha & Hb & Hnd & Hrec & Hc). unfold sessionWf, closureOf in *. simpl.
  split; [exact Ha|]. split; [exact Hb|]. split; [exact Hnd|]. split; [exact Hrec|].
  destruct (submissionId st) as [sid|].
  - destruct Hc as (Hf & Hcr & Hto & Hli).
    split; [exact Hf|]. split; [exact Hcr|].
    split; [intros r Hin; apply Hto, Hsub, Hin | exact Hli].
  - destruct Hc as (Hans & Hto & Hl).
    split; [exact Hans|]. split; [|exact Hl].
    destruct l as [|r l]; [reflexivity|].
    specialize (Hsub r (or_introl eq_refl)). rewrite Hto in Hsub. destruct Hsub.
Qed.

Lemma wf_submitExam p r autoSubmit now oc st :
  sessionWf st -> sessionWf (submitExam p r autoSubmit now oc st).
Proof.
  apply wf_sameHooks. unfold sameHooks.
  destruct (submitExam_hooks p r autoSubmit now oc st) as (H1 & H2 & H3 & H4 & H5 & H6 & H7).
  repeat split; assumption.
Qed.

Lemma wf_saveAnswer r k selected s now ok st sid :
  submissionId st = Some sid ->
  r_submissionId r = Some sid ->
  In k (map qid (questions st)) ->
  s <> not_answered ->
  sessionWf st -> sessionWf (saveAnswer r k selected s now ok st).
Proof.
  intros Hs Hrs Hk Hst (Ha & Hb & Hnd & Hrec & Hc).
  rewrite Hs in Hc. destruct Hc as (Hf & Hcr & Hto & Hli).
  unfold saveAnswer. rewrite Hrs.
  unfold sessionWf, closureOf, console_error.
  destruct ok; simpl; rewrite Hs, Hf, Hcr;
    (split; [discriminate|]); (split; [discriminate|]);
    (split; [now apply keys_set_NoDup|]);
    (split; [intros k' a' Hin; apply In_set in Hin;
             destruct Hin as [Heq|Hin]; [inversion Heq; subst; simpl; auto | now apply Hrec]|]);
    repeat split; try assumption; try (apply Hto; assumption); try (apply Hli; assumption).
Qed.

Lemma step_sessionWf p e st : sessionWf st -> sessionWf (step p e st).
Proof.
  intros Hd. unfold step. apply (wf_sameSession _ _ (sameSession_sync _)).
  destruct e.
  - destruct (mounted st && fetching st) eqn:Hg; [|exact Hd].
    apply andb_true_iff in Hg. now apply wf_questionsLoaded.
  - destruct (mounted st && creating st) eqn:Hg; [|exact Hd].
    apply andb_true_iff in Hg. now apply wf_submissionInserted.
  - revert Hd. apply wf_sameSession. unfold fullscreenGranted, toast.
    destruct (mounted st); same_session.
  - now apply wf_fullscreenChange.
  - destruct (listener st); [|exact Hd].
    destruct (mounted st); [|exact Hd].
    revert Hd. apply wf_sameSession. unfold handleVisibilityChange, toast.
    destruct hidden; same_session.
  - destruct (mounted st); [|exact Hd].
    revert Hd. apply wf_sameSession. unfold tick.
    rewrite (submitExam_none p firstRender true now oc _ eq_refl).
    destruct (timeRemaining st <=? 1); same_session.
  - destruct (nth_error (timeouts st) k) as [r|] eqn:Hnth; [|exact Hd].
    apply wf_submitExam, wf_set_timeouts; [|exact Hd]. intros r0. apply In_remove_nth.
  - destruct (rendered st); [|exact Hd].
    unfold handleAnswerSelect. simpl.
    destruct (submissionId st) as [sid|] eqn:Hs.
    + destruct (js_index (questions st) (currentQuestionIndex st)) as [cq|] eqn:Hcq;
        [|exact Hd].
      apply (wf_saveAnswer _ _ _ _ _ _ _ sid);
        [exact Hs | exact Hs | apply in_map, (js_index_In _ _ _ Hcq)
        | discriminate | exact Hd].
    + revert Hd. apply wf_sameSession. unfold toast, console_error. same_session.
  - destruct (rendered st); [|exact Hd].
    unfold markForReview. simpl.
    destruct (submissionId st) as [sid|] eqn:Hs.
    + destruct (js_index (questions st) (currentQuestionIndex st)) as [cq|] eqn:Hcq;
        [|exact Hd].
      apply (wf_saveAnswer _ _ _ _ _ _ _ sid);
        [exact Hs | exact Hs | apply in_map, (js_index_In _ _ _ Hcq)
        | discriminate | exact Hd].
    + revert Hd. apply wf_sameSession. unfold toast, console_error. same_session.
  - destruct (_ && _); [|exact Hd].
    revert Hd. apply wf_sameSession. unfold navigateToQuestion. same_session.
  - destruct (_ && _); [|exact Hd].
    revert Hd. apply wf_sameSession. unfold navigateToQuestion. same_session.
  - destruct (_ && _); [|exact Hd].
    revert Hd. apply wf_sameSession. unfold navigateToQuestion. same_session.
  - destruct (rendered st); [|exact Hd]. now apply wf_submitExam.
Qed.

Lemma mount_sessionWf p now : sessionWf (mount p now).
Proof.
  unfold mount, sessionWf.
  destruct (_ <=? 0); simpl; repeat split; intros; try reflexivity;
    try apply NoDup_nil_2; try congruence; try contradiction.
Qed.

Lemma reachable_sessionWf p now evs : sessionWf (run p evs (mount p now)).
Proof. apply run_invariant; [apply step_sessionWf | apply mount_sessionWf]. Qed.

(** ** The progress summary and the question grid *)

Lemma get_In k a m : AnswerMap.get k m = Some a -> In (k, a) m.
Proof.
  induction m as [|[k0 v0] m IH]; simpl; [discriminate|].
  destruct (String.eqb k0 k) eqn:Heq.
  - apply String.eqb_eq in Heq. intros [= ->]. left. now subst.
  - intros H. right. now apply IH.
Qed.

Lemma In_get k a m : NoDup (AnswerMap.keys m) -> In (k, a) m -> AnswerMap.get k m = Some a.
Proof.
  induction m as [|[k0 v0] m IH]; simpl; intros Hnd; [intros []|].
  inversion Hnd as [|x l Hnotin Hnd']; subst.
  intros [Heq|Hin].
  - inversion Heq; subst. now rewrite String.eqb_refl.
  - destruct (String.eqb k0 k) eqn:Heq; [|now apply IH].
    apply String.eqb_eq in Heq. subst k0. exfalso. apply Hnotin.
    unfold AnswerMap.keys. rewrite list_elem_of_In, in_map_iff. now exists (k, a).
Qed.

Lemma NoDup_map_filter {A B} (f : A -> B) (g : A -> bool) (l : list A) :
  NoDup (map f l) -> NoDup (map f (List.filter g l)).
Proof.
  induction l as [|x l IH]; simpl; intros Hnd; [exact Hnd|].
  inversion Hnd as [|y l' Hnotin Hnd']; subst.
  destruct (g x); simpl; [|now apply IH].
  constructor; [|now apply IH].
  rewrite list_elem_of_In, in_map_iff. intros (x' & Heq & Hin).
  apply Hnotin. rewrite list_elem_of_In, in_map_iff. exists x'. split; [exact Heq|].
  apply List.filter_In in Hin. tauto.
Qed.

(** The status a grid button shows for a question, tested by [f]. *)
Lemma records_match_grid (f : Status -> bool) (qs : list Question) (m : AnswerMap.t) :
  NoDup (map qid qs) ->
  NoDup (AnswerMap.keys m) ->
  (forall k a, In (k, a) m -> In k (map qid qs)) ->
  length (List.filter (fun a => f (status a)) (AnswerMap.values m)) =
  length (List.filter (fun q => match AnswerMap.get (qid q) m with
                               | Some a => f (status a)
                               | None => false
                               end) qs).
Proof.
  intros Hq Hk Hsub.
  set (g := fun q : Question => match AnswerMap.get (qid q) m with
                                 | Some a => f (status a)
                                 | None => false
                                 end).
  assert (Hvals : length (List.filter (fun a => f (status a)) (AnswerMap.values m)) =
                  length (map fst (List.filter (fun ka => f (status (snd ka))) m))).
  { rewrite length_map. unfold AnswerMap.values.
    clear. induction m as [|[k a] m IH]; simpl; [reflexivity|].
    destruct (f (status a)); simpl; now rewrite IH. }
  rewrite Hvals, <- (length_map qid (List.filter g qs)).
  apply Permutation_length, NoDup_Permutation.
  - now apply NoDup_map_filter.
  - now apply NoDup_map_filter.
  - intros k. rewrite !list_elem_of_In, !in_map_iff. split.
    + intros ([k' a] & Hfst & Hin). simpl in Hfst. subst k'.
      apply List.filter_In in Hin. destruct Hin as [Hin Hf]. simpl in Hf.
      pose proof (Hsub k a Hin) as Hkq. apply in_map_iff in Hkq.
      destruct Hkq as (q & Hqk & Hqin). exists q. split; [exact Hqk|].
      apply List.filter_In. split; [exact Hqin|].
      unfold g. rewrite Hqk, (In_get k a m Hk Hin). exact Hf.
    + intros (q & Hqk & Hin). apply List.filter_In in Hin. destruct Hin as [Hqin Hg].
      unfold g in Hg. destruct (AnswerMap.get (qid q) m) as [a|] eqn:Hget; [|discriminate].
      exists (qid q, a). split; [exact Hqk|].
      apply List.filter_In. split; [now apply get_In | exact Hg].
Qed.

Lemma status_partition (qs : list Question) (m : AnswerMap.t) :
  (length (List.filter (fun q => status_eqb (getQuestionStatus m (qid q)) answered) qs)
   + length (List.filter (fun q => status_eqb (getQuestionStatus m (qid q)) marked_for_review) qs)
   + length (List.filter (fun q => status_eqb (getQuestionStatus m (qid q)) not_answered) qs)
   = length qs)%nat.
Proof.
  induction qs as [|q qs IH]; simpl; [reflexivity|].
  destruct (getQuestionStatus m (qid q)); simpl; lia.
Qed.

(** X4.  In every session whose loaded questions have distinct identities,
    the three numbers of the progress summary are the numbers of grid
    buttons shown as answered, as marked for review and as not answered;
    none of them is negative, and together they count every loaded question
    once. *)
Theorem progress_summary_matches_the_grid p now evs :
  let st := run p evs (mount p now) in
  let counts := getStatusCounts (questions st) (answers st) in
  let shown s := Z.of_nat (length (List.filter
                    (fun q => status_eqb (getQuestionStatus (answers st) (qid q)) s)
                    (questions st))) in
  NoDup (map qid (questions st)) ->
  count_answered counts = shown answered
  /\ count_markedForReview counts = shown marked_for_review
  /\ count_notAnswered counts = shown not_answered
  /\ 0 <= count_notAnswered counts
  /\ count_answered counts + count_markedForReview counts + count_notAnswered counts
     = Z.of_nat (length (questions st)).
Proof.
  intros st counts shown Hq.
  destruct (reachable_sessionWf p now evs) as (_ & _ & Hk & Hrec & _).
  fold st in Hk, Hrec.
  assert (Hsub : forall k a, In (k, a) (answers st) -> In k (map qid (questions st)))
    by (intros k a Hin; now apply (Hrec k a Hin)).
  assert (Hgrid : forall s, s <> not_answered ->
            Z.of_nat (length (List.filter (fun a => status_eqb (status a) s)
                                (AnswerMap.values (answers st)))) = shown s).
  { intros s Hs. unfold shown.
    rewrite (records_match_grid (fun x => status_eqb x s) _ _ Hq Hk Hsub).
    do 2 f_equal. apply List.filter_ext. intros q. unfold getQuestionStatus.
    destruct (AnswerMap.get (qid q) (answers st)); [reflexivity|].
    now destruct s. }
  pose proof (Hgrid answered ltac:(discriminate)) as Ha.
  pose proof (Hgrid marked_for_review ltac:(discriminate)) as Hm.
  pose proof (status_partition (questions st) (answers st)) as Hpart.
  unfold counts, getStatusCounts. simpl. rewrite Ha, Hm. unfold shown in *.
  repeat split; lia.
Qed.

(** ** The score a finalize would commit *)

Lemma length_filter_le {A} (f : A -> bool) (l : list A) :
  (length (List.filter f l) <= length l)%nat.
Proof. induction l as [|x l IH]; simpl; [lia|]. destruct (f x); simpl; lia. Qed.

Lemma length_filter_mono {A} (f g : A -> bool) (l : list A) :
  (forall x, f x = true -> g x = true) ->
  (length (List.filter f l) <= length (List.filter g l))%nat.
Proof.
  intros Hfg. induction l as [|x l IH]; simpl; [lia|].
  destruct (f x) eqn:Hf; [rewrite (Hfg x Hf); simpl; lia|].
  destruct (g x); simpl; lia.
Qed.

(** X5.  The score computed from the answer store is never negative and
    never more than the number of records with status answered (a record
    marked for review does not count, even with the right selection); in a
    session it is therefore at most the number of loaded questions. *)
Theorem score_is_bounded p now evs :
  let st := run p evs (mount p now) in
  let score := totalScore (questions st) (answers st) in
  0 <= score
  /\ score <= count_answered (getStatusCounts (questions st) (answers st))
  /\ score <= Z.of_nat (length (questions st)).
Proof.
  intros st score. subst score.
  destruct (reachable_sessionWf p now evs) as (_ & _ & Hk & Hrec & _).
  fold st in Hk, Hrec.
  assert (Hle : (length (answers st) <= length (questions st))%nat).
  { rewrite <- (length_map fst (answers st)), <- (length_map qid (questions st)).
    apply submseteq_length, NoDup_submseteq; [exact Hk|].
    intros k Hin. apply list_elem_of_In, in_map_iff in Hin.
    destruct Hin as ([k' a] & <- & Hin). apply list_elem_of_In. now apply (Hrec k' a Hin). }
  rewrite totalScore_counts. unfold getStatusCounts. simpl.
  match goal with
  | |- context [List.filter ?f (AnswerMap.values (answers st))] =>
      pose proof (length_filter_mono f (fun a => status_eqb (status a) answered)
                    (AnswerMap.values (answers st))) as Hmono
  end.
  assert (Hm : (length (List.filter
                  (fun a => Js.truthy (selectedAnswer a) && status_eqb (status a) answered &&
                            match findQuestion (questions st) (questionId a) with
                            | Some q => String.eqb (selectedAnswer a) (correctAnswer q)
                            | None => false
                            end) (AnswerMap.values (answers st)))
                <= length (List.filter (fun a => status_eqb (status a) answered)
                             (AnswerMap.values (answers st))))%nat).
  { apply length_filter_mono. intros a Ha.
    apply andb_true_iff in Ha. destruct Ha as [Ha _].
    apply andb_true_iff in Ha. tauto. }
  pose proof (length_filter_le (fun a => status_eqb (status a) answered)
                (AnswerMap.values (answers st))) as Hv.
  unfold AnswerMap.values in Hv at 2. rewrite length_map in Hv.
  repeat split; lia.
Qed.

(** ** The identity and the submission row *)

Lemma step_stable p e st sid :
  sessionWf st ->
  (submissionId st = Some sid -> submissionId (step p e st) = Some sid)
  /\ (questions st <> [] -> questions (step p e st) = questions st).
Proof.
  intros (Ha & Hb & _ & _ & Hc).
  assert (Hflags : (submissionId st = Some sid -> creating st = false)
                   /\ (questions st <> [] -> fetching st = false)).
  { split.
    - intros Hs. destruct (creating st); [|reflexivity]. rewrite (Hb eq_refl) in Hs. discriminate.
    - intros Hq. destruct (fetching st); [|reflexivity]. now destruct (Ha eq_refl) as (_ & _ & ?). }
  destruct Hflags as [Hcr Hfe].
  split; intros H; [specialize (Hcr H); clear Hfe | specialize (Hfe H); clear Hcr];
    destruct e; unfold step; unfold_handlers;
    rewrite ?Hcr, ?Hfe, ?andb_false_r; simpl;
    break_match; simpl; try assumption; try reflexivity; try congruence.
Qed.

Lemma oneSubmission_submitExam p r autoSubmit now oc st :
  oneSubmission p st -> oneSubmission p (submitExam p r autoSubmit now oc st).
Proof.
  intros (Hcq & Hone).
  destruct (submitExam_hooks p r autoSubmit now oc st) as (Eq & _ & Es & _ & Ec & _ & _).
  unfold oneSubmission. rewrite Eq, Es, Ec. split; [exact Hcq|].
  destruct (r_submissionId r) as [sid'|] eqn:Hid.
  - rewrite (submitExam_submissions p r autoSubmit now oc st sid' Hid).
    unfold finalizedWorld, updateSubmission, emit.
    destruct (submissionId st) as [sid|].
    + destruct Hone as (Hq & row & Hrow & Htot & Hex). split; [exact Hq|].
      destruct (update_ok oc); simpl; rewrite sweep_submissions, Hrow.
      * rewrite alter_singleton. destruct (decide (sid' = sid)) as [->|Hne].
        -- eexists. split; [reflexivity|]. simpl. now split.
        -- exists row. now split.
      * exists row. now split.
    + destruct (update_ok oc); simpl; rewrite sweep_submissions, Hone;
        [apply alter_empty | reflexivity].
  - rewrite (submitExam_none p r autoSubmit now oc st Hid). exact Hone.
Qed.

Lemma step_oneSubmission p e st :
  sessionWf st -> oneSubmission p st -> oneSubmission p (step p e st).
Proof.
  intros (Ha & Hb & _ & _ & _) Hone. unfold step.
  assert (Hsync : forall s, oneSubmission p s -> oneSubmission p (syncFullscreenRef s))
    by (intros s H; exact H).
  apply Hsync. clear Hsync.
  destruct e.
  - destruct (mounted st && fetching st) eqn:Hg; [|exact Hone].
    apply andb_true_iff in Hg. destruct Hg as [_ Hf].
    destruct (Ha Hf) as (Hcr & Hs & Hq). destruct Hone as (Hcq & Hone).
    rewrite Hs in Hone.
    unfold oneSubmission, questionsLoaded, toast, console_error.
    destruct result as [[|q qs]|]; simpl; rewrite ?Hs, ?Hcr;
      (split; [try discriminate; intros _; discriminate | exact Hone]).
  - destruct (mounted st && creating st) eqn:Hg; [|exact Hone].
    apply andb_true_iff in Hg. destruct Hg as [_ Hcr].
    pose proof (Hb Hcr) as Hs. destruct Hone as (Hcq & Hone). rewrite Hs in Hone.
    specialize (Hcq Hcr).
    unfold oneSubmission, submissionInserted, replayPendingAutoSubmit, registerListeners,
      scheduleAutoSubmit, toast, console_error.
    destruct result as [sid|]; simpl.
    + destruct (pendingAutoSubmit st); simpl;
        (split; [discriminate|]); (split; [exact Hcq|]);
        rewrite Hone, insert_empty; eexists; (split; [reflexivity|]); simpl; now split.
    + rewrite Hs. split; [discriminate | exact Hone].
  - unfold fullscreenGranted, toast. destruct (mounted st); exact Hone.
  - unfold fullscreenChange, handleFullscreenChange, scheduleAutoSubmit, toast. simpl.
    break_match; exact Hone.
  - unfold handleVisibilityChange, toast. break_match; exact Hone.
  - destruct (mounted st); [|exact Hone]. unfold tick.
    destruct (timeRemaining st <=? 1); [|exact Hone].
    rewrite (submitExam_none p firstRender true now oc _ eq_refl). exact Hone.
  - destruct (nth_error (timeouts st) k) as [r|]; [|exact Hone].
    now apply oneSubmission_submitExam.
  - unfold handleAnswerSelect, saveAnswer, toast, console_error. simpl.
    break_match; exact Hone.
  - unfold markForReview, saveAnswer, toast, console_error. simpl.
    break_match; exact Hone.
  - unfold navigateToQuestion. break_match; exact Hone.
  - unfold navigateToQuestion. break_match; exact Hone.
  - unfold navigateToQuestion. break_match; exact Hone.
  - destruct (rendered st); [|exact Hone]. now apply oneSubmission_submitExam.
Qed.

Lemma mount_oneSubmission p now : oneSubmission p (mount p now).
Proof.
  unfold mount, oneSubmission. destruct (_ <=? 0); simpl; split; try reflexivity; discriminate.
Qed.

Lemma reachable_wf_oneSubmission p now evs :
  sessionWf (run p evs (mount p now)) /\ oneSubmission p (run p evs (mount p now)).
Proof.
  apply (run_invariant (fun st => sessionWf st /\ oneSubmission p st)).
  - intros e st [Hwf Hone]. split; [now apply step_sessionWf | now apply step_oneSubmission].
  - split; [apply mount_sessionWf | apply mount_oneSubmission].
Qed.

Lemma run_stable p evs st sid :
  sessionWf st ->
  (submissionId st = Some sid -> submissionId (run p evs st) = Some sid)
  /\ (questions st <> [] -> questions (run p evs st) = questions st).
Proof.
  revert st. unfold run. induction evs as [|e evs IH]; intros st Hwf; simpl; [tauto|].
  destruct (step_stable p e st sid Hwf) as [Hs Hq].
  destruct (IH (step p e st) (step_sessionWf p e st Hwf)) as [Hs' Hq'].
  split.
  - intros H. apply Hs', Hs, H.
  - intros H. rewrite Hq'; [now apply Hq|]. now rewrite (Hq H).
Qed.

(** X3.  A session creates its submission once: after the insert has
    returned, the submissions table holds exactly the row of that identity,
    counting the loaded questions of this exam; from then on the identity
    and the loaded questions stay what they are, whatever events follow. *)
Theorem one_submission_with_a_stable_identity p now evs1 evs2 sid :
  let st1 := run p evs1 (mount p now) in
  let st2 := run p (evs1 ++ evs2) (mount p now) in
  submissionId st1 = Some sid ->
  submissionId st2 = Some sid
  /\ questions st2 = questions st1
  /\ questions st1 <> []
  /\ exists row, submissions (world st2) = {[sid := row]}
                 /\ total_questions row = Z.of_nat (length (questions st1))
                 /\ sub_exam_id row = exam_id p.
Proof.
  intros st1 st2 Hs. subst st2. rewrite run_app. fold st1.
  destruct (reachable_wf_oneSubmission p now evs1) as [Hwf1 (_ & Hone1)].
  fold st1 in Hwf1, Hone1. rewrite Hs in Hone1. destruct Hone1 as (Hq1 & _).
  destruct (run_stable p evs2 st1 sid Hwf1) as [Hs2 Hq2].
  specialize (Hs2 Hs). specialize (Hq2 Hq1).
  destruct (reachable_wf_oneSubmission p now (evs1 ++ evs2)) as [_ (_ & Hone2)].
  rewrite run_app in Hone2. fold st1 in Hone2. rewrite Hs2 in Hone2.
  destruct Hone2 as (_ & row & Hrow & Htot & Hex).
  split; [exact Hs2|]. split; [exact Hq2|]. split; [exact Hq1|].
  exists row. rewrite <- Hq2. now split.
Qed.

(** ** What a finalize sequence leaves *)

Lemma submitExam_phase p r autoSubmit now oc st sid :
  r_submissionId r = Some sid ->
  currentPhase (submitExam p r autoSubmit now oc st) =
    (if update_ok oc then completed else currentPhase st)
  /\ documentFullscreen (world (submitExam p r autoSubmit now oc st)) =
    (if update_ok oc then false else documentFullscreen (world st)).
Proof.
  intros Hid. unfold submitExam. rewrite Hid.
  unfold toast, console_error, onComplete, updateSubmission, emit.
  destruct (update_ok oc); simpl; rewrite ?sweep_documentFullscreen.
  - destruct (documentFullscreen (world st)) eqn:Hdoc; simpl;
      rewrite ?sweep_documentFullscreen, ?Hdoc; split; reflexivity.
  - split; reflexivity.
Qed.

(** X7.  A finalize sequence ends in one of two ways.  When the update of
    the submission succeeds, the screen is handed back ([onComplete]), full
    screen is left, and the row holds the committed score, minutes and
    submitted-at.  When the update is refused, the failure is shown in a
    toast, the screen stays in the phase it was in and the submission row is
    untouched, so that Submit can be pressed again. *)
Theorem finalize_completes_or_asks_to_retry p r autoSubmit now oc st sid row :
  r_submissionId r = Some sid ->
  submissions (world st) !! sid = Some row ->
  let st' := submitExam p r autoSubmit now oc st in
  (update_ok oc = true ->
   currentPhase st' = completed
   /\ documentFullscreen (world st') = false
   /\ In EOnComplete (trace (world st'))
   /\ submissions (world st') !! sid =
      Some (mkSubmission (sub_student_id row) (sub_exam_id row) (total_questions row)
              (totalScore (r_questions r) (r_answers r)) (timeTakenMinutes p now)
              (Some now)))
  /\ (update_ok oc = false ->
      currentPhase st' = currentPhase st
      /\ submissions (world st') = submissions (world st)
      /\ ~ In EOnComplete
           (skipn (length (trace (world st))) (trace (world st')))
      /\ In (EToast "Submission Error" "Failed to submit exam. Please try again.")
            (trace (world st'))).
Proof.
  intros Hid Hrow st'. subst st'.
  destruct (submitExam_phase p r autoSubmit now oc st sid Hid) as [Hph Hdoc].
  split; intros Hok; rewrite Hok in Hph, Hdoc.
  - split; [exact Hph|]. split; [exact Hdoc|]. split.
    + unfold submitExam. rewrite Hid, Hok. unfold onComplete. simpl.
      apply in_app_iff. right. now left.
    + rewrite (submitExam_submissions p r autoSubmit now oc st sid Hid).
      unfold finalizedWorld, updateSubmission. rewrite Hok. simpl.
      now rewrite sweep_submissions, lookup_alter_eq, Hrow.
  - split; [exact Hph|]. split.
    + rewrite (submitExam_submissions p r autoSubmit now oc st sid Hid).
      unfold finalizedWorld, updateSubmission. rewrite Hok. simpl.
      apply sweep_submissions.
    + unfold submitExam. rewrite Hid, Hok. unfold toast, console_error, updateSubmission.
      simpl. rewrite sweep_trace, <- !app_assoc.
      split.
      * rewrite skipn_app, skipn_all, Nat.sub_diag. simpl. rewrite drop_0.
        rewrite in_app_iff, in_map_iff. simpl.
        intros [(q & Hq & _)|[H|[H|[H|[]]]]]; discriminate.
      * rewrite !in_app_iff. right. right. simpl. tauto.
Qed.

Lemma unansweredQuestions_empty qs : unansweredQuestions qs [] = qs.
Proof.
  unfold unansweredQuestions. induction qs as [|q qs IH]; simpl; [reflexivity|].
  f_equal. exact IH.
Qed.

(** X6.  The auto-submit that a full-screen violation schedules runs in the
    closure of the render in which the identity arrived, where the answer
    store was still empty.  When it fires it therefore commits a total score
    of 0, whatever the student has answered since; and when its upserts are
    stored, every loaded question ends with a not-answered row, the rows of
    answered questions included. *)
Theorem violation_auto_submit_ignores_the_answers p now evs k now' oc r :
  let st := run p evs (mount p now) in
  let st' := step p (TimeoutFire k now' oc) st in
  nth_error (timeouts st) k = Some r ->
  exists sid,
    submissionId st = Some sid
    /\ In (EUpdateSubmission sid 0 (timeTakenMinutes p now') now' (update_ok oc))
          (trace (world st'))
    /\ (update_ok oc = true ->
        total_score <$> (submissions (world st') !! sid) = Some 0)
    /\ ((forall x, upsert_ok oc x = true) ->
        forall q, In q (questions st) -> notAnsweredAt (world st') (sid, qid q)).
Proof.
  intros st st' Hnth.
  destruct (reachable_wf_oneSubmission p now evs) as [Hwf (_ & Hone)].
  fold st in Hwf, Hone. destruct Hwf as (_ & _ & _ & _ & Hc).
  pose proof (nth_error_In _ _ Hnth) as Hin.
  destruct (submissionId st) as [sid|] eqn:Hs;
    [|destruct Hc as (_ & Hto & _); rewrite Hto in Hin; destruct Hin].
  destruct Hc as (_ & _ & Hto & _). destruct (Hto r Hin) as (Hrs & Hrq & Hra).
  destruct Hone as (_ & row & Hrow & _).
  exists sid. split; [reflexivity|].
  subst st'. unfold step. rewrite Hnth.
  set (st0 := set_timeouts (remove_nth k (timeouts st)) st).
  assert (Hscore : totalScore (r_questions r) (r_answers r) = 0)
    by (rewrite Hra; reflexivity).
  change (world (syncFullscreenRef (submitExam p r true now' oc st0)))
    with (world (submitExam p r true now' oc st0)).
  split; [|split].
  - destruct (submitExam_trace p r true now' oc st0 sid Hrs) as (report & -> & _).
    rewrite finalizedWorld_trace, Hscore, !in_app_iff. left. right. right. now left.
  - intros Hok.
    rewrite (submitExam_submissions p r true now' oc st0 sid Hrs).
    unfold finalizedWorld, updateSubmission. rewrite Hok. simpl.
    rewrite sweep_submissions, lookup_alter_eq. simpl. rewrite Hrow, lookup_singleton_eq.
    simpl. now rewrite Hscore.
  - intros Hok q Hq. unfold notAnsweredAt.
    rewrite (submitExam_responses p r true now' oc st0 sid Hrs).
    apply sweep_rows_notAnswered; [exact Hok|].
    right. exists q. split; [|reflexivity].
    rewrite Hra, unansweredQuestions_empty, Hrq. exact Hq.
Qed.

(** ** Recording answers *)

Lemma scoreStep_shift qs acc a : scoreStep qs acc a = acc + scoreStep qs 0 a.
Proof.
  unfold scoreStep.
  destruct (Js.truthy (selectedAnswer a) && status_eqb (status a) answered); [|lia].
  destruct (findQuestion qs (questionId a)) as [q|]; [|lia].
  destruct (String.eqb (selectedAnswer a) (correctAnswer q)); lia.
Qed.

Lemma totalScore_cons qs k a m :
  totalScore qs ((k, a) :: m) = scoreStep qs 0 a + totalScore qs m.
Proof.
  unfold totalScore. simpl. now rewrite fold_scoreStep_shift.
Qed.

Lemma totalScore_set qs k v m :
  totalScore qs (AnswerMap.set k v m) =
  totalScore qs m - scoreOf qs (AnswerMap.get k m) + scoreOf qs (Some v).
Proof.
  induction m as [|[k0 v0] m IH]; simpl.
  - rewrite totalScore_cons. unfold totalScore. simpl. lia.
  - destruct (String.eqb k0 k); simpl.
    + rewrite !totalScore_cons. lia.
    + rewrite !totalScore_cons, IH. simpl. lia.
Qed.

Lemma findQuestion_NoDup qs q :
  NoDup (map qid qs) -> In q qs -> findQuestion qs (qid q) = Some q.
Proof.
  unfold findQuestion. induction qs as [|q0 qs IH]; simpl; intros Hnd; [intros []|].
  inversion Hnd as [|x l Hnotin Hnd']; subst.
  intros [->|Hin]; [now rewrite String.eqb_refl|].
  destruct (String.eqb (qid q0) (qid q)) eqn:Heq; [|now apply IH].
  apply String.eqb_eq in Heq. exfalso. apply Hnotin. rewrite Heq.
  apply list_elem_of_In, in_map, Hin.
Qed.

Lemma or_else_empty x : Js.or_else x "" = x.
Proof. unfold Js.or_else. now destruct x. Qed.

(** X8.  Selecting an option for the current question files one record under
    the question's identity, with the option as clicked, the status
    answered and the time since the question was opened; the durable row
    holds the option in lower case, is marked correct exactly when the
    lower-cased option is the lower-cased correct answer, and counts whole
    seconds.  The score changes by what the new record adds and the
    replaced record, if any, had added. *)
Theorem select_answer_records_the_click p option now st sid q :
  rendered st = true ->
  submissionId st = Some sid ->
  js_index (questions st) (currentQuestionIndex st) = Some q ->
  NoDup (map qid (questions st)) ->
  Js.truthy option = true ->
  Js.toLowerCase option <> "n" ->
  let st' := step p (ClickOption option now true) st in
  let record := mkAnswer (qid q) option answered (now - questionStartTime st) in
  AnswerMap.get (qid q) (answers st') = Some record
  /\ (forall k, k <> qid q -> AnswerMap.get k (answers st') = AnswerMap.get k (answers st))
  /\ responses (world st') !! (sid, qid q) =
     Some (mkResponse (Js.toLowerCase option) (Js.toLowerCase (correctAnswer q))
             (String.eqb (Js.toLowerCase option) (Js.toLowerCase (correctAnswer q)))
             ((now - questionStartTime st) / 1000))
  /\ totalScore (questions st) (answers st') =
     totalScore (questions st) (answers st)
     - scoreOf (questions st) (AnswerMap.get (qid q) (answers st))
     + (if String.eqb option (correctAnswer q) then 1 else 0).
Proof.
  intros Hr Hs Hq Hnd Hopt Hn st' record. subst st' record.
  pose proof (findQuestion_NoDup _ q Hnd (js_index_In _ _ _ Hq)) as Hfind.
  unfold step. rewrite Hr. unfold handleAnswerSelect, saveAnswer. simpl.
  rewrite Hs, Hq. simpl.
  split; [apply get_set_eq|]. split; [intros k Hk; now apply get_set_ne|]. split.
  - rewrite lookup_insert_eq. f_equal.
    assert (Hcorr : correctAnswerLower (Some q) = Js.toLowerCase (correctAnswer q))
      by (unfold correctAnswerLower; apply or_else_empty).
    assert (Hlow : Js.truthy (Js.toLowerCase option) = true)
      by (destruct option; [discriminate | reflexivity]).
    unfold isCorrect, selectedAnswerLower, Js.floor_div.
    rewrite Hfind, Hcorr, Hopt, Hlow. apply String.eqb_neq in Hn. rewrite Hn. reflexivity.
  - rewrite totalScore_set. unfold scoreOf at 2, scoreStep. simpl.
    rewrite Hopt, Hfind. simpl.
    destruct (String.eqb option (correctAnswer q)); lia.
Qed.

Lemma has_get k m : AnswerMap.has k m = match AnswerMap.get k m with Some _ => true | None => false end.
Proof. reflexivity. Qed.

(** X9.  Answering the same question again overwrites: the answer store
    keeps one record for the question, now with the second option, and the
    durable table keeps one row for it, now with the second option in lower
    case; neither grows. *)
Theorem answering_again_overwrites p o1 o2 now1 now2 st sid q :
  rendered st = true ->
  submissionId st = Some sid ->
  js_index (questions st) (currentQuestionIndex st) = Some q ->
  let st1 := step p (ClickOption o1 now1 true) st in
  let st2 := step p (ClickOption o2 now2 true) st1 in
  AnswerMap.get (qid q) (answers st2) =
    Some (mkAnswer (qid q) o2 answered (now2 - questionStartTime st))
  /\ length (answers st2) = length (answers st1)
  /\ durableAnswerCount st2 = durableAnswerCount st1
  /\ selected_answer <$> (responses (world st2) !! (sid, qid q))
     = Some (selectedAnswerLower o2).
Proof.
  intros Hr Hs Hq st1 st2.
  assert (H1 : st1 = syncFullscreenRef
                 (saveAnswer (render_of st) (qid q) o1 answered now1 true st)).
  { subst st1. unfold step. rewrite Hr. unfold handleAnswerSelect. simpl.
    now rewrite Hs, Hq. }
  assert (Hr1 : rendered st1 = true).
  { rewrite H1. unfold saveAnswer. simpl. rewrite Hs. exact Hr. }
  assert (Hs1 : submissionId st1 = Some sid).
  { rewrite H1. unfold saveAnswer. simpl. rewrite Hs. exact Hs. }
  assert (Hq1 : js_index (questions st1) (currentQuestionIndex st1) = Some q).
  { rewrite H1. unfold saveAnswer. simpl. rewrite Hs. exact Hq. }
  assert (Hstart : questionStartTime st1 = questionStartTime st).
  { rewrite H1. unfold saveAnswer. simpl. now rewrite Hs. }
  assert (Hhas : AnswerMap.has (qid q) (answers st1) = true).
  { rewrite H1. unfold saveAnswer. simpl. rewrite Hs. simpl.
    now rewrite has_get, get_set_eq. }
  assert (Hrow1 : is_Some (responses (world st1) !! (sid, qid q))).
  { rewrite H1. unfold saveAnswer. simpl. rewrite Hs. simpl.
    rewrite lookup_insert_eq. eauto. }
  subst st2. clearbody st1. clear H1.
  unfold step. rewrite Hr1. unfold handleAnswerSelect, saveAnswer. simpl.
  rewrite Hs1, Hq1, Hstart. simpl.
  split; [apply get_set_eq|]. split; [now rewrite length_set, Hhas|]. split.
  - unfold durableAnswerCount. simpl. now apply map_size_insert_Some.
  - now rewrite lookup_insert_eq.
Qed.

(** X10.  Marking the current question for review keeps the option selected
    so far (the empty selection when there was none), sets the status to
    marked for review, and takes the question out of the score: the score
    drops by what the replaced record had added. *)
Theorem mark_for_review_keeps_the_selection p now ok st sid q :
  rendered st = true ->
  submissionId st = Some sid ->
  js_index (questions st) (currentQuestionIndex st) = Some q ->
  let st' := step p (ClickMarkForReview now ok) st in
  let kept := match AnswerMap.get (qid q) (answers st) with
              | Some a => selectedAnswer a
              | None => ""
              end in
  AnswerMap.get (qid q) (answers st') =
    Some (mkAnswer (qid q) kept marked_for_review (now - questionStartTime st))
  /\ getQuestionStatus (answers st') (qid q) = marked_for_review
  /\ totalScore (questions st) (answers st') =
     totalScore (questions st) (answers st)
     - scoreOf (questions st) (AnswerMap.get (qid q) (answers st))
  /\ (ok = true ->
      selected_answer <$> (responses (world st') !! (sid, qid q))
      = Some (selectedAnswerLower kept)).
Proof.
  intros Hr Hs Hq st' kept. subst st'.
  unfold step. rewrite Hr. unfold markForReview, saveAnswer. simpl.
  rewrite Hs, Hq. fold kept. rewrite or_else_empty.
  assert (Hget : forall w,
            answers (if ok
                     then with_world w (set_answers (AnswerMap.set (qid q)
                            (mkAnswer (qid q) kept marked_for_review
                               (now - questionStartTime st)) (answers st)) st)
                     else console_error "Error saving response:"
                            (with_world w (set_answers (AnswerMap.set (qid q)
                               (mkAnswer (qid q) kept marked_for_review
                                  (now - questionStartTime st)) (answers st)) st)))
            = AnswerMap.set (qid q)
                (mkAnswer (qid q) kept marked_for_review (now - questionStartTime st))
                (answers st))
    by (intros w; now destruct ok).
  simpl. rewrite !Hget.
  split; [apply get_set_eq|]. split.
  - unfold getQuestionStatus. now rewrite get_set_eq.
  - split.
    + rewrite totalScore_set. unfold scoreOf at 2, scoreStep. simpl.
      rewrite andb_false_r. lia.
    + intros ->. simpl. now rewrite lookup_insert_eq.
Qed.

(** ** The durable answer rows *)

Lemma lower_ascii_idempotent c : Js.lower_ascii (Js.lower_ascii c) = Js.lower_ascii c.
Proof. destruct c as [[|] [|] [|] [|] [|] [|] [|] [|]]; reflexivity. Qed.

Lemma toLowerCase_idempotent s : Js.toLowerCase (Js.toLowerCase s) = Js.toLowerCase s.
Proof.
  induction s as [|c s IH]; simpl; [reflexivity|].
  now rewrite lower_ascii_idempotent, IH.
Qed.

Lemma notAnsweredRow_sound q : rowSound (notAnsweredRow q).
Proof.
  unfold rowSound, notAnsweredRow. simpl. rewrite or_else_empty.
  split; [reflexivity|]. split; [apply toLowerCase_idempotent | discriminate].
Qed.

Lemma saveAnswer_row_sound question selected t :
  rowSound (mkResponse (selectedAnswerLower selected) (correctAnswerLower question)
              (isCorrect question selected) t).
Proof.
  unfold rowSound. simpl. split; [|split].
  - unfold selectedAnswerLower. destruct (Js.truthy selected); [|reflexivity].
    apply toLowerCase_idempotent.
  - unfold correctAnswerLower. rewrite or_else_empty.
    destruct question; [apply toLowerCase_idempotent | reflexivity].
  - unfold isCorrect. destruct question as [q|]; [|discriminate].
    destruct (Js.truthy (selectedAnswerLower selected)); [|discriminate].
    destruct (String.eqb (selectedAnswerLower selected) "n") eqn:Hn; [discriminate|].
    simpl. intros Heq. apply String.eqb_eq in Heq. apply String.eqb_neq in Hn. now split.
Qed.

Lemma sweep_rowsSound sid oc qs w :
  (forall key row, responses w !! key = Some row -> rowSound row) ->
  forall key row, responses (sweep sid oc qs w) !! key = Some row -> rowSound row.
Proof.
  revert w. induction qs as [|q qs IH]; intros w Hw; [exact Hw|].
  unfold sweep in *. simpl. apply IH.
  intros key row. unfold upsertResponse, emit.
  destruct (upsert_ok oc (qid q)); simpl; [|apply Hw].
  destruct (decide ((sid, qid q) = key)) as [<-|Hne].
  - rewrite lookup_insert_eq. intros [= <-]. apply notAnsweredRow_sound.
  - rewrite lookup_insert_ne by exact Hne. apply Hw.
Qed.

Lemma rowsSound_submitExam p r autoSubmit now oc st :
  rowsSound st -> rowsSound (submitExam p r autoSubmit now oc st).
Proof.
  intros Hst. unfold rowsSound.
  destruct (r_submissionId r) as [sid|] eqn:Hid.
  - rewrite (submitExam_responses p r autoSubmit now oc st sid Hid).
    now apply sweep_rowsSound.
  - rewrite (submitExam_none p r autoSubmit now oc st Hid). exact Hst.
Qed.

Lemma rowsSound_saveAnswer r k selected s now ok st :
  rowsSound st -> rowsSound (saveAnswer r k selected s now ok st).
Proof.
  intros Hst. unfold rowsSound, saveAnswer, toast, console_error, upsertResponse, emit.
  destruct (r_submissionId r) as [sid|]; [|exact Hst].
  destruct ok; simpl; [|exact Hst].
  intros key row. destruct (decide ((sid, k) = key)) as [<-|Hne].
  - rewrite lookup_insert_eq. intros [= <-]. apply saveAnswer_row_sound.
  - rewrite lookup_insert_ne by exact Hne. apply Hst.
Qed.

Lemma step_rowsSound p e st : rowsSound st -> rowsSound (step p e st).
Proof.
  intros Hst. unfold step.
  assert (Hsync : forall s, rowsSound s -> rowsSound (syncFullscreenRef s))
    by (intros s H; exact H).
  apply Hsync. clear Hsync.
  destruct e.
  - unfold questionsLoaded, toast, console_error. break_match; exact Hst.
  - unfold submissionInserted, replayPendingAutoSubmit, registerListeners,
      scheduleAutoSubmit, toast, console_error. break_match; exact Hst.
  - unfold fullscreenGranted, toast. break_match; exact Hst.
  - unfold fullscreenChange, handleFullscreenChange, scheduleAutoSubmit, toast. simpl.
    break_match; exact Hst.
  - unfold handleVisibilityChange, toast. break_match; exact Hst.
  - destruct (mounted st); [|exact Hst]. unfold tick.
    destruct (timeRemaining st <=? 1); [|exact Hst].
    rewrite (submitExam_none p firstRender true now oc _ eq_refl). exact Hst.
  - destruct (nth_error (timeouts st) k); [|exact Hst].
    now apply rowsSound_submitExam.
  - destruct (rendered st); [|exact Hst]. unfold handleAnswerSelect, toast, console_error.
    break_match; try exact Hst. now apply rowsSound_saveAnswer.
  - destruct (rendered st); [|exact Hst]. unfold markForReview, toast, console_error.
    break_match; try exact Hst; now apply rowsSound_saveAnswer.
  - unfold navigateToQuestion. break_match; exact Hst.
  - unfold navigateToQuestion. break_match; exact Hst.
  - unfold navigateToQuestion. break_match; exact Hst.
  - destruct (rendered st); [|exact Hst]. now apply rowsSound_submitExam.
Qed.

(** X11.  Every answer row a session stores holds its selection and its
    correct answer in lower case, and is marked correct only when the
    selection is the correct answer and is not the sentinel "n". *)
Theorem stored_rows_are_sound p now evs key row :
  responses (world (run p evs (mount p now))) !! key = Some row ->
  Js.toLowerCase (selected_answer row) = selected_answer row
  /\ Js.toLowerCase (correct_answer row) = correct_answer row
  /\ (is_correct row = true ->
      selected_answer row = correct_answer row /\ selected_answer row <> "n").
Proof.
  assert (Hinv : rowsSound (run p evs (mount p now))).
  { apply run_invariant; [apply step_rowsSound|].
    unfold rowsSound, mount. intros k r. destruct (_ <=? 0); simpl;
      rewrite lookup_empty; discriminate. }
  intros Hrow. exact (Hinv key row Hrow).
Qed.

(** ** What the sweep leaves alone *)

Lemma sweep_frame sid oc qs w s k :
  (s <> sid \/ ~ In k (map qid qs)) ->
  responses (sweep sid oc qs w) !! (s, k) = responses w !! (s, k).
Proof.
  revert w. induction qs as [|q qs IH]; intros w Hout; [reflexivity|].
  unfold sweep in *. simpl. rewrite IH.
  - unfold upsertResponse, emit. destruct (upsert_ok oc (qid q)); simpl; [|reflexivity].
    apply lookup_insert_ne. intros [= <- <-]. destruct Hout as [H|H]; [congruence|].
    apply H. now left.
  - destruct Hout as [H|H]; [now left | right]. intros Hin. apply H. now right.
Qed.

(** X12.  A finalize sequence writes only rows of its own submission, and
    only for questions of its closure that have no answer record there: the
    row of a question with a record, the rows of other questions and the
    rows of other submissions are left as they were. *)
Theorem sweep_leaves_answered_rows_alone p r autoSubmit now oc st sid s k :
  r_submissionId r = Some sid ->
  s <> sid \/ AnswerMap.has k (r_answers r) = true \/ ~ In k (map qid (r_questions r)) ->
  responses (world (submitExam p r autoSubmit now oc st)) !! (s, k)
  = responses (world st) !! (s, k).
Proof.
  intros Hid Hout. rewrite (submitExam_responses p r autoSubmit now oc st sid Hid).
  apply sweep_frame. destruct Hout as [H|[H|H]]; [now left | right | right].
  - rewrite in_map_iff. intros (q & <- & Hin).
    apply In_unansweredQuestions in Hin. destruct Hin as [_ Hno]. congruence.
  - rewrite in_map_iff. intros (q & <- & Hin).
    apply In_unansweredQuestions in Hin. destruct Hin as [Hin _].
    apply H, in_map, Hin.
Qed.

(** ** After completion *)

Lemma step_completed p e st :
  currentPhase st = completed ->
  currentPhase (step p e st) = completed
  /\ answers (step p e st) = answers st
  /\ (isTimeoutFire e = false ->
      responses (world (step p e st)) = responses (world st)
      /\ submissions (world (step p e st)) = submissions (world st)).
Proof.
  intros Hp. destruct e; unfold step.
  7: { destruct (nth_error (timeouts st) k) as [r|]; [|simpl; repeat split; auto; discriminate].
       destruct (submitExam_hooks p r true now oc
                   (set_timeouts (remove_nth k (timeouts st)) st)) as (_ & Ea & _).
       simpl. rewrite Ea. split; [|split; [reflexivity | discriminate]].
       destruct (r_submissionId r) as [sid|] eqn:Hid.
       - destruct (submitExam_phase p r true now oc
                     (set_timeouts (remove_nth k (timeouts st)) st) sid Hid) as [-> _].
         destruct (update_ok oc); [reflexivity | exact Hp].
       - rewrite (submitExam_none p r true now oc _ Hid). exact Hp. }
  all: unfold fullscreenGranted, fullscreenChange, rendered, mounted, toast; simpl;
    rewrite ?Hp; simpl; rewrite ?andb_false_l; break_match; simpl; repeat split; auto.
Qed.

(** X13.  Once the session is completed, with no insert of the submission
    still under way, no event that arrives afterwards starts a write: timer
    ticks, clicks, browser events and late answers of the question query
    change neither the phase, nor the answer store, nor the durable answer
    rows, nor the submission row.  The one exception is a violation timeout
    scheduled earlier, which still fires.  (A handler run that began before
    the completion is not an event of the session: in a session each run has
    finished before the next event arrives.) *)
Theorem completed_session_is_frozen p evs st :
  currentPhase st = completed ->
  creating st = false ->
  let st' := run p evs st in
  currentPhase st' = completed
  /\ answers st' = answers st
  /\ (forallb (fun e => negb (isTimeoutFire e)) evs = true ->
      responses (world st') = responses (world st)
      /\ submissions (world st') = submissions (world st)).
Proof.
  intros Hp _. revert st Hp. unfold run.
  induction evs as [|e evs IH]; intros st Hp; simpl.
  - repeat split; auto.
  - destruct (step_completed p e st Hp) as (Hp1 & Ha1 & Ht1).
    destruct (IH (step p e st) Hp1) as (Hp2 & Ha2 & Ht2).
    split; [exact Hp2|]. split; [now rewrite Ha2|].
    intros Hall. apply andb_true_iff in Hall. destruct Hall as [He Hall].
    apply negb_true_iff in He. destruct (Ht1 He) as [Hr1 Hs1].
    destruct (Ht2 Hall) as [Hr2 Hs2]. split; congruence.
Qed.

(** ** Leaving full screen twice *)

Lemma exit_ignored p s :
  listener s = None \/ mounted s = false \/ isFullscreenRef s = false ->
  let s1 := step p (FullscreenChange false) s in
  timeouts s1 = timeouts s /\ trace (world s1) = trace (world s)
  /\ pendingAutoSubmit s1 = pendingAutoSubmit s
  /\ listener s1 = listener s /\ mounted s1 = mounted s
  /\ isFullscreenRef s1 = isFullscreen s.
Proof.
  intros H. unfold step, fullscreenChange, handleFullscreenChange, mounted in *. simpl.
  destruct (listener s) as [r|] eqn:Hl; [|simpl; repeat split; auto].
  destruct H as [H|[H|H]]; [discriminate| |].
  - rewrite H. simpl. rewrite H. repeat split; auto.
  - rewrite H. simpl.
    destruct (match currentPhase s with exam => true | _ => false end) eqn:Hm;
      simpl; rewrite ?Hm; repeat split; auto.
Qed.

Lemma exit_fired p s r :
  listener s = Some r -> mounted s = true -> isFullscreenRef s = true ->
  let s1 := step p (FullscreenChange false) s in
  isFullscreenRef s1 = false
  /\ (length (timeouts s1) <= S (length (timeouts s)))%nat.
Proof.
  intros Hl Hm Href. unfold step, fullscreenChange, handleFullscreenChange, mounted in *.
  simpl. rewrite Hl, Hm, Href. simpl.
  unfold scheduleAutoSubmit, toast.
  destruct (r_submissionId r); simpl; rewrite ?length_app; simpl; split; auto; lia.
Qed.

(** X14.  When the full-screen exit event is delivered twice in a row (each
    delivery followed by the re-render), the second delivery does nothing:
    it schedules no further auto-submit and shows no further toast, and the
    first schedules at most one. *)
Theorem second_exit_event_is_ignored p e st :
  let st0 := step p e st in
  let st1 := step p (FullscreenChange false) st0 in
  let st2 := step p (FullscreenChange false) st1 in
  timeouts st2 = timeouts st1
  /\ trace (world st2) = trace (world st1)
  /\ pendingAutoSubmit st2 = pendingAutoSubmit st1
  /\ (length (timeouts st1) <= S (length (timeouts st0)))%nat.
Proof.
  intros st0 st1 st2.
  assert (Hsync : isFullscreenRef st0 = isFullscreen st0) by reflexivity.
  clearbody st0.
  destruct (listener st0) as [r|] eqn:Hl.
  - destruct (mounted st0) eqn:Hm.
    + destruct (isFullscreenRef st0) eqn:Href.
      * destruct (exit_fired p st0 r Hl Hm Href) as [Href1 Hlen]. fold st1 in Href1, Hlen.
        clearbody st1.
        destruct (exit_ignored p st1 (or_intror (or_intror Href1)))
          as (Ht & Htr & Hpe & _). fold st2 in Ht, Htr, Hpe. now repeat split.
      * destruct (exit_ignored p st0 (or_intror (or_intror Href)))
          as (Ht1 & _ & _ & _ & _ & Href1). fold st1 in Ht1, Href1.
        rewrite <- Hsync in Href1. clearbody st1.
        destruct (exit_ignored p st1 (or_intror (or_intror Href1)))
          as (Ht & Htr & Hpe & _). fold st2 in Ht, Htr, Hpe.
        repeat split; auto. rewrite Ht1. lia.
    + destruct (exit_ignored p st0 (or_intror (or_introl Hm)))
        as (Ht1 & _ & _ & _ & Hm1 & _). fold st1 in Ht1, Hm1.
      rewrite Hm in Hm1. clearbody st1.
      destruct (exit_ignored p st1 (or_intror (or_introl Hm1)))
        as (Ht & Htr & Hpe & _). fold st2 in Ht, Htr, Hpe.
      repeat split; auto. rewrite Ht1. lia.
  - destruct (exit_ignored p st0 (or_introl Hl))
      as (Ht1 & _ & _ & Hl1 & _). fold st1 in Ht1, Hl1.
    rewrite Hl in Hl1. clearbody st1.
    destruct (exit_ignored p st1 (or_introl Hl1))
      as (Ht & Htr & Hpe & _). fold st2 in Ht, Htr, Hpe.
    repeat split; auto. rewrite Ht1. lia.
Qed.

(** ** Instances on a concrete session *)

Lemma demo_questions_NoDup : NoDup (map qid Demo.qs).
Proof.
  vm_compute. repeat constructor; rewrite list_elem_of_In; simpl; intuition discriminate.
Qed.

Lemma one_submission_with_a_stable_identity_witness :
  let evs2 := [ClickOption "B" 5000 true; Tick 6000 all_ok; ClickNext 7000] in
  submissionId (run Sample.props Demo.opened (mount Sample.props 0)) = Some "s1"
  /\ submissionId (run Sample.props (Demo.opened ++ evs2) (mount Sample.props 0)) = Some "s1".
Proof.
  intros evs2.
  assert (H : submissionId (run Sample.props Demo.opened (mount Sample.props 0)) = Some "s1")
    by (vm_compute; reflexivity).
  split; [exact H|].
  exact (proj1 (one_submission_with_a_stable_identity Sample.props 0 Demo.opened evs2 "s1" H)).
Defined.

Lemma progress_summary_matches_the_grid_witness :
  let st := run Sample.props (Demo.opened ++ [ClickOption "B" 5000 true])
              (mount Sample.props 0) in
  NoDup (map qid (questions st))
  /\ 0 <= count_notAnswered (getStatusCounts (questions st) (answers st)).
Proof.
  intros st.
  assert (H : NoDup (map qid (questions st))) by exact demo_questions_NoDup.
  split; [exact H|].
  pose proof (progress_summary_matches_the_grid Sample.props 0
                (Demo.opened ++ [ClickOption "B" 5000 true]) H) as (_ & _ & _ & Hge & _).
  exact Hge.
Defined.

Lemma violation_auto_submit_ignores_the_answers_witness :
  let st := run Sample.props Demo.violated (mount Sample.props 0) in
  let r := mkRender Demo.qs [] (Some "s1") 0 0 in
  nth_error (timeouts st) 0 = Some r
  /\ totalScore (questions st) (answers st) = 1
  /\ exists sid,
       submissionId st = Some sid
       /\ In (EUpdateSubmission sid 0 (timeTakenMinutes Sample.props 7000) 7000
                (update_ok all_ok))
             (trace (world (step Sample.props (TimeoutFire 0 7000 all_ok) st))).
Proof.
  intros st r.
  assert (H : nth_error (timeouts st) 0 = Some r) by (vm_compute; reflexivity).
  split; [exact H|]. split; [vm_compute; reflexivity|].
  destruct (violation_auto_submit_ignores_the_answers Sample.props 0 Demo.violated 0 7000
              all_ok r H) as (sid & Hs & Hin & _).
  exists sid. split; [exact Hs | exact Hin].
Defined.

Lemma finalize_completes_or_asks_to_retry_witness :
  let r := render_of Demo.st in
  let row := mkSubmission "stu1" "e1" 2 0 0 None in
  let refused := mkOutcome (fun _ => true) false in
  r_submissionId r = Some "s1"
  /\ submissions (world Demo.st) !! "s1" = Some row
  /\ currentPhase (submitExam Sample.props r false 6000 refused Demo.st)
     = currentPhase Demo.st
  /\ currentPhase (submitExam Sample.props r false 6000 all_ok Demo.st) = completed.
Proof.
  intros r row refused.
  assert (H1 : r_submissionId r = Some "s1") by (vm_compute; reflexivity).
  assert (H2 : submissions (world Demo.st) !! "s1" = Some row) by (vm_compute; reflexivity).
  split; [exact H1|]. split; [exact H2|]. split.
  - destruct (finalize_completes_or_asks_to_retry Sample.props r false 6000 refused
                Demo.st "s1" row H1 H2) as [_ Hfail].
    exact (proj1 (Hfail eq_refl)).
  - destruct (finalize_completes_or_asks_to_retry Sample.props r false 6000 all_ok
                Demo.st "s1" row H1 H2) as [Hok _].
    exact (proj1 (Hok eq_refl)).
Defined.

Lemma select_answer_records_the_click_witness :
  let q := Sample.question "q1" "B" 1 in
  let st' := step Sample.props (ClickOption "b" 5000 true) Demo.st in
  rendered Demo.st = true
  /\ js_index (questions Demo.st) (currentQuestionIndex Demo.st) = Some q
  /\ AnswerMap.get (qid q) (answers st')
     = Some (mkAnswer (qid q) "b" answered (5000 - questionStartTime Demo.st))
  /\ responses (world st') !! ("s1", qid q) =
     Some (mkResponse (Js.toLowerCase "b") (Js.toLowerCase (correctAnswer q))
             (String.eqb (Js.toLowerCase "b") (Js.toLowerCase (correctAnswer q)))
             ((5000 - questionStartTime Demo.st) / 1000)).
Proof.
  intros q st'.
  assert (H1 : rendered Demo.st = true) by (vm_compute; reflexivity).
  assert (H2 : submissionId Demo.st = Some "s1") by (vm_compute; reflexivity).
  assert (H3 : js_index (questions Demo.st) (currentQuestionIndex Demo.st) = Some q)
    by (vm_compute; reflexivity).
  assert (H4 : NoDup (map qid (questions Demo.st))) by exact demo_questions_NoDup.
  assert (H5 : Js.truthy "b" = true) by reflexivity.
  assert (H6 : Js.toLowerCase "b" <> "n") by (vm_compute; discriminate).
  split; [exact H1|]. split; [exact H3|].
  destruct (select_answer_records_the_click Sample.props "b" 5000 Demo.st "s1" q
              H1 H2 H3 H4 H5 H6) as (Hrec & _ & Hrow & _).
  split; [exact Hrec | exact Hrow].
Defined.

Lemma answering_again_overwrites_witness :
  let q := Sample.question "q1" "B" 1 in
  let st1 := step Sample.props (ClickOption "A" 5000 true) Demo.st in
  let st2 := step Sample.props (ClickOption "B" 6000 true) st1 in
  rendered Demo.st = true
  /\ submissionId Demo.st = Some "s1"
  /\ length (answers st2) = length (answers st1)
  /\ durableAnswerCount st2 = durableAnswerCount st1.
Proof.
  intros q st1 st2.
  assert (H1 : rendered Demo.st = true) by (vm_compute; reflexivity).
  assert (H2 : submissionId Demo.st = Some "s1") by (vm_compute; reflexivity).
  assert (H3 : js_index (questions Demo.st) (currentQuestionIndex Demo.st) = Some q)
    by (vm_compute; reflexivity).
  split; [exact H1|]. split; [exact H2|].
  destruct (answering_again_overwrites Sample.props "A" "B" 5000 6000 Demo.st "s1" q
              H1 H2 H3) as (_ & Hlen & Hcount & _).
  split; [exact Hlen | exact Hcount].
Defined.

Lemma mark_for_review_keeps_the_selection_witness :
  let q := Sample.question "q1" "B" 1 in
  let st1 := step Sample.props (ClickOption "B" 5000 true) Demo.st in
  let st2 := step Sample.props (ClickMarkForReview 6000 true) st1 in
  rendered st1 = true
  /\ AnswerMap.get (qid q) (answers st1) = Some (mkAnswer "q1" "B" answered 5000)
  /\ totalScore (questions st1) (answers st1) = 1
  /\ getQuestionStatus (answers st2) (qid q) = marked_for_review
  /\ totalScore (questions st1) (answers st2) =
     totalScore (questions st1) (answers st1)
     - scoreOf (questions st1) (AnswerMap.get (qid q) (answers st1)).
Proof.
  intros q st1 st2.
  assert (H1 : rendered st1 = true) by (vm_compute; reflexivity).
  assert (H2 : submissionId st1 = Some "s1") by (vm_compute; reflexivity).
  assert (H3 : js_index (questions st1) (currentQuestionIndex st1) = Some q)
    by (vm_compute; reflexivity).
  split; [exact H1|]. split; [vm_compute; reflexivity|]. split; [vm_compute; reflexivity|].
  destruct (mark_for_review_keeps_the_selection Sample.props 6000 true st1 "s1" q
              H1 H2 H3) as (_ & Hst & Hscore & _).
  split; [exact Hst | exact Hscore].
Defined.

Lemma stored_rows_are_sound_witness :
  let evs := Demo.opened ++ [ClickOption "B" 5000 true] in
  let row := mkResponse "b" "b" true 5 in
  responses (world (run Sample.props evs (mount Sample.props 0))) !! ("s1", "q1") = Some row
  /\ (is_correct row = true ->
      selected_answer row = correct_answer row /\ selected_answer row <> "n").
Proof.
  intros evs row.
  assert (H : responses (world (run Sample.props evs (mount Sample.props 0))) !! ("s1", "q1")
              = Some row) by (vm_compute; reflexivity).
  split; [exact H|].
  exact (proj2 (proj2 (stored_rows_are_sound Sample.props 0 evs ("s1", "q1") row H))).
Defined.

Lemma sweep_leaves_answered_rows_alone_witness :
  let st1 := step Sample.props (ClickOption "B" 5000 true) Demo.st in
  let r := render_of st1 in
  r_submissionId r = Some "s1"
  /\ AnswerMap.has "q1" (r_answers r) = true
  /\ responses (world (submitExam Sample.props r false 6000 all_ok st1)) !! ("s1", "q1")
     = responses (world st1) !! ("s1", "q1").
Proof.
  intros st1 r.
  assert (H1 : r_submissionId r = Some "s1") by (vm_compute; reflexivity).
  assert (H2 : AnswerMap.has "q1" (r_answers r) = true) by (vm_compute; reflexivity).
  split; [exact H1|]. split; [exact H2|].
  exact (sweep_leaves_answered_rows_alone Sample.props r false 6000 all_ok st1 "s1" "s1" "q1"
           H1 (or_intror (or_introl H2))).
Defined.

Lemma completed_session_is_frozen_witness :
  let st := step Sample.props (ClickSubmit 6000 all_ok) Demo.st in
  let evs := [Tick 7000 all_ok; ClickOption "A" 8000 true; ClickSubmit 9000 all_ok] in
  currentPhase st = completed
  /\ creating st = false
  /\ currentPhase (run Sample.props evs st) = completed
  /\ answers (run Sample.props evs st) = answers st.
Proof.
  intros st evs.
  assert (H : currentPhase st = completed) by (vm_compute; reflexivity).
  assert (Hc : creating st = false) by (vm_compute; reflexivity).
  split; [exact H|]. split; [exact Hc|].
  destruct (completed_session_is_frozen Sample.props evs st H Hc) as (Hp & Ha & _).
  split; [exact Hp | exact Ha].
Defined.

(** ** Registration: what the form never does *)

Lemma maybeSingle_some {A} ok (rows : list A) x :
  Registration.maybeSingle ok rows = Some (Some x) -> rows = [x].
Proof.
  unfold Registration.maybeSingle. destruct ok; [|discriminate].
  destruct rows as [|y [|z rows]]; try discriminate. now intros [= ->].
Qed.

Lemma maybeSingle_none {A} ok (rows : list A) :
  Registration.maybeSingle ok rows = Some None -> rows = [].
Proof.
  unfold Registration.maybeSingle. destruct ok; [|discriminate].
  destruct rows as [|y [|z rows]]; try discriminate. reflexivity.
Qed.

Lemma checkAndProceed_spec formData examId studentId env db tr stu :
  (forall s, ~ In (Registration.OnSuccess s) tr) ->
  let result := Registration.checkAndProceed formData examId studentId env db tr in
  fst result = db
  /\ (In (Registration.OnSuccess stu) (snd result) ->
      stu = Registration.mkStudent (Some studentId) (Registration.name formData)
              (Registration.email formData) (Registration.rollNumber formData)
      /\ List.filter (fun r => String.eqb (fst r) studentId && String.eqb (snd r) examId)
                     (Registration.submitted db) = []).
Proof.
  intros Htr. unfold Registration.checkAndProceed, Registration.registrationFailed.
  destruct (Registration.maybeSingle _ _) as [[found|]|] eqn:Hcheck; simpl;
    (split; [reflexivity|]); rewrite ?in_app_iff; simpl.
  - intros [[H|[H|[]]]|[H|[]]]; try discriminate. now apply Htr in H.
  - intros [[H|[H|[]]]|[H|[H|[]]]]; try discriminate; [now apply Htr in H|].
    inversion H. split; [reflexivity|]. now apply maybeSingle_none in Hcheck.
  - intros [[H|[H|[]]]|[H|[H|[]]]]; try discriminate. now apply Htr in H.
Qed.

(** X15.  The registration form hands over to the exam only after its
    checks: the three fields are filled in and the email contains an at
    sign; the student handed over carries the typed name, email and roll
    number and the identity of a stored student row with that roll number;
    and no submission of that student for this exam is stored. *)
Theorem registration_hands_over_only_after_its_checks formData examId env db stu :
  let result := Registration.handleSubmit formData examId env db in
  In (Registration.OnSuccess stu) (snd result) ->
  Js.blank (Registration.name formData) = false
  /\ Js.blank (Registration.email formData) = false
  /\ Js.blank (Registration.rollNumber formData) = false
  /\ Js.includes_char "@"%char (Registration.email formData) = true
  /\ exists sid row,
       stu = Registration.mkStudent (Some sid) (Registration.name formData)
               (Registration.email formData) (Registration.rollNumber formData)
       /\ In row (Registration.students (fst result))
       /\ Registration.row_id row = sid
       /\ Registration.roll_number row = Registration.rollNumber formData
       /\ List.filter (fun r => String.eqb (fst r) sid && String.eqb (snd r) examId)
                      (Registration.submitted (fst result)) = [].
Proof.
  intros result. subst result. unfold Registration.handleSubmit.
  destruct (Js.blank (Registration.name formData)) eqn:Hn; simpl;
    [intros [H|[]]; discriminate|].
  destruct (Js.blank (Registration.email formData)) eqn:He; simpl;
    [intros [H|[]]; discriminate|].
  destruct (Js.blank (Registration.rollNumber formData)) eqn:Hr; simpl;
    [intros [H|[]]; discriminate|].
  destruct (Js.includes_char "@" (Registration.email formData)) eqn:Hat; simpl;
    [|intros [H|[]]; discriminate].
  destruct (Registration.maybeSingle (Registration.select_student_ok env) _)
    as [[existing|]|] eqn:Hsel.
  - apply maybeSingle_some in Hsel.
    pose proof (checkAndProceed_spec formData examId (Registration.row_id existing) env db
                  [Registration.SelectStudent (Registration.rollNumber formData)] stu)
      as Hspec.
    destruct Hspec as [Hdb Hon]; [intros s [H|[]]; discriminate|].
    intros Hin. destruct (Hon Hin) as [-> Hnone]. rewrite Hdb.
    repeat split; try reflexivity.
    exists (Registration.row_id existing), existing.
    assert (Hex : In existing (List.filter
                    (fun r => String.eqb (Registration.roll_number r)
                                         (Registration.rollNumber formData))
                    (Registration.students db))) by (rewrite Hsel; now left).
    apply List.filter_In in Hex. destruct Hex as [Hex Hroll].
    apply String.eqb_eq in Hroll. now repeat split.
  - destruct (Registration.insert_student env) as [newId|] eqn:Hins.
    + set (db1 := Registration.mkDb _ _).
      pose proof (checkAndProceed_spec formData examId newId env db1
                    [Registration.SelectStudent (Registration.rollNumber formData);
                     Registration.InsertStudent (Registration.name formData)
                       (Registration.email formData) (Registration.rollNumber formData)]
                    stu) as Hspec.
      destruct Hspec as [Hdb Hon]; [intros s [H|[H|[]]]; discriminate|].
      intros Hin. destruct (Hon Hin) as [-> Hnone]. rewrite Hdb.
      repeat split; try reflexivity.
      exists newId, (Registration.mkStudentRow newId (Registration.name formData)
                       (Registration.email formData) (Registration.rollNumber formData)).
      repeat split; try reflexivity; [|exact Hnone].
      unfold db1. simpl. apply in_app_iff. right. now left.
    + unfold Registration.registrationFailed. simpl.
      intros [H|[H|[H|[H|[]]]]]; discriminate.
  - unfold Registration.registrationFailed. simpl.
    intros [H|[H|[H|[]]]]; discriminate.
Qed.

(** X16.  The registration form never writes a submission and never changes
    or removes a student row.  It adds a student row exactly when the fields
    pass the two checks, the lookup by roll number went through and found
    none, and the insert is accepted: the new row holds the typed name,
    email and roll number.  The row then stays whatever the
    duplicate-submission check gives: also when that check fails and the
    registration is reported as failed, and when it finds a submission and
    the student is turned away. *)
Theorem registration_only_adds_a_new_student formData examId env db :
  let result := Registration.handleSubmit formData examId env db in
  let valid := negb (Js.blank (Registration.name formData)
                     || Js.blank (Registration.email formData)
                     || Js.blank (Registration.rollNumber formData))
               && Js.includes_char "@"%char (Registration.email formData) in
  let matching := List.filter (fun r => String.eqb (Registration.roll_number r)
                                                   (Registration.rollNumber formData))
                              (Registration.students db) in
  let row newId := Registration.mkStudentRow newId (Registration.name formData)
                     (Registration.email formData) (Registration.rollNumber formData) in
  Registration.submitted (fst result) = Registration.submitted db
  /\ (fst result = db
      \/ exists newId,
           Registration.insert_student env = Some newId
           /\ matching = []
           /\ Registration.students (fst result) = Registration.students db ++ [row newId])
  /\ (forall newId,
        valid = true ->
        Registration.select_student_ok env = true ->
        matching = [] ->
        Registration.insert_student env = Some newId ->
        Registration.students (fst result) = Registration.students db ++ [row newId]
        /\ (Registration.select_submission_ok env = false ->
            registrationToasts (snd result) = ["Registration Failed"]
            /\ registrationHandOvers (snd result) = [])
        /\ (forall x,
              Registration.select_submission_ok env = true ->
              List.filter (fun r => String.eqb (fst r) newId && String.eqb (snd r) examId)
                          (Registration.submitted db) = [x] ->
              registrationToasts (snd result) = ["Already Submitted"]
              /\ registrationHandOvers (snd result) = []))
  /\ (valid = false \/ Registration.select_student_ok env = false
      \/ matching <> [] \/ Registration.insert_student env = None ->
      fst result = db).
Proof.
  intros result valid matching row. subst result valid row.
  unfold Registration.handleSubmit. fold matching.
  destruct (Js.blank (Registration.name formData) || Js.blank (Registration.email formData)
            || Js.blank (Registration.rollNumber formData)) eqn:Hblank; simpl.
  { split; [reflexivity|]. split; [now left|].
    split; [intros newId H; discriminate H | reflexivity]. }
  destruct (Js.includes_char "@"%char (Registration.email formData)) eqn:Hat; simpl.
  2: { split; [reflexivity|]. split; [now left|].
       split; [intros newId H; discriminate H | reflexivity]. }
  unfold Registration.maybeSingle at 1.
  destruct (Registration.select_student_ok env) eqn:Hsel.
  2: { simpl. split; [reflexivity|]. split; [now left|].
       split; [intros newId _ H; discriminate H | reflexivity]. }
  destruct matching as [|s [|s' rest]] eqn:Hm.
  - destruct (Registration.insert_student env) as [newId|] eqn:Hins.
    + unfold Registration.checkAndProceed, Registration.registrationFailed,
        Registration.maybeSingle. simpl.
      destruct (Registration.select_submission_ok env) eqn:Hok;
        [destruct (List.filter _ (Registration.submitted db)) as [|x [|y more]] eqn:Hsub|];
        simpl;
        (split; [reflexivity|]);
        (split; [right; exists newId; repeat split; reflexivity|]);
        (split;
         [intros n _ _ _ Hn; inversion Hn; subst n;
          split; [reflexivity|];
          split; [intros H; try discriminate H; split; reflexivity|];
          intros x0 H Hx; try discriminate H; try discriminate Hx;
          rewrite ?Hsub in Hx; try discriminate Hx; split; reflexivity
         |intros [H|[H|[H|H]]]; try discriminate H; now contradiction H]).
    + simpl. split; [reflexivity|]. split; [now left|].
      split; [intros newId _ _ _ H; discriminate H | reflexivity].
  - unfold Registration.checkAndProceed, Registration.registrationFailed. simpl.
    match goal with
    | |- context [Registration.maybeSingle ?a ?b] =>
        destruct (Registration.maybeSingle a b) as [[found|]|]
    end; simpl;
      (split; [reflexivity|]); (split; [now left|]);
      (split; [intros newId _ _ H; discriminate H | reflexivity]).
  - simpl. split; [reflexivity|]. split; [now left|].
    split; [intros newId _ _ H; discriminate H | reflexivity].
Qed.

(** ** The access-code form *)

(** X17.  The access-code form hands an exam over only for a non-blank
    input and only when exactly one stored exam has the upper-cased input as
    its access code and the status active; the exam handed over is that row,
    with the current time in place of a missing start time and one hour
    after the current time in place of a missing end time. *)
Theorem access_is_granted_only_to_the_active_exam accessCode now env exams e :
  In (AccessCode.OnSuccess e) (AccessCode.handleSubmit accessCode now env exams) ->
  Js.blank accessCode = false
  /\ exists r,
       List.filter (fun r => String.eqb (AccessCode.access_code r) (toUpperCase accessCode)
                             && String.eqb (AccessCode.row_status r) "active") exams = [r]
       /\ In r exams
       /\ AccessCode.access_code r = toUpperCase accessCode
       /\ AccessCode.row_status r = "active"
       /\ e = AccessCode.examData now r
       /\ AccessCode.startTime e = default now (AccessCode.start_time r)
       /\ AccessCode.endTime e = default (now + 3600000) (AccessCode.end_time r).
Proof.
  unfold AccessCode.handleSubmit.
  destruct (Js.blank accessCode) eqn:Hb; [intros [H|[]]; discriminate|].
  simpl. intros [H|[H|Hin]]; try discriminate. split; [reflexivity|].
  unfold AccessCode.selectActive in Hin.
  destruct (AccessCode.select_active_error env) as [msg|];
    [destruct Hin as [H|[H|[]]]; discriminate|].
  destruct (List.filter _ exams) as [|r [|r' rows]] eqn:Hf.
  - simpl in Hin. destruct Hin as [H|Hin]; [discriminate|].
    destruct (Registration.maybeSingle _ _) as [[x|]|];
      destruct Hin as [H|[]]; discriminate.
  - destruct Hin as [H|[H|[]]]; [discriminate|]. inversion H. subst e.
    exists r. split; [reflexivity|].
    assert (Hr : In r (List.filter
                   (fun r => String.eqb (AccessCode.access_code r) (toUpperCase accessCode)
                             && String.eqb (AccessCode.row_status r) "active") exams))
      by (rewrite Hf; now left).
    apply List.filter_In in Hr. destruct Hr as [Hr Hcond].
    apply andb_true_iff in Hcond. destruct Hcond as [Hc Hs].
    apply String.eqb_eq in Hc, Hs.
    split; [exact Hr|]. split; [exact Hc|]. split; [exact Hs|]. split; [reflexivity|].
    unfold AccessCode.examData. simpl.
    split; [destruct (AccessCode.start_time r) | destruct (AccessCode.end_time r)];
      reflexivity.
  - destruct Hin as [H|[H|[]]]; discriminate.
Qed.

(** ** Mounting the exam screen *)

Lemma step_endedAtMount p e st : endedAtMount st -> endedAtMount (step p e st).
Proof.
  intros (Hp & Hs & Hq & Hl & Ht & Hr & Hsub). unfold endedAtMount.
  destruct e; unfold step; unfold_handlers;
    rewrite ?Hp, ?Hs, ?Hq, ?Hl, ?Ht; simpl; break_match; simpl;
    rewrite ?Hp, ?Hs, ?Hq, ?Hl, ?Ht;
    try match goal with
        | H : nth_error [] ?k = Some _ |- _ => destruct k; discriminate H
        end;
    repeat split; try assumption; try reflexivity; try discriminate.
Qed.

(** X18.  The exam screen starts a session only when at least one whole
    second is left: then the clock shows the whole seconds left and the
    questions are requested.  Otherwise it reports that the exam has ended
    and hands back at once without requesting the questions (full screen is
    requested all the same), and no submission and no answer row is ever
    written for this screen, whatever events follow. *)
Theorem exam_screen_starts_only_with_time_left p now evs :
  (1000 <= endTime p - now ->
   currentPhase (mount p now) = exam
   /\ fetching (mount p now) = true
   /\ timeRemaining (mount p now) = (endTime p - now) / 1000
   /\ 1 <= timeRemaining (mount p now))
  /\ (endTime p - now < 1000 ->
      trace (world (mount p now)) =
        [EToast "Exam Ended" "This exam has already ended."; EOnComplete]
      /\ fetching (mount p now) = false
      /\ let st := run p evs (mount p now) in
         currentPhase st = completed /\ submissionId st = None
         /\ responses (world st) = ∅ /\ submissions (world st) = ∅).
Proof.
  split.
  - intros Hlt. rewrite (mount_in_time p now Hlt). simpl.
    assert (1 <= (endTime p - now) / 1000) by (apply Z.div_le_lower_bound; lia).
    unfold Js.floor_div. repeat split; lia.
  - intros Hlt.
    assert (Hle : Js.floor_div (endTime p - now) 1000 <= 0).
    { unfold Js.floor_div.
      assert ((endTime p - now) / 1000 < 1) by (apply Z.div_lt_upper_bound; lia). lia. }
    assert (Hm : mount p now =
                 onComplete (toast "Exam Ended" "This exam has already ended."
                   (mkState exam [] 0 AnswerMap.empty 0 false false false now None
                      false false None [] emptyWorld))).
    { unfold mount. destruct (_ <=? 0) eqn:Hcmp; [reflexivity|].
      apply Z.leb_gt in Hcmp. lia. }
    rewrite Hm. split; [reflexivity|]. split; [reflexivity|].
    assert (Hinv : endedAtMount
              (run p evs (onComplete (toast "Exam Ended" "This exam has already ended."
                   (mkState exam [] 0 AnswerMap.empty 0 false false false now None
                      false false None [] emptyWorld))))).
    { apply run_invariant; [apply step_endedAtMount|].
      unfold endedAtMount. simpl. repeat split; reflexivity. }
    destruct Hinv as (H1 & H2 & _ & _ & _ & H3 & H4). now repeat split.
Qed.

(** X19.  For an exam stored without an end time, the hour starts when the
    access code is accepted: an exam screen mounted [t] milliseconds later
    shows the whole seconds left of 3,600,000 - t, and does not start at all
    once fewer than 1000 of them are left. *)
Theorem an_exam_without_end_time_lasts_one_hour_from_access now r studentId t :
  AccessCode.end_time r = None ->
  let p := AccessCode.propsOf (AccessCode.examData now r) studentId in
  (t <= 3599000 ->
   currentPhase (mount p (now + t)) = exam
   /\ timeRemaining (mount p (now + t)) = (3600000 - t) / 1000)
  /\ (3599000 < t -> currentPhase (mount p (now + t)) = completed).
Proof.
  intros Hend p.
  assert (Hp : endTime p = now + 3600000).
  { unfold p, AccessCode.propsOf, AccessCode.examData. simpl. now rewrite Hend. }
  clearbody p. split.
  - intros Ht. rewrite (mount_in_time p (now + t)) by lia. simpl.
    split; [reflexivity|]. unfold Js.floor_div. rewrite Hp.
    replace (now + 3600000 - (now + t)) with (3600000 - t) by lia.
    assert (1 <= (3600000 - t) / 1000) by (apply Z.div_le_lower_bound; lia). lia.
  - intros Ht. unfold mount. rewrite Hp.
    replace (now + 3600000 - (now + t)) with (3600000 - t) by lia.
    assert ((3600000 - t) / 1000 < 1) by (apply Z.div_lt_upper_bound; lia).
    unfold Js.floor_div. destruct (_ <=? 0) eqn:Hcmp; [reflexivity|].
    apply Z.leb_gt in Hcmp. lia.
Qed.

(** ** The application shell *)

Lemma index_step_wf ev s : indexWf s -> indexWf (Index.step ev s).
Proof.
  unfold indexWf, Index.step, Index.render.
  destruct s as [ph ex stu]. simpl.
  destruct ev, ph, ex, stu; simpl; intuition discriminate.
Qed.

Lemma index_step_rank ev s :
  (Index.rank (Index.phase s) <= Index.rank (Index.phase (Index.step ev s)))%nat.
Proof.
  unfold Index.step, Index.render. destruct s as [ph ex stu]. simpl.
  destruct ev, ph, ex, stu; simpl; lia.
Qed.

Lemma index_render_one s : indexWf s -> length (Index.render s) = 1%nat.
Proof.
  unfold indexWf, Index.render. destruct s as [ph ex stu]. simpl.
  destruct ph, ex, stu; simpl; intuition congruence.
Qed.

(** X20.  With each screen calling its callback only while it is shown (the
    exam screen also once it is gone, from a pending timeout), the
    application shows exactly one screen at any time (the conditions on the
    exam and the student never leave it blank), and it only moves forward
    through access, registration, exam and completed. *)
Theorem index_shows_one_screen_and_moves_forward evs1 evs2 :
  let s1 := Index.run evs1 Index.initial in
  let s2 := Index.run (evs1 ++ evs2) Index.initial in
  length (Index.render s1) = 1%nat
  /\ (Index.rank (Index.phase s1) <= Index.rank (Index.phase s2))%nat.
Proof.
  intros s1 s2. split.
  - apply index_render_one. subst s1. unfold Index.run.
    generalize Index.initial, (I : indexWf Index.initial).
    induction evs1 as [|ev evs IH]; intros s Hs; simpl; [exact Hs|].
    apply IH, index_step_wf, Hs.
  - subst s1 s2. unfold Index.run. rewrite fold_left_app.
    generalize (fold_left (fun s e => Index.step e s) evs1 Index.initial).
    induction evs2 as [|ev evs IH]; intros s; simpl; [lia|].
    pose proof (index_step_rank ev s). pose proof (IH (Index.step ev s)). lia.
Qed.

(** ** One answer to every form submission *)

(** X21.  Every submission of the registration form is answered with exactly
    one toast, and the student is handed over at most once: exactly once
    under the toast Registration Successful, and not at all under any other
    toast. *)
Theorem registration_answers_with_one_toast formData examId env db :
  let tr := snd (Registration.handleSubmit formData examId env db) in
  exists title,
    registrationToasts tr = [title]
    /\ ((title = "Registration Successful" /\ length (registrationHandOvers tr) = 1%nat)
        \/ (title <> "Registration Successful" /\ registrationHandOvers tr = [])).
Proof.
  unfold Registration.handleSubmit, Registration.checkAndProceed,
    Registration.registrationFailed.
  break_match; simpl; eexists; (split; [reflexivity|]);
    first [ left; split; reflexivity | right; split; [discriminate | reflexivity] ].
Qed.

(** X22.  Every submission of the access-code form is answered with exactly
    one toast, and the exam is handed over at most once: exactly once under
    the toast Access Granted, and not at all under any other toast. *)
Theorem access_form_answers_with_one_toast accessCode now env exams :
  let tr := AccessCode.handleSubmit accessCode now env exams in
  exists title,
    accessToasts tr = [title]
    /\ ((title = "Access Granted" /\ length (accessHandOvers tr) = 1%nat)
        \/ (title <> "Access Granted" /\ accessHandOvers tr = [])).
Proof.
  unfold AccessCode.handleSubmit.
  break_match; simpl; eexists; (split; [reflexivity|]);
    first [ left; split; reflexivity | right; split; [discriminate | reflexivity] ].
Qed.

Lemma registration_hands_over_only_after_its_checks_witness :
  let formData := Registration.mkFormData "Ada" "ada@mail" "R7" in
  let env := Registration.mkEnv true (Some "stu7") true in
  let db := Registration.mkDb [] [("stu1", "e1")] in
  let stu := Registration.mkStudent (Some "stu7") "Ada" "ada@mail" "R7" in
  In (Registration.OnSuccess stu) (snd (Registration.handleSubmit formData "e1" env db))
  /\ Js.includes_char "@"%char (Registration.email formData) = true.
Proof.
  intros formData env db stu.
  assert (H : In (Registration.OnSuccess stu)
                 (snd (Registration.handleSubmit formData "e1" env db)))
    by (vm_compute; auto 10).
  split; [exact H|].
  pose proof (registration_hands_over_only_after_its_checks formData "e1" env db stu H)
    as (_ & _ & _ & Hat & _).
  exact Hat.
Defined.

Lemma access_is_granted_only_to_the_active_exam_witness :
  let exams := [AccessCode.mkExamRow "e0" "Old" "t" "MATH1" None None "draft";
                AccessCode.mkExamRow "e1" "Algebra" "t" "MATH1" (Some 1000) None "active"] in
  let env := AccessCode.mkEnv None "several rows" true in
  let e := AccessCode.mkExam "e1" "Algebra" "t" "MATH1" 1000 3605000 "active" in
  In (AccessCode.OnSuccess e) (AccessCode.handleSubmit "math1" 5000 env exams)
  /\ Js.blank "math1" = false.
Proof.
  intros exams env e.
  assert (H : In (AccessCode.OnSuccess e) (AccessCode.handleSubmit "math1" 5000 env exams))
    by (vm_compute; auto 10).
  split; [exact H|].
  exact (proj1 (access_is_granted_only_to_the_active_exam "math1" 5000 env exams e H)).
Defined.

Lemma an_exam_without_end_time_lasts_one_hour_from_access_witness :
  let r := AccessCode.mkExamRow "e1" "Algebra" "t" "MATH1" None None "active" in
  let p := AccessCode.propsOf (AccessCode.examData 5000 r) (Some "stu1") in
  AccessCode.end_time r = None
  /\ (3599000 < 3599001 -> currentPhase (mount p (5000 + 3599001)) = completed).
Proof.
  intros r p. split; [reflexivity|].
  exact (proj2 (an_exam_without_end_time_lasts_one_hour_from_access 5000 r (Some "stu1")
                  3599001 eq_refl)).
Defined.
